(** * MCCI Catena SHT3x driver: a shallow embedding of [Catena-SHT3x.cpp]

    The driver talks to a Sensirion SHT3x humidity/temperature sensor over
    a two-wire bus.  This development embeds the functions of
    [src/lib/Catena-SHT3x.cpp] as Rocq functions and proves properties of
    the checksum, of the response decoding, and of the command sequences
    the driver puts on the bus.

    Conventions.
    - C++ unsigned integers of width [w] are [Z] values, with the wrap on
      assignment written out ([to_u8], [to_u16], [to_u32]).
    - A byte buffer [std::uint8_t buf[n]] is a [list Z].
    - The bus ([TwoWire]), [delay] and [Serial] are the environment: calls
      to them are state transformers on a [World] which also records every
      call in a trace.
    - Declarations of [Catena-SHT3x.h] that the .cpp file uses are
      collected in the class [Sht3xDecls]. *)

From Stdlib Require Import ZArith List String Bool Lia QArith.
From Stdlib Require Import Floats.SpecFloat.
Import ListNotations.

Local Open Scope Z_scope.

(* ------------------------------------------------------------------ *)
(** * Fixed-width integers *)
(* ------------------------------------------------------------------ *)

Definition to_u8 (z : Z) : Z := z mod 256.
Definition to_u16 (z : Z) : Z := z mod 65536.
Definition to_u32 (z : Z) : Z := z mod 4294967296.

Definition is_u8 (z : Z) : Prop := 0 <= z < 256.
Definition is_u16 (z : Z) : Prop := 0 <= z < 65536.

(** All 256 byte values, in order. *)
Definition all_bytes : list Z := map Z.of_nat (seq 0 256).

(* ------------------------------------------------------------------ *)
(** * Integrity checker: [cSHT_3x::crc] *)
(* ------------------------------------------------------------------ *)

Module Crc.

(** [static const std::uint8_t crcTable[16]]. *)
Definition crcTable : list Z :=
  [ 0x00; 0x31; 0x62; 0x53; 0xc4; 0xf5; 0xa6; 0x97;
    0xb9; 0x88; 0xdb; 0xea; 0x7d; 0x4c; 0x1f; 0x2e ].

(** [crcTable[p]]. *)
Definition tbl (p : Z) : Z := nth (Z.to_nat p) crcTable 0.

(** The body of the [for] loop of [crc] for one input byte [b]; the
    operands are promoted to [int], the assignments to [p] and [crc8]
    truncate to 8 bits. *)
Definition crc_byte (crc8 b : Z) : Z :=
  (* calculate first nibble *)
  let p := to_u8 (Z.shiftr (Z.lxor b crc8) 4) in
  let crc8 := to_u8 (Z.lxor (Z.shiftl crc8 4) (tbl p)) in
  (* calculate second nibble *)
  let p := to_u8 (Z.land (Z.lxor (Z.shiftr crc8 4) b) 0xF) in
  let crc8 := to_u8 (Z.lxor (Z.shiftl crc8 4) (tbl p)) in
  crc8.

(** [crc(buf, nBuf, crc8)]: [buf] is the slice of [nBuf] bytes the
    pointer and length designate. *)
Fixpoint crc (buf : list Z) (crc8 : Z) : Z :=
  match buf with
  | [] => crc8
  | b :: rest => crc rest (crc_byte crc8 b)
  end.

(** Modelled from the spec: the default value of the parameter [crc8],
    which the declaration in the header gives and every caller in the
    driver relies on: "initial value 0xFF". *)
Definition crc_init : Z := 0xFF.

(** ** The checksum as the specification words it

    One nibble step: the high nibble of ([x] XOR running CRC) is
    substituted through the table and XORed against the running CRC
    shifted left by four. *)
Definition nibble_step (crc8 x : Z) : Z :=
  to_u8 (Z.lxor (Z.shiftl crc8 4) (tbl (Z.shiftr (Z.lxor x crc8) 4))).

(** High nibble first, then the low nibble of the same byte (moved to the
    high position) against the updated running CRC. *)
Definition crc_byte_words (crc8 b : Z) : Z :=
  nibble_step (nibble_step crc8 b) (to_u8 (Z.shiftl b 4)).

Definition crc_words (buf : list Z) (crc8 : Z) : Z :=
  fold_left crc_byte_words buf crc8.

(** ** Reference CRC-8, polynomial 0x31, bit at a time, most significant
    bit first, no reflection, no final XOR. *)
Definition poly : Z := 0x31.

Definition crc8_shift (c : Z) : Z :=
  if Z.testbit c 7
  then to_u8 (Z.lxor (Z.shiftl c 1) poly)
  else to_u8 (Z.shiftl c 1).

Definition crc8_ref_byte (c b : Z) : Z :=
  Nat.iter 8 crc8_shift (Z.lxor c b).

Definition crc8_ref (buf : list Z) (init : Z) : Z :=
  fold_left crc8_ref_byte buf init.

(** A step function tabulated over all 256 states [c] and all 256 bytes
    [b]: entry [c * 256 + b] is [f c b]. *)
Definition tabulate (f : Z -> Z -> Z) : list Z :=
  flat_map (fun c => map (f c) all_bytes) all_bytes.

(** The table of the reference CRC-8. *)
Definition crc8_ref_table : list Z := tabulate crc8_ref_byte.

End Crc.

(* ------------------------------------------------------------------ *)
(** * The environment: two-wire bus, delay and serial console *)
(* ------------------------------------------------------------------ *)

(** The operations of the bus object [m_wire] that the driver calls.  The
    bus is an external collaborator: its state [W] and the results of its
    operations are left to the instance. *)
Class TwoWire (W : Type) : Type := {
  tw_begin : W -> W;
  tw_beginTransmission : Z -> W -> W;
  tw_write : Z -> W -> W;
  tw_endTransmission : W -> Z * W;
  tw_requestFrom : Z -> Z -> W -> Z * W;
  tw_available : W -> Z * W;
  tw_read : W -> Z * W
}.

(** What the driver passes to [Serial.print] and [Serial.println]. *)
Inductive SerialArg : Type :=
| Text (s : string)
| Num (z : Z)
| Hex (z : Z).

(** Every call the driver makes to its environment. *)
Inductive Event : Type :=
| EvWireBegin
| EvBeginTransmission (addr : Z)
| EvWrite (b : Z)
| EvEndTransmission (result : Z)
| EvRequestFrom (addr n got : Z)
| EvAvailable (n : Z)
| EvRead (v : Z)
| EvDelay (ms : Z)
| EvPrint (a : SerialArg)
| EvPrintln (a : SerialArg).

(** Calls to the debug console, as opposed to bus traffic and delays. *)
Definition is_serial (e : Event) : bool :=
  match e with
  | EvPrint _ | EvPrintln _ => true
  | _ => false
  end.

(** The bus calls and delays of a trace, in order. *)
Definition io_calls (tr : list Event) : list Event :=
  filter (fun e => negb (is_serial e)) tr.

(** The bytes handed to [write], in order. *)
Definition written_bytes (tr : list Event) : list Z :=
  flat_map (fun e => match e with EvWrite b => [b] | _ => [] end) tr.

Record World (W : Type) : Type := mkWorld {
  wire : W;
  trace : list Event
}.
Arguments mkWorld {W} _ _.
Arguments wire {W} _.
Arguments trace {W} _.

Definition log {W} (e : Event) (w : World W) : World W :=
  mkWorld (wire w) (trace w ++ [e]).

(** ** Computations of the driver

    A computation transforms the world and yields a value, or has no
    defined behaviour ([None]): the only source of that in this file is a
    store past the end of a buffer. *)
Definition M (W A : Type) : Type := World W -> option (A * World W).

Definition ret {W A} (a : A) : M W A := fun w => Some (a, w).

Definition bind {W A B} (m : M W A) (k : A -> M W B) : M W B :=
  fun w => match m w with
           | Some (a, w') => k a w'
           | None => None
           end.

Definition undefined {W A} : M W A := fun _ => None.

Declare Scope drv_scope.
Delimit Scope drv_scope with drv.
Notation "x <- c ;; k" := (bind c (fun x => k))
  (at level 61, c at next level, right associativity) : drv_scope.
Notation "' pat <- c ;; k" := (bind c (fun x => match x with pat => k end))
  (at level 61, pat pattern, c at next level, right associativity)
  : drv_scope.
Notation "c ;;; k" := (bind c (fun _ => k))
  (at level 61, right associativity) : drv_scope.

Section Environment.
Context {W : Type} {bus : TwoWire W}.
Local Open Scope drv_scope.

Definition wire_begin : M W unit :=
  fun w => Some (tt, mkWorld (tw_begin (wire w)) (trace w ++ [EvWireBegin])).

Definition wire_beginTransmission (addr : Z) : M W unit :=
  fun w => Some (tt, mkWorld (tw_beginTransmission addr (wire w))
                             (trace w ++ [EvBeginTransmission addr])).

Definition wire_write (b : Z) : M W unit :=
  fun w => Some (tt, mkWorld (tw_write b (wire w)) (trace w ++ [EvWrite b])).

Definition wire_endTransmission : M W Z :=
  fun w => let (r, b') := tw_endTransmission (wire w) in
           Some (r, mkWorld b' (trace w ++ [EvEndTransmission r])).

Definition wire_requestFrom (addr n : Z) : M W Z :=
  fun w => let (r, b') := tw_requestFrom addr n (wire w) in
           Some (r, mkWorld b' (trace w ++ [EvRequestFrom addr n r])).

Definition wire_available : M W Z :=
  fun w => let (r, b') := tw_available (wire w) in
           Some (r, mkWorld b' (trace w ++ [EvAvailable r])).

Definition wire_read : M W Z :=
  fun w => let (r, b') := tw_read (wire w) in
           Some (r, mkWorld b' (trace w ++ [EvRead r])).

Definition delay (ms : Z) : M W unit :=
  fun w => Some (tt, log (EvDelay ms) w).

Definition Serial_print (a : SerialArg) : M W unit :=
  fun w => Some (tt, log (EvPrint a) w).

Definition Serial_println (a : SerialArg) : M W unit :=
  fun w => Some (tt, log (EvPrintln a) w).

(** [if (cond) body]. *)
Definition when (cond : bool) (body : M W unit) : M W unit :=
  if cond then body else ret tt.

End Environment.

(** The contract of the bus that [readResponse] relies on: right after
    [requestFrom(addr, n)], [available()] reports between 0 and [n]
    bytes. *)
Definition BusContract {W} (bus : TwoWire W) : Prop :=
  forall addr n b,
    0 <= n ->
    0 <= fst (tw_available (snd (tw_requestFrom addr n b))) <= n.

(* ------------------------------------------------------------------ *)
(** * Declarations of [Catena-SHT3x.h] used by the driver *)
(* ------------------------------------------------------------------ *)

(** A C++ [float]: an IEEE 754 binary32 number (precision 24, maximal
    exponent 128), with the operations of the standard library's
    specification of floating-point arithmetic. *)
Definition cfloat : Type := spec_float.

(** The [NAN] macro. *)
Definition NAN : cfloat := S754_nan.

Definition f32_of_Z (z : Z) : cfloat := binary_normalize 24 128 z 0 false.
Definition f32_add : cfloat -> cfloat -> cfloat := SFadd 24 128.
Definition f32_mul : cfloat -> cfloat -> cfloat := SFmul 24 128.
Definition f32_div : cfloat -> cfloat -> cfloat := SFdiv 24 128.

Definition f32_is_finite (x : cfloat) : bool :=
  match x with
  | S754_zero _ | S754_finite _ _ _ => true
  | _ => false
  end.

(** The rational a finite binary32 number stands for (0 for the others). *)
Definition f32_value (x : cfloat) : Q :=
  match x with
  | S754_finite s m e =>
      let n := if s then Zneg m else Zpos m in
      match e with
      | Z0 => n # 1
      | Zpos p => (n * 2 ^ Zpos p) # 1
      | Zneg p => n # (2 ^ p)
      end
  | _ => 0
  end.

(** [enum class Command : std::uint16_t]: the 16-bit opcode. *)
Definition Command : Type := Z.

(** The enumerations, the named opcodes and the inline helpers of the
    header, as parameters of the development: the .cpp file refers to them
    by name only, and the properties of the driver proved below hold for
    every choice of opcode values, lookup tables and conversions. *)
Class Sht3xDecls : Type := {
  Repeatability : Type;
  Periodicity : Type;
  ClockStretching : Type;
  (** [static_cast<int>(r)] *)
  Repeatability_int : Repeatability -> Z;
  Periodicity_Single : Periodicity;
  ClockStretching_Disabled : ClockStretching;
  Command_Error : Command;
  Command_SoftReset : Command;
  Command_GetStatus : Command;
  Command_Break : Command;
  Command_Fetch : Command;
  getCommand : Periodicity -> Repeatability -> ClockStretching -> Command;
  getPeriodicity : Command -> Periodicity;
  PeriodicityToMillis : Periodicity -> Z;
  rawTtoCelsius : Z -> cfloat;
  rawRHtoPercent : Z -> cfloat
}.

(** Modelled from the spec: the class [Status_t] of the header, "a
    validity-tagged 16-bit bitfield decoded from the device status
    register" with "an explicit validity flag distinguishing no data from
    all-zero data".  [Status_invalid] is [Status_t()], [Status_valid bits]
    is [Status_t(bits)]. *)
Inductive Status_t : Type :=
| Status_invalid
| Status_valid (bits : Z).

Definition Status_isValid (s : Status_t) : bool :=
  match s with
  | Status_invalid => false
  | Status_valid _ => true
  end.

(** Modelled from the spec: the configuration fields of the device handle
    declared in the header, "an immutable bus address, a skip integrity
    check flag, and a debug-enabled flag".  The bus reference [m_wire] is
    the [wire] of the world. *)
Record cSHT_3x : Type := mk_cSHT_3x {
  m_address : Z;
  m_noCrc : bool;
  m_debug : bool
}.

(** [std::int8_t getAddress() const]. *)
Definition getAddress (dev : cSHT_3x) : Z := m_address dev.

Definition isDebug (dev : cSHT_3x) : bool := m_debug dev.

(** Indeterminate initial values of the locals that the driver declares
    without an initialiser. *)
Record Indet : Type := mkIndet {
  ind_byte : nat -> Z;
  ind_tfrac : Z;
  ind_rhfrac : Z
}.

(** [std::uint8_t buf[n];] *)
Definition local_buf (ind : Indet) (n : nat) : list Z :=
  map (ind_byte ind) (seq 0 n).

(* ------------------------------------------------------------------ *)
(** * The driver: [Catena-SHT3x.cpp] *)
(* ------------------------------------------------------------------ *)

(** [buf[i]], for [i] inside the array. *)
Definition at_ (buf : list Z) (i : nat) : Z := nth i buf 0.

(** [buf[i] = v]: defined inside the array only. *)
Definition store (buf : list Z) (i : nat) (v : Z) : option (list Z) :=
  if (i <? List.length buf)%nat
  then Some (firstn i buf ++ v :: skipn (S i) buf)
  else None.

(** [(hi << 8) | lo] stored into a [std::uint16_t]. *)
Definition be16 (hi lo : Z) : Z := to_u16 (Z.lor (Z.shiftl hi 8) lo).

Section Driver.
Context {W : Type} {bus : TwoWire W} {decls : Sht3xDecls}.
Variable dev : cSHT_3x.
Local Open Scope drv_scope.

Definition writeCommand (c : Command) : M W bool :=
  let cbits := to_u16 c in
  let addr := getAddress dev in
  if addr <? 0 then
    when (isDebug dev)
         (Serial_println (Text "writeCommand: bad address")) ;;;
    ret false
  else
    wire_beginTransmission addr ;;;
    wire_write (to_u8 (Z.shiftr cbits 8)) ;;;
    wire_write (to_u8 (Z.land cbits 0xFF)) ;;;
    r <- wire_endTransmission ;;
    let result := to_u8 r in
    if negb (result =? 0) then
      when (isDebug dev)
           (Serial_print (Text "writeCommand: error writing command 0x") ;;;
            Serial_print (Hex cbits) ;;;
            Serial_print (Text ", result: ") ;;;
            Serial_println (Num result)) ;;;
      ret false
    else
      ret true.

(** [for (unsigned i = 0; i < nResult; ++i) buf[i] = m_wire->read();]
    with [n] iterations left and [i] the current index. *)
Fixpoint read_loop (n : nat) (i : nat) (buf : list Z) : M W (list Z) :=
  match n with
  | O => ret buf
  | S n' =>
      v <- wire_read ;;
      match store buf i (to_u8 v) with
      | Some buf' => read_loop n' (S i) buf'
      | None => undefined
      end
  end.

(** [readResponse(buf, nBuf)]: [None] is the null pointer; the buffer is
    returned as the call leaves it. *)
Definition readResponse (buf : option (list Z)) (nBuf : Z)
  : M W (bool * option (list Z)) :=
  let addr := getAddress dev in
  match buf with
  | None =>
      when (isDebug dev)
           (Serial_println (Text "readResponse: invalid parameter")) ;;;
      ret (false, buf)
  | Some arr =>
      if (nBuf >? 32) || (addr <? 0) then
        when (isDebug dev)
             (Serial_println (Text "readResponse: invalid parameter")) ;;;
        ret (false, buf)
      else
        r <- wire_requestFrom (to_u8 addr) (to_u8 nBuf) ;;
        let nReadFrom := to_u8 r in
        when (negb (nReadFrom =? nBuf) && isDebug dev)
             (Serial_print (Text "readResponse: nReadFrom(") ;;;
              Serial_print (Num nReadFrom) ;;;
              Serial_print (Text ") != nBuf(") ;;;
              Serial_print (Num nBuf) ;;;
              Serial_println (Text ")")) ;;;
        a <- wire_available ;;
        let nResult := to_u32 a in
        arr' <- read_loop (Z.to_nat nResult) 0 arr ;;
        when (negb (nResult =? nBuf) && isDebug dev)
             (Serial_print (Text "readResponse: nResult(") ;;;
              Serial_print (Num nResult) ;;;
              Serial_print (Text ") != nBuf(") ;;;
              Serial_print (Num nBuf) ;;;
              Serial_println (Text ")")) ;;;
        ret (nResult =? nBuf, Some arr')
  end.

(** [processResultsRaw(buf, tfrac, rhfrac)]: the result and the two
    output parameters as the call leaves them.  It reads nothing but
    [buf] and [m_noCrc]. *)
Definition processResultsRaw (buf : list Z) (tfrac rhfrac : Z)
  : bool * Z * Z :=
  let tfrac := be16 (at_ buf 0) (at_ buf 1) in
  let rhfrac := be16 (at_ buf 3) (at_ buf 4) in
  if negb (m_noCrc dev)
     && (negb (Crc.crc (firstn 2 buf) Crc.crc_init =? at_ buf 2)
         || negb (Crc.crc (firstn 2 (skipn 3 buf)) Crc.crc_init
                  =? at_ buf 5))
  then (false, tfrac, rhfrac)
  else (true, tfrac, rhfrac).

Definition reset : M W bool :=
  ok <- writeCommand Command_SoftReset ;;
  if ok then delay 10 ;;; ret true else ret false.

Definition begin : M W bool :=
  wire_begin ;;; reset.

Definition end_ : M W unit :=
  reset ;;; ret tt.

Definition getStatus (ind : Indet) : M W Status_t :=
  let buf := local_buf ind 3 in
  ok <- writeCommand Command_GetStatus ;;
  '(ok, buf) <-
     (if ok : bool
      then '(ok, b) <- readResponse (Some buf) 3 ;;
           ret (ok, match b with Some b' => b' | None => buf end)
      else ret (ok, buf)) ;;
  let ok :=
    if ok && negb (m_noCrc dev)
    then Crc.crc (firstn 2 buf) Crc.crc_init =? at_ buf 2
    else ok in
  if ok
  then ret (Status_valid (be16 (at_ buf 0) (at_ buf 1)))
  else ret Status_invalid.

(** [getTemperatureHumidityRaw(t, rh, r)]: the result and the two output
    parameters as the call leaves them. *)
Definition getTemperatureHumidityRaw (ind : Indet) (t rh : Z)
           (r : Repeatability) : M W (bool * Z * Z) :=
  let c := getCommand Periodicity_Single r ClockStretching_Disabled in
  let fResult := true in
  fResult <-
    (if c =? Command_Error then
       when (isDebug dev)
            (Serial_print
               (Text "getTemperatureHumidityRaw: Illegal repeatability: ") ;;;
             Serial_println (Num (Repeatability_int r))) ;;;
       ret false
     else ret fResult) ;;
  let buf := local_buf ind 6 in
  fResult <-
    (if fResult : bool then
       ok <- writeCommand c ;;
       when (isDebug dev && negb ok)
            (Serial_println
               (Text "getTemperatureHumidityRaw: writeCommand failed")) ;;;
       ret ok
     else ret fResult) ;;
  '(fResult, buf) <-
    (if fResult : bool then
       delay 20 ;;;
       '(ok, b) <- readResponse (Some buf) 6 ;;
       when (isDebug dev && negb ok)
            (Serial_println
               (Text "getTemperatureHumidityRaw: readResponse failed")) ;;;
       ret (ok, match b with Some b' => b' | None => buf end)
     else ret (fResult, buf)) ;;
  if fResult : bool then
    let '(ok, t', rh') := processResultsRaw buf t rh in
    when (isDebug dev && negb ok)
         (Serial_println
            (Text "getTemperatureHumidityRaw: processResultsRaw failed")) ;;;
    ret (ok, t', rh')
  else ret (fResult, t, rh).

(** [getTemperatureHumidity(t, rh, r)]: the result and the two output
    parameters as the call leaves them. *)
Definition getTemperatureHumidity (ind : Indet) (t rh : cfloat)
           (r : Repeatability) : M W (bool * cfloat * cfloat) :=
  '(fResult, tfrac, rhfrac) <-
     getTemperatureHumidityRaw ind (ind_tfrac ind) (ind_rhfrac ind) r ;;
  if fResult : bool
  then ret (fResult, rawTtoCelsius tfrac, rawRHtoPercent rhfrac)
  else ret (fResult, NAN, NAN).

Definition startPeriodicMeasurement (c : Command) : M W Z :=
  let result := to_u32 (PeriodicityToMillis (getPeriodicity c)) in
  if result =? 0 then ret result
  else
    (* break any previous measurement *)
    okb <- writeCommand Command_Break ;;
    if negb okb then ret 0
    else
      (* start this measurement *)
      okc <- writeCommand c ;;
      if negb okc then ret 0
      else ret result.

Definition getPeriodicMeasurementRaw (ind : Indet) (tfrac rhfrac : Z)
  : M W (bool * Z * Z) :=
  let buf := local_buf ind 6 in
  fResult <- writeCommand Command_Fetch ;;
  '(fResult, buf) <-
    (if fResult : bool then
       '(ok, b) <- readResponse (Some buf) 6 ;;
       ret (ok, match b with Some b' => b' | None => buf end)
     else ret (fResult, buf)) ;;
  if fResult : bool
  then ret (processResultsRaw buf tfrac rhfrac)
  else ret (fResult, tfrac, rhfrac).

(** [getPeriodicMeasurement(t, rh)]: the result and the two output
    parameters as the call leaves them. *)
Definition getPeriodicMeasurement (ind : Indet) (t rh : cfloat)
  : M W (bool * cfloat * cfloat) :=
  '(fResult, tfrac, rhfrac) <-
     getPeriodicMeasurementRaw ind (ind_tfrac ind) (ind_rhfrac ind) ;;
  if negb fResult then ret (false, t, rh)
  else
    if fResult : bool
    then ret (fResult, rawTtoCelsius tfrac, rawRHtoPercent rhfrac)
    else ret (fResult, t, rh).

End Driver.

(** ** Observations on executions *)

(** Between [w] and [w'] the driver talked to the debug console at most:
    the bus is untouched and no bus call or delay was made. *)
Definition no_io {W} (w w' : World W) : Prop :=
  wire w' = wire w /\
  exists out, trace w' = trace w ++ out /\ forallb is_serial out = true.

(** A computation that returns and touches nothing but the console. *)
Definition console_only {W} (m : M W unit) : Prop :=
  forall w, exists w', m w = Some (tt, w') /\ no_io w w'.

(** The two checksum comparisons of a 6-byte measurement response. *)
Definition checksums_match (buf : list Z) : bool :=
  (Crc.crc (firstn 2 buf) Crc.crc_init =? at_ buf 2)
  && (Crc.crc (firstn 2 (skipn 3 buf)) Crc.crc_init =? at_ buf 5).

(** The status word [getStatus] decodes from a 3-byte response, if the
    read succeeded ([okr]) and the response passes the integrity check. *)
Definition status_of (dev : cSHT_3x) (okr : bool) (buf : list Z) : Status_t :=
  if okr && (m_noCrc dev
             || (Crc.crc (firstn 2 buf) Crc.crc_init =? at_ buf 2))
  then Status_valid (be16 (at_ buf 0) (at_ buf 1))
  else Status_invalid.

(** ** The stages of a single-shot measurement

    The opcode [getTemperatureHumidityRaw] encodes for [r]. *)
Definition single_shot_command {decls : Sht3xDecls} (r : Repeatability)
  : Command :=
  getCommand Periodicity_Single r ClockStretching_Disabled.

Section Stages.
Context {W : Type} {bus : TwoWire W} {decls : Sht3xDecls}.
Variables (dev : cSHT_3x) (ind : Indet) (r : Repeatability) (w : World W).

(** Some stage of the single-shot measurement started in [w] fails: the
    encoding, the command write, the 6-byte read (after the 20 ms delay),
    or the validation of the response. *)
Definition single_shot_stage_fails : Prop :=
  let c := single_shot_command r in
  c = Command_Error \/
  (c <> Command_Error /\
   exists w1, writeCommand dev c w = Some (false, w1)) \/
  (c <> Command_Error /\
   exists w1 b w2,
     writeCommand dev c w = Some (true, w1) /\
     readResponse dev (Some (local_buf ind 6)) 6 (log (EvDelay 20) w1)
     = Some ((false, b), w2)) \/
  (c <> Command_Error /\
   exists w1 buf w2,
     writeCommand dev c w = Some (true, w1) /\
     readResponse dev (Some (local_buf ind 6)) 6 (log (EvDelay 20) w1)
     = Some ((true, Some buf), w2) /\
     m_noCrc dev = false /\ checksums_match buf = false).

(** Every stage succeeds and [buf] is the response that was read. *)
Definition single_shot_stages_succeed (buf : list Z) : Prop :=
  let c := single_shot_command r in
  c <> Command_Error /\
  exists w1 w2,
    writeCommand dev c w = Some (true, w1) /\
    readResponse dev (Some (local_buf ind 6)) 6 (log (EvDelay 20) w1)
    = Some ((true, Some buf), w2) /\
    (m_noCrc dev = true \/ checksums_match buf = true).

(** Some stage of fetching a periodic measurement started in [w] fails:
    the Fetch write, the 6-byte read, or the validation. *)
Definition fetch_stage_fails : Prop :=
  (exists w1, writeCommand dev Command_Fetch w = Some (false, w1)) \/
  (exists w1 b w2,
     writeCommand dev Command_Fetch w = Some (true, w1) /\
     readResponse dev (Some (local_buf ind 6)) 6 w1
     = Some ((false, b), w2)) \/
  (exists w1 buf w2,
     writeCommand dev Command_Fetch w = Some (true, w1) /\
     readResponse dev (Some (local_buf ind 6)) 6 w1
     = Some ((true, Some buf), w2) /\
     m_noCrc dev = false /\ checksums_match buf = false).

End Stages.

(** The two bytes of a command frame, high byte first. *)
Definition frame (c : Command) : list Z :=
  [ to_u8 (Z.shiftr (to_u16 c) 8); to_u8 (Z.land (to_u16 c) 0xFF) ].

(* ------------------------------------------------------------------ *)
(** * A simulated transport and an instance of the header *)
(* ------------------------------------------------------------------ *)

Module Sim.

(** A scripted bus: [sim_tx] holds the results of the coming
    [endTransmission] calls, [sim_rsp] the device's answers to the coming
    [requestFrom] calls, [sim_rx] the receive buffer. *)
Record SimBus : Type := mkSim {
  sim_tx : list Z;
  sim_rsp : list (list Z);
  sim_rx : list Z
}.

Definition sim_endTransmission (b : SimBus) : Z * SimBus :=
  match sim_tx b with
  | [] => (0, b)
  | r :: rest => (r, mkSim rest (sim_rsp b) (sim_rx b))
  end.

Definition sim_requestFrom (addr n : Z) (b : SimBus) : Z * SimBus :=
  match sim_rsp b with
  | [] => (0, mkSim (sim_tx b) [] [])
  | r :: rest =>
      let got := firstn (Z.to_nat n) r in
      (Z.of_nat (List.length got), mkSim (sim_tx b) rest got)
  end.

Definition sim_read (b : SimBus) : Z * SimBus :=
  match sim_rx b with
  | [] => (-1, b)
  | v :: rest => (v, mkSim (sim_tx b) (sim_rsp b) rest)
  end.

#[global] Instance SimWire : TwoWire SimBus := {|
  tw_begin := fun b => b;
  tw_beginTransmission := fun _ b => b;
  tw_write := fun _ b => b;
  tw_endTransmission := sim_endTransmission;
  tw_requestFrom := sim_requestFrom;
  tw_available := fun b => (Z.of_nat (List.length (sim_rx b)), b);
  tw_read := sim_read
|}.

(** The world before the first call. *)
Definition start (tx : list Z) (rsp : list (list Z)) : World SimBus :=
  mkWorld (mkSim tx rsp []) [].

(** Modelled from the spec: an instance of the header's declarations.
    The header is not part of the sources at hand; the enumerations are
    kept as their underlying integers, the opcodes and intervals are those
    of the sensor's data sheet, and a combination outside the tables gives
    the [Error] opcode or the interval 0, as the specification requires
    ("returns the Error sentinel for any unmapped combination", "returning
    0 for non-periodic or invalid values"). *)
Definition Low : Z := 0.
Definition Medium : Z := 1.
Definition High : Z := 2.

Definition Single : Z := 0.
Definition HalfHz : Z := 1.
Definition OneHz : Z := 2.
Definition TwoHz : Z := 3.
Definition FourHz : Z := 4.
Definition TenHz : Z := 5.

Definition Disabled : Z := 0.
Definition Enabled : Z := 1.

Definition single_shot_table : list (list Z) :=
  [ [ 0x2416; 0x240B; 0x2400 ];
    [ 0x2C10; 0x2C0D; 0x2C06 ] ].

Definition periodic_table : list (list Z) :=
  [ [ 0x202F; 0x2024; 0x2032 ];
    [ 0x212D; 0x2126; 0x2130 ];
    [ 0x222B; 0x2220; 0x2236 ];
    [ 0x2329; 0x2322; 0x2334 ];
    [ 0x272A; 0x2721; 0x2737 ] ].

Definition lookup2 (tbl : list (list Z)) (row col : Z) : Z :=
  if (row <? 0) || (col <? 0) then 0
  else nth (Z.to_nat col) (nth (Z.to_nat row) tbl []) 0.

Definition sim_getCommand (p r s : Z) : Command :=
  if p =? Single then lookup2 single_shot_table s r
  else lookup2 periodic_table (p - 1) r.

Definition sim_getPeriodicity (c : Command) : Z :=
  match Z.shiftr c 8 with
  | 0x20 => HalfHz
  | 0x21 => OneHz
  | 0x22 => TwoHz
  | 0x23 => FourHz
  | 0x27 => TenHz
  | _ => Single
  end.

Definition sim_PeriodicityToMillis (p : Z) : Z :=
  nth (Z.to_nat p) [0; 2000; 1000; 500; 250; 100] 0.

End Sim.

(** Modelled from the spec: the conversions of the header, which is not
    part of the sources at hand: "rawTtoCelsius(frac) = -45 + 175 * frac /
    65535" and "rawRHtoPercent(frac) = 100 * frac / 65535".  First as the
    exact rationals the formulas denote. *)
Definition rawTtoCelsius_Q (frac : Z) : Q :=
  (- (45 # 1) + (175 # 1) * (frac # 1) / (65535 # 1))%Q.

Definition rawRHtoPercent_Q (frac : Z) : Q :=
  ((100 # 1) * (frac # 1) / (65535 # 1))%Q.

(** Modelled from the spec: the same two formulas evaluated in [float]
    arithmetic, in the order they are written, each operation rounding to
    nearest even. *)
Definition rawTtoCelsius_f32 (frac : Z) : cfloat :=
  f32_add (f32_of_Z (-45))
          (f32_div (f32_mul (f32_of_Z 175) (f32_of_Z frac)) (f32_of_Z 65535)).

Definition rawRHtoPercent_f32 (frac : Z) : cfloat :=
  f32_div (f32_mul (f32_of_Z 100) (f32_of_Z frac)) (f32_of_Z 65535).

(** [x < y] on rationals, as a boolean. *)
Definition Qltb (x y : Q) : bool :=
  Qnum x * QDen y <? Qnum y * QDen x.

(** [|x - y| < eps]. *)
Definition Qclose (eps x y : Q) : bool :=
  Qltb (x - y) eps && Qltb (y - x) eps.

(** The [float] results for the raw value [frac], as rationals, provided
    they are finite and within 2^-17 (temperature) and 2^-18 (humidity) of
    the exact rationals. *)
Definition conversions_at (frac : Z) : option (Q * Q) :=
  let t := rawTtoCelsius_f32 frac in
  let rh := rawRHtoPercent_f32 frac in
  if f32_is_finite t && f32_is_finite rh
     && Qclose (1 # 131072) (f32_value t) (rawTtoCelsius_Q frac)
     && Qclose (1 # 262144) (f32_value rh) (rawRHtoPercent_Q frac)
  then Some (f32_value t, f32_value rh)
  else None.

(** Both components below, or the same pair. *)
Definition pair_le (u v : Q * Q) : Prop :=
  u = v \/ ((fst u < fst v)%Q /\ (snd u < snd v)%Q).

(** [pt] is defined on every integer of [lo, lo + 2^k) and both of its
    components increase strictly there; the result is its first and last
    value on the range. *)
Fixpoint increasing_range (pt : Z -> option (Q * Q)) (k : nat) (lo : Z)
  : option ((Q * Q) * (Q * Q)) :=
  match k with
  | O => match pt lo with
         | Some v => Some (v, v)
         | None => None
         end
  | S k' =>
      match increasing_range pt k' lo,
            increasing_range pt k' (lo + 2 ^ Z.of_nat k') with
      | Some (first, l1), Some (f2, last) =>
          if Qltb (fst l1) (fst f2) && Qltb (snd l1) (snd f2)
          then Some (first, last)
          else None
      | _, _ => None
      end
  end.

Module SimDecls.

#[export] Instance decls : Sht3xDecls := {|
  Repeatability := Z;
  Periodicity := Z;
  ClockStretching := Z;
  Repeatability_int := fun r => r;
  Periodicity_Single := Sim.Single;
  ClockStretching_Disabled := Sim.Disabled;
  Command_Error := 0;
  Command_SoftReset := 0x30A2;
  Command_GetStatus := 0xF32D;
  Command_Break := 0x3093;
  Command_Fetch := 0xE000;
  getCommand := Sim.sim_getCommand;
  getPeriodicity := Sim.sim_getPeriodicity;
  PeriodicityToMillis := Sim.sim_PeriodicityToMillis;
  rawTtoCelsius := rawTtoCelsius_f32;
  rawRHtoPercent := rawRHtoPercent_f32
|}.

(** A sensor at address 0x44, integrity check on, debug off. *)
Definition sensor : cSHT_3x := mk_cSHT_3x 0x44 false false.

(** The same sensor with the integrity check skipped. *)
Definition sensor_noCrc : cSHT_3x := mk_cSHT_3x 0x44 true false.

(** A handle with debug output on. *)
Definition sensor_debug : cSHT_3x := mk_cSHT_3x 0x44 false true.

(** A handle configured with the error address. *)
Definition sensor_bad_address : cSHT_3x := mk_cSHT_3x (-1) false true.

(** Locals that start out as zeros. *)
Definition zeros : Indet := mkIndet (fun _ => 0) 0 0.

(** Locals that start out with other leftovers. *)
Definition leftovers : Indet := mkIndet (fun i => Z.of_nat i + 17) 4660 22136.

(** A measurement response: temperature fraction 0x6666, humidity
    fraction 0x4000, each followed by its checksum. *)
Definition good_response : list Z := [0x66; 0x66; 0x93; 0x40; 0x00; 0x08].

(** The same response with the first checksum byte corrupted. *)
Definition corrupted_response : list Z := [0x66; 0x66; 0x94; 0x40; 0x00; 0x08].

End SimDecls.

(* ------------------------------------------------------------------ *)
(** * The rest of the driver and further observations *)
(* ------------------------------------------------------------------ *)

Section Heater.
Context {W : Type} {bus : TwoWire W} {decls : Sht3xDecls}.

(** [Status_t::isHeaterOn()], a method of the class in the header. *)
Variable isHeaterOn : Status_t -> bool.
Variable dev : cSHT_3x.
Local Open Scope drv_scope.

Definition getHeater (ind : Indet) : M W bool :=
  s <- getStatus dev ind ;;
  if Status_isValid s && isHeaterOn s
  then ret true
  else ret false.

End Heater.

(** The handle [dev] with its debug flag set to [d]. *)
Definition with_debug (dev : cSHT_3x) (d : bool) : cSHT_3x :=
  mk_cSHT_3x (m_address dev) (m_noCrc dev) d.

(** Two worlds with the same bus state and the same bus calls and delays
    so far; their console output may differ. *)
Definition same_io {W} (w w' : World W) : Prop :=
  wire w = wire w' /\ io_calls (trace w) = io_calls (trace w').

(** Two computations that, from worlds alike up to console output, are
    both undefined or both return the same value in worlds alike up to
    console output. *)
Definition alike {W A} (m m' : M W A) : Prop :=
  forall w w',
    same_io w w' ->
    match m w, m' w' with
    | Some (a, w1), Some (a', w1') => a = a' /\ same_io w1 w1'
    | None, None => True
    | _, _ => False
    end.

(** [n] successive calls of [read()] on the bus: the values and the bus
    state they leave. *)
Fixpoint reads {W} {bus : TwoWire W} (n : nat) (b : W) : list Z * W :=
  match n with
  | O => ([], b)
  | S n' =>
      let (v, b1) := tw_read b in
      let (vs, b2) := reads n' b1 in
      (v :: vs, b2)
  end.

(** The events of a command write that reached the bus and ended with
    status [r]. *)
Definition write_events (dev : cSHT_3x) (c : Command) (r : Z) : list Event :=
  [ EvBeginTransmission (getAddress dev);
    EvWrite (to_u8 (Z.shiftr (to_u16 c) 8));
    EvWrite (to_u8 (Z.land (to_u16 c) 0xFF));
    EvEndTransmission r ].

(** The bus side of one command write: the status that [endTransmission]
    returns after the two bytes of [c] were queued for the device, and the
    bus state it leaves. *)
Definition transaction {W} {bus : TwoWire W} (dev : cSHT_3x) (c : Command)
           (b : W) : Z * W :=
  tw_endTransmission
    (tw_write (to_u8 (Z.land (to_u16 c) 0xFF))
       (tw_write (to_u8 (Z.shiftr (to_u16 c) 8))
          (tw_beginTransmission (getAddress dev) b))).

(** The six bytes of a measurement response as the sensor frames them:
    each pair of data bytes followed by its checksum. *)
Definition measurement_frame (t_hi t_lo rh_hi rh_lo : Z) : list Z :=
  [ t_hi; t_lo; Crc.crc [t_hi; t_lo] Crc.crc_init;
    rh_hi; rh_lo; Crc.crc [rh_hi; rh_lo] Crc.crc_init ].

(** [buf] with the byte at index [i] replaced by [v]. *)
Definition corrupt (buf : list Z) (i : nat) (v : Z) : list Z :=
  firstn i buf ++ v :: skipn (S i) buf.

Section MoreStages.
Context {W : Type} {bus : TwoWire W} {decls : Sht3xDecls}.
Variables (dev : cSHT_3x) (ind : Indet) (w : World W).

(** Every stage of fetching a periodic measurement succeeds and [buf] is
    the response that was read. *)
Definition fetch_stages_succeed (buf : list Z) : Prop :=
  exists w1 w2,
    writeCommand dev Command_Fetch w = Some (true, w1) /\
    readResponse dev (Some (local_buf ind 6)) 6 w1
    = Some ((true, Some buf), w2) /\
    (m_noCrc dev = true \/ checksums_match buf = true).

(** Some stage of reading the status register fails: the GetStatus write,
    the 3-byte read, or the checksum comparison. *)
Definition status_stage_fails : Prop :=
  (exists w1, writeCommand dev Command_GetStatus w = Some (false, w1)) \/
  (exists w1 b w2,
     writeCommand dev Command_GetStatus w = Some (true, w1) /\
     readResponse dev (Some (local_buf ind 3)) 3 w1
     = Some ((false, b), w2)) \/
  (exists w1 buf w2,
     writeCommand dev Command_GetStatus w = Some (true, w1) /\
     readResponse dev (Some (local_buf ind 3)) 3 w1
     = Some ((true, Some buf), w2) /\
     m_noCrc dev = false /\
     Crc.crc (firstn 2 buf) Crc.crc_init <> at_ buf 2).

End MoreStages.

Module Greedy.

(** A bus that does not keep the contract: it holds on to every byte the
    device sent, whatever count was asked for. *)
Record GreedyBus : Type := mkGreedy {
  pending : list Z
}.

Definition greedy_read (b : GreedyBus) : Z * GreedyBus :=
  match pending b with
  | [] => (-1, b)
  | v :: rest => (v, mkGreedy rest)
  end.

#[global] Instance GreedyWire : TwoWire GreedyBus := {|
  tw_begin := fun b => b;
  tw_beginTransmission := fun _ b => b;
  tw_write := fun _ b => b;
  tw_endTransmission := fun b => (0, b);
  tw_requestFrom := fun _ n b => (n, b);
  tw_available := fun b => (Z.of_nat (List.length (pending b)), b);
  tw_read := greedy_read
|}.

End Greedy.

(** The two outcomes agree on the result flag and on the world, and on
    the value too unless the flag is [false]. *)
Definition agree_if_true {W A} (r1 r2 : option ((bool * A) * World W))
  : Prop :=
  match r1, r2 with
  | Some ((ok1, a1), w1), Some ((ok2, a2), w2) =>
      ok1 = ok2 /\ w1 = w2 /\ (ok1 = true -> a1 = a2)
  | None, None => True
  | _, _ => False
  end.

(** What was printed on the debug console, in order. *)
Definition console_output (tr : list Event) : list Event :=
  filter is_serial tr.

(** A computation that prints nothing: where it has a result, the console
    output after it is the console output before it. *)
Definition silent {W A} (m : M W A) : Prop :=
  forall w,
    match m w with
    | Some (_, w') => console_output (trace w') = console_output (trace w)
    | None => True
    end.

(* ------------------------------------------------------------------ *)
(** * Properties of the integrity checker *)
(* ------------------------------------------------------------------ *)

Lemma all_bytes_In (z : Z) : is_u8 z -> In z all_bytes.
Proof.
  intros [Hlo Hhi]. unfold all_bytes.
  apply in_map_iff. exists (Z.to_nat z). split.
  - apply Z2Nat.id; exact Hlo.
  - apply in_seq. lia.
Qed.

(** A boolean check over all pairs of bytes gives the property for every
    pair of bytes. *)
Lemma forall_byte_pairs (P : Z -> Z -> bool) :
  forallb (fun c => forallb (P c) all_bytes) all_bytes = true ->
  forall c b, is_u8 c -> is_u8 b -> P c b = true.
Proof.
  intros Hall c b Hc Hb.
  rewrite forallb_forall in Hall.
  specialize (Hall c (all_bytes_In c Hc)).
  rewrite forallb_forall in Hall.
  exact (Hall b (all_bytes_In b Hb)).
Qed.

Lemma to_u8_range (z : Z) : is_u8 (to_u8 z).
Proof. unfold is_u8, to_u8. apply Z.mod_pos_bound. lia. Qed.

Lemma crc_byte_range (c b : Z) : is_u8 (Crc.crc_byte c b).
Proof. unfold Crc.crc_byte. apply to_u8_range. Qed.

Lemma crc_byte_is_ref (c b : Z) :
  is_u8 c -> is_u8 b -> Crc.crc_byte c b = Crc.crc8_ref_byte c b.
Proof.
  intros Hc Hb. apply Z.eqb_eq.
  revert c b Hc Hb.
  apply (forall_byte_pairs
           (fun c b => Crc.crc_byte c b =? Crc.crc8_ref_byte c b)).
  vm_compute. reflexivity.
Qed.

Lemma crc_byte_is_words (c b : Z) :
  is_u8 c -> is_u8 b -> Crc.crc_byte c b = Crc.crc_byte_words c b.
Proof.
  intros Hc Hb. apply Z.eqb_eq.
  revert c b Hc Hb.
  apply (forall_byte_pairs
           (fun c b => Crc.crc_byte c b =? Crc.crc_byte_words c b)).
  vm_compute. reflexivity.
Qed.

Lemma crc_is_ref (buf : list Z) :
  Forall is_u8 buf ->
  forall c, is_u8 c -> Crc.crc buf c = Crc.crc8_ref buf c.
Proof.
  induction 1 as [| b rest Hb _ IH]; intros c Hc.
  - reflexivity.
  - simpl. unfold Crc.crc8_ref in *. simpl.
    rewrite <- (crc_byte_is_ref c b Hc Hb).
    apply IH. apply crc_byte_range.
Qed.

Lemma crc_is_words (buf : list Z) :
  Forall is_u8 buf ->
  forall c, is_u8 c -> Crc.crc buf c = Crc.crc_words buf c.
Proof.
  induction 1 as [| b rest Hb _ IH]; intros c Hc.
  - reflexivity.
  - simpl. unfold Crc.crc_words in *. simpl.
    rewrite <- (crc_byte_is_words c b Hc Hb).
    apply IH. apply crc_byte_range.
Qed.

Lemma crc_range (buf : list Z) (c : Z) : is_u8 c -> is_u8 (Crc.crc buf c).
Proof.
  revert c. induction buf as [| b rest IH]; intros c Hc; simpl.
  - exact Hc.
  - apply IH, crc_byte_range.
Qed.

Lemma In_all_bytes (z : Z) : In z all_bytes -> is_u8 z.
Proof.
  unfold all_bytes. intros H. apply in_map_iff in H.
  destruct H as [n [Hn Hin]]. apply in_seq in Hin.
  unfold is_u8. lia.
Qed.

Lemma flat_map_map_ext (f g : Z -> Z -> Z) (bs cs : list Z) :
  (forall c b, In c cs -> In b bs -> f c b = g c b) ->
  flat_map (fun c => map (f c) bs) cs = flat_map (fun c => map (g c) bs) cs.
Proof.
  induction cs as [| c cs IH]; intros Hfg.
  - reflexivity.
  - cbn [flat_map]. f_equal.
    + apply map_ext_in. intros b Hb. apply Hfg; [left; reflexivity | exact Hb].
    + apply IH. intros c' b Hc' Hb. apply Hfg; [right; exact Hc' | exact Hb].
Qed.

Lemma tabulate_ext (f g : Z -> Z -> Z) :
  (forall c b, is_u8 c -> is_u8 b -> f c b = g c b) ->
  Crc.tabulate f = Crc.tabulate g.
Proof.
  intros Hfg. unfold Crc.tabulate.
  apply flat_map_map_ext. intros c b Hc Hb.
  apply Hfg; apply In_all_bytes; assumption.
Qed.

(** The example of the sensor's data sheet: the checksum of 0xBEEF is
    0x92. *)
Example crc_beef : Crc.crc [0xBE; 0xEF] Crc.crc_init = 0x92.
Proof. reflexivity. Qed.

Example crc8_ref_beef : Crc.crc8_ref [0xBE; 0xEF] 0xFF = 0x92.
Proof. reflexivity. Qed.


Example good_response_checksums :
  Crc.crc [0x66; 0x66] Crc.crc_init = 0x93 /\
  Crc.crc [0x40; 0x00] Crc.crc_init = 0x08.
Proof. split; reflexivity. Qed.

(** C1: the checksum function [crc] of the driver, started from 0xFF or
    from any other 8-bit state, computes the reference CRC-8 with
    polynomial 0x31 on every sequence of bytes; it is the nibble-wise
    computation the specification describes (high nibble of byte XOR
    running CRC through the 16-entry table, XORed against the running CRC
    shifted left by four, then the low nibble of the same byte against the
    updated CRC); and for all 256 byte values and all 256 CRC states its
    step is the entry of the tabulated reference, so that two-byte groups
    agree with the reference from every state. *)
Theorem crc_matches_reference_crc8 :
  forall buf c,
    Forall is_u8 buf -> is_u8 c ->
    (Crc.crc_init = 0xFF /\
     Crc.crc buf Crc.crc_init = Crc.crc8_ref buf 0xFF) /\
    Crc.crc buf c = Crc.crc8_ref buf c /\
    Crc.crc buf c = Crc.crc_words buf c /\
    Crc.tabulate (fun c b => Crc.crc [b] c) = Crc.crc8_ref_table /\
    (forall b1 b2, is_u8 b1 -> is_u8 b2 ->
       Crc.crc [b1; b2] c = Crc.crc8_ref [b1; b2] c).
Proof.
  intros buf c Hbuf Hc.
  assert (Hff : is_u8 0xFF) by (unfold is_u8; lia).
  split; [split | split; [| split; [| split]]].
  - reflexivity.
  - exact (crc_is_ref buf Hbuf _ Hff).
  - exact (crc_is_ref buf Hbuf _ Hc).
  - exact (crc_is_words buf Hbuf _ Hc).
  - apply tabulate_ext. intros c' b Hc' Hb.
    exact (crc_byte_is_ref c' b Hc' Hb).
  - intros b1 b2 H1 H2.
    apply crc_is_ref; [| exact Hc].
    constructor; [exact H1 | constructor; [exact H2 | constructor]].
Qed.

Lemma crc_matches_reference_crc8_witness :
  Crc.crc [0xBE; 0xEF] 0xFF = Crc.crc8_ref [0xBE; 0xEF] 0xFF.
Proof.
  assert (Hbuf : Forall is_u8 [0xBE; 0xEF])
    by (repeat constructor; unfold is_u8; lia).
  assert (Hc : is_u8 0xFF) by (unfold is_u8; lia).
  exact (proj1 (proj2 (crc_matches_reference_crc8 [0xBE; 0xEF] 0xFF Hbuf Hc))).
Defined.

(* ------------------------------------------------------------------ *)
(** * Running computations *)
(* ------------------------------------------------------------------ *)

Lemma bind_run {W A B} (m : M W A) (k : A -> M W B) (w w' : World W) (a : A) :
  m w = Some (a, w') -> bind m k w = k a w'.
Proof. intros H. unfold bind. rewrite H. reflexivity. Qed.

Lemma bind_undefined {W A B} (m : M W A) (k : A -> M W B) (w : World W) :
  m w = None -> bind m k w = None.
Proof. intros H. unfold bind. rewrite H. reflexivity. Qed.

Lemma bind_Some {W A B} (m : M W A) (k : A -> M W B) (w : World W)
      (r : B * World W) :
  bind m k w = Some r ->
  exists a w', m w = Some (a, w') /\ k a w' = Some r.
Proof.
  unfold bind. destruct (m w) as [[a w'] |]; intros H.
  - exists a, w'. split; [reflexivity | exact H].
  - discriminate H.
Qed.

(* ------------------------------------------------------------------ *)
(** * Executions without bus traffic *)
(* ------------------------------------------------------------------ *)

Section Quiet.
Context {W : Type}.

Lemma no_io_refl (w : World W) : no_io w w.
Proof.
  split; [reflexivity |].
  exists []. split; [symmetry; apply app_nil_r | reflexivity].
Qed.

Lemma no_io_trans (w1 w2 w3 : World W) :
  no_io w1 w2 -> no_io w2 w3 -> no_io w1 w3.
Proof.
  intros [Hw12 [o12 [Ht12 Hs12]]] [Hw23 [o23 [Ht23 Hs23]]].
  split; [congruence |].
  exists (o12 ++ o23). split.
  - rewrite Ht23, Ht12. symmetry. apply app_assoc.
  - rewrite forallb_app, Hs12, Hs23. reflexivity.
Qed.

Lemma no_io_log (e : Event) (w : World W) :
  is_serial e = true -> no_io w (log e w).
Proof.
  intros He. split; [reflexivity |].
  exists [e]. split; [reflexivity |]. simpl. rewrite He. reflexivity.
Qed.

Lemma io_calls_app (t1 t2 : list Event) :
  io_calls (t1 ++ t2) = io_calls t1 ++ io_calls t2.
Proof. unfold io_calls. apply filter_app. Qed.

Lemma io_calls_serial (out : list Event) :
  forallb is_serial out = true -> io_calls out = [].
Proof.
  induction out as [| e out IH]; simpl; intros H.
  - reflexivity.
  - apply andb_true_iff in H. destruct H as [He Hout].
    rewrite He. simpl. apply IH, Hout.
Qed.

(** Without bus traffic the bus calls of the trace and the bytes written
    stay as they were. *)
Lemma no_io_calls (w w' : World W) :
  no_io w w' -> io_calls (trace w') = io_calls (trace w).
Proof.
  intros [_ [out [Ht Hs]]].
  rewrite Ht, io_calls_app, (io_calls_serial out Hs). apply app_nil_r.
Qed.

Lemma written_bytes_app (t1 t2 : list Event) :
  written_bytes (t1 ++ t2) = written_bytes t1 ++ written_bytes t2.
Proof. unfold written_bytes. apply flat_map_app. Qed.

Lemma written_bytes_serial (out : list Event) :
  forallb is_serial out = true -> written_bytes out = [].
Proof.
  induction out as [| e out IH]; simpl; intros H.
  - reflexivity.
  - apply andb_true_iff in H. destruct H as [He Hout].
    destruct e; try discriminate He; simpl; apply IH, Hout.
Qed.

Lemma no_io_written (w w' : World W) :
  no_io w w' -> written_bytes (trace w') = written_bytes (trace w).
Proof.
  intros [_ [out [Ht Hs]]].
  rewrite Ht, written_bytes_app, (written_bytes_serial out Hs).
  apply app_nil_r.
Qed.

End Quiet.

(* ------------------------------------------------------------------ *)
(** * The transport helpers *)
(* ------------------------------------------------------------------ *)

Section Transport.
Context {W : Type} {bus : TwoWire W} {decls : Sht3xDecls}.
Variable dev : cSHT_3x.

(** A debug message changes nothing but the console. *)
Lemma debug_println_no_io (s : string) (k : bool) (w : World W) :
  exists w', when k (Serial_println (Text s)) w = Some (tt, w') /\ no_io w w'.
Proof.
  destruct k; simpl.
  - eexists. split; [reflexivity |]. apply no_io_log. reflexivity.
  - eexists. split; [reflexivity |]. apply no_io_refl.
Qed.

Lemma writeCommand_bad_address (c : Command) (w : World W) :
  getAddress dev < 0 ->
  exists w', writeCommand dev c w = Some (false, w') /\ no_io w w'.
Proof.
  intros Haddr. unfold writeCommand.
  apply Z.ltb_lt in Haddr. rewrite Haddr.
  unfold bind.
  destruct (debug_println_no_io "writeCommand: bad address" (isDebug dev) w)
    as [w' [Hrun Hq]].
  rewrite Hrun. exists w'. split; [reflexivity | exact Hq].
Qed.

Lemma readResponse_invalid_parameter
      (buf : option (list Z)) (nBuf : Z) (w : World W) :
  buf = None \/ nBuf > 32 \/ getAddress dev < 0 ->
  exists w', readResponse dev buf nBuf w = Some ((false, buf), w') /\
             no_io w w'.
Proof.
  intros Hbad. unfold readResponse.
  destruct (debug_println_no_io "readResponse: invalid parameter"
                                (isDebug dev) w) as [w' [Hrun Hq]].
  assert (Hgoal : exists w'0,
             bind (when (isDebug dev)
                        (Serial_println
                           (Text "readResponse: invalid parameter")))
                  (fun _ => ret (false, buf)) w = Some ((false, buf), w'0) /\
             no_io w w'0).
  { unfold bind. rewrite Hrun. exists w'. split; [reflexivity | exact Hq]. }
  destruct buf as [arr |]; [| exact Hgoal].
  destruct Hbad as [Hnull | [Hlen | Haddr]].
  - discriminate Hnull.
  - assert (H : (nBuf >? 32) = true) by (apply Z.gtb_lt; lia).
    rewrite H. simpl. exact Hgoal.
  - apply Z.ltb_lt in Haddr. rewrite Haddr, orb_true_r. exact Hgoal.
Qed.

End Transport.

(** C9: the two bus helpers check their parameters before they touch the
    bus.  [readResponse] with a null buffer, a length above 32 or a
    negative device address, and [writeCommand] with a negative device
    address, return [false]; the bus state is the one before the call and
    the trace gained console output at most (no [requestFrom], no
    [beginTransmission], no other bus call); the buffer is left alone. *)
Theorem bus_helpers_validate_before_io :
  forall {W : Type} {bus : TwoWire W} (dev : cSHT_3x) (w : World W),
    (forall buf nBuf,
        buf = None \/ nBuf > 32 \/ getAddress dev < 0 ->
        exists w',
          readResponse dev buf nBuf w = Some ((false, buf), w') /\
          no_io w w' /\
          io_calls (trace w') = io_calls (trace w)) /\
    (forall c,
        getAddress dev < 0 ->
        exists w',
          writeCommand dev c w = Some (false, w') /\
          no_io w w' /\
          io_calls (trace w') = io_calls (trace w)).
Proof.
  intros W bus dev w. split.
  - intros buf nBuf Hbad.
    destruct (readResponse_invalid_parameter dev buf nBuf w Hbad)
      as [w' [Hrun Hq]].
    exists w'. split; [exact Hrun | split; [exact Hq |]].
    apply no_io_calls, Hq.
  - intros c Haddr.
    destruct (writeCommand_bad_address dev c w Haddr) as [w' [Hrun Hq]].
    exists w'. split; [exact Hrun | split; [exact Hq |]].
    apply no_io_calls, Hq.
Qed.

Lemma bus_helpers_validate_before_io_witness :
  (exists w',
      readResponse SimDecls.sensor (Some [0; 0; 0]) 33
                   (Sim.start [] [[1; 2; 3]])
      = Some ((false, Some [0; 0; 0]), w') /\
      no_io (Sim.start [] [[1; 2; 3]]) w' /\
      io_calls (trace w') = io_calls (trace (Sim.start [] [[1; 2; 3]]))) /\
  (exists w',
      writeCommand SimDecls.sensor_bad_address 0x30A2 (Sim.start [] [])
      = Some (false, w') /\
      no_io (Sim.start [] []) w' /\
      io_calls (trace w') = io_calls (trace (Sim.start [] []))).
Proof.
  split.
  - apply (proj1 (bus_helpers_validate_before_io
                    SimDecls.sensor (Sim.start [] [[1; 2; 3]]))).
    right. left. lia.
  - apply (proj2 (bus_helpers_validate_before_io
                    SimDecls.sensor_bad_address (Sim.start [] []))).
    simpl. lia.
Defined.

(* ------------------------------------------------------------------ *)
(** * Command frames on the bus *)
(* ------------------------------------------------------------------ *)

Section Frames.
Context {W : Type} {bus : TwoWire W}.
Variable dev : cSHT_3x.

(** [writeCommand] always returns. *)
Lemma writeCommand_defined (c : Command) (w : World W) :
  exists ok w', writeCommand dev c w = Some (ok, w').
Proof.
  unfold writeCommand.
  destruct (getAddress dev <? 0);
    cbv [bind ret when wire_beginTransmission wire_write
         wire_endTransmission Serial_print Serial_println].
  - destruct (isDebug dev); eexists; eexists; reflexivity.
  - cbn [wire trace].
    destruct (tw_endTransmission _) as [r b'].
    destruct (to_u8 r =? 0); cbn [negb].
    + eexists; eexists; reflexivity.
    + destruct (isDebug dev); eexists; eexists; reflexivity.
Qed.

(** A successful [writeCommand] put exactly the two bytes of the opcode on
    the bus, high byte first, to a non-negative address. *)
Lemma writeCommand_true (c : Command) (w w' : World W) :
  writeCommand dev c w = Some (true, w') ->
  0 <= getAddress dev /\
  written_bytes (trace w') = written_bytes (trace w) ++ frame c /\
  exists r b',
    tw_endTransmission
      (tw_write (to_u8 (Z.land (to_u16 c) 0xFF))
         (tw_write (to_u8 (Z.shiftr (to_u16 c) 8))
            (tw_beginTransmission (getAddress dev) (wire w)))) = (r, b') /\
    to_u8 r = 0 /\
    w' = mkWorld b'
           (trace w ++ [EvBeginTransmission (getAddress dev);
                        EvWrite (to_u8 (Z.shiftr (to_u16 c) 8));
                        EvWrite (to_u8 (Z.land (to_u16 c) 0xFF));
                        EvEndTransmission r]).
Proof.
  unfold writeCommand.
  destruct (getAddress dev <? 0) eqn:Haddr;
    cbv [bind ret when wire_beginTransmission wire_write
         wire_endTransmission Serial_print Serial_println].
  - destruct (isDebug dev); intros H; inversion H.
  - cbn [wire trace].
    destruct (tw_endTransmission _) as [r b'] eqn:Hend.
    destruct (to_u8 r =? 0) eqn:Hr; cbn [negb].
    + intros H. inversion H; subst w'; clear H. cbn [trace].
      apply Z.ltb_ge in Haddr. apply Z.eqb_eq in Hr.
      split; [exact Haddr | split].
      * rewrite !written_bytes_app. cbn. rewrite !app_nil_r, <- !app_assoc.
        reflexivity.
      * exists r, b'. split; [reflexivity | split; [exact Hr |]].
        rewrite <- !app_assoc. reflexivity.
    + destruct (isDebug dev); intros H; inversion H.
Qed.

Lemma io_calls_snoc_io (tr : list Event) (e : Event) :
  is_serial e = false -> io_calls (tr ++ [e]) = io_calls tr ++ [e].
Proof.
  intros He. rewrite io_calls_app. cbn. rewrite He. reflexivity.
Qed.

(** [writeCommand] to a non-negative address, in full. *)
Lemma writeCommand_run (c : Command) (w : World W) (r : Z) (b' : W) :
  0 <= getAddress dev ->
  tw_endTransmission
    (tw_write (to_u8 (Z.land (to_u16 c) 0xFF))
       (tw_write (to_u8 (Z.shiftr (to_u16 c) 8))
          (tw_beginTransmission (getAddress dev) (wire w)))) = (r, b') ->
  exists w',
    writeCommand dev c w = Some (to_u8 r =? 0, w') /\
    wire w' = b' /\
    io_calls (trace w') = io_calls (trace w) ++ write_events dev c r /\
    written_bytes (trace w') = written_bytes (trace w) ++ frame c.
Proof.
  intros Haddr Hend. unfold writeCommand.
  assert (Hlt : (getAddress dev <? 0) = false) by (apply Z.ltb_ge; exact Haddr).
  rewrite Hlt.
  cbv [bind ret when wire_beginTransmission wire_write wire_endTransmission
       Serial_print Serial_println log].
  cbn [wire trace]. rewrite Hend.
  destruct (to_u8 r =? 0); cbn [negb]; [| destruct (isDebug dev)];
    (eexists; split; [reflexivity |]); cbn [wire trace];
    (split; [reflexivity |]);
    (split;
     [ rewrite !io_calls_app; cbn; rewrite ?app_nil_r, <- ?app_assoc;
       reflexivity
     | rewrite !written_bytes_app; cbn; rewrite ?app_nil_r, <- ?app_assoc;
       reflexivity ]).
Qed.

End Frames.

(* ------------------------------------------------------------------ *)
(** * Periodic measurement: arming *)
(* ------------------------------------------------------------------ *)

(** C4: [startPeriodicMeasurement] first computes the interval in
    milliseconds of the command's periodicity.  If the interval is 0 it
    returns 0 and the world is the one before the call: nothing was
    written.  Otherwise it puts the Break frame on the bus in one
    transaction.  If that transaction ends with a non-zero status the
    result is 0 and the bus has seen the Break frame only.  If it ends
    with status 0, a second transaction carries the frame of the command,
    so that the bytes written are the Break frame followed by the
    command's frame, and the result is the interval if the second status
    is 0 and 0 if it is not.  Nothing else reaches the bus, and the bus is
    left in the state the last transaction left.  With a negative address
    the first write is refused: the result is 0 and nothing reaches the
    bus. *)
Theorem startPeriodicMeasurement_contract :
  forall {W : Type} {bus : TwoWire W} {decls : Sht3xDecls}
         (dev : cSHT_3x) (c : Command) (w : World W),
    let ms := to_u32 (PeriodicityToMillis (getPeriodicity c)) in
    (ms = 0 -> startPeriodicMeasurement dev c w = Some (0, w)) /\
    (ms <> 0 -> getAddress dev < 0 ->
     exists w',
       writeCommand dev Command_Break w = Some (false, w') /\
       startPeriodicMeasurement dev c w = Some (0, w') /\
       no_io w w') /\
    (ms <> 0 -> 0 <= getAddress dev ->
     exists s1 w1,
       transaction dev Command_Break (wire w) = (s1, wire w1) /\
       writeCommand dev Command_Break w = Some (to_u8 s1 =? 0, w1) /\
       io_calls (trace w1)
       = io_calls (trace w) ++ write_events dev Command_Break s1 /\
       written_bytes (trace w1)
       = written_bytes (trace w) ++ frame Command_Break /\
       (to_u8 s1 <> 0 -> startPeriodicMeasurement dev c w = Some (0, w1)) /\
       (to_u8 s1 = 0 ->
        exists s2 w2,
          transaction dev c (wire w1) = (s2, wire w2) /\
          writeCommand dev c w1 = Some (to_u8 s2 =? 0, w2) /\
          io_calls (trace w2)
          = io_calls (trace w) ++ write_events dev Command_Break s1
                               ++ write_events dev c s2 /\
          written_bytes (trace w2)
          = written_bytes (trace w) ++ frame Command_Break ++ frame c /\
          startPeriodicMeasurement dev c w
          = Some ((if to_u8 s2 =? 0 then ms else 0), w2))).
Proof.
  intros W bus decls dev c w ms.
  split; [| split].
  - intros Hms. unfold startPeriodicMeasurement. fold ms.
    rewrite Hms. reflexivity.
  - intros Hms Haddr. unfold startPeriodicMeasurement. fold ms.
    apply Z.eqb_neq in Hms. rewrite Hms.
    destruct (writeCommand_bad_address dev Command_Break w Haddr)
      as [w' [Hrun Hq]].
    exists w'. rewrite (bind_run _ _ _ _ _ Hrun).
    split; [exact Hrun | split; [reflexivity | exact Hq]].
  - intros Hms Haddr. unfold startPeriodicMeasurement. fold ms.
    apply Z.eqb_neq in Hms. rewrite Hms.
    destruct (transaction dev Command_Break (wire w)) as [s1 b1] eqn:Hend1.
    destruct (writeCommand_run dev Command_Break w s1 b1 Haddr Hend1)
      as [w1 [Hrun1 [Hw1 [Hio1 Hwr1]]]].
    exists s1, w1. rewrite (bind_run _ _ _ _ _ Hrun1).
    split; [rewrite Hw1; reflexivity |].
    split; [exact Hrun1 |].
    split; [exact Hio1 |].
    split; [exact Hwr1 |].
    split.
    + intros Hs1. apply Z.eqb_neq in Hs1. rewrite Hs1. reflexivity.
    + intros Hs1. apply Z.eqb_eq in Hs1. rewrite Hs1. cbn [negb].
      destruct (transaction dev c (wire w1)) as [s2 b2] eqn:Hend2.
      destruct (writeCommand_run dev c w1 s2 b2 Haddr Hend2)
        as [w2 [Hrun2 [Hw2 [Hio2 Hwr2]]]].
      exists s2, w2. rewrite (bind_run _ _ _ _ _ Hrun2).
      split; [rewrite Hw2; reflexivity |].
      split; [exact Hrun2 |].
      split; [rewrite Hio2, Hio1, <- app_assoc; reflexivity |].
      split; [rewrite Hwr2, Hwr1, <- app_assoc; reflexivity |].
      destruct (to_u8 s2 =? 0); reflexivity.
Qed.

Lemma startPeriodicMeasurement_contract_witness :
  startPeriodicMeasurement (decls := SimDecls.decls) SimDecls.sensor 0x2400
                           (Sim.start [] [])
  = Some (0, Sim.start [] []) /\
  (exists w',
      writeCommand SimDecls.sensor_bad_address 0x3093 (Sim.start [] [])
      = Some (false, w') /\
      startPeriodicMeasurement (decls := SimDecls.decls)
                               SimDecls.sensor_bad_address 0x2130
                               (Sim.start [] [])
      = Some (0, w') /\
      no_io (Sim.start [] []) w') /\
  exists s1 w1,
    transaction SimDecls.sensor 0x3093 (wire (Sim.start [] []))
    = (s1, wire w1) /\
    writeCommand SimDecls.sensor 0x3093 (Sim.start [] [])
    = Some (to_u8 s1 =? 0, w1) /\
    io_calls (trace w1)
    = io_calls (trace (Sim.start [] []))
        ++ write_events SimDecls.sensor 0x3093 s1 /\
    written_bytes (trace w1)
    = written_bytes (trace (Sim.start [] [])) ++ frame 0x3093 /\
    (to_u8 s1 <> 0 ->
     startPeriodicMeasurement (decls := SimDecls.decls) SimDecls.sensor
                              0x2130 (Sim.start [] [])
     = Some (0, w1)) /\
    (to_u8 s1 = 0 ->
     exists s2 w2,
       transaction SimDecls.sensor 0x2130 (wire w1) = (s2, wire w2) /\
       writeCommand SimDecls.sensor 0x2130 w1
       = Some (to_u8 s2 =? 0, w2) /\
       io_calls (trace w2)
       = io_calls (trace (Sim.start [] []))
           ++ write_events SimDecls.sensor 0x3093 s1
           ++ write_events SimDecls.sensor 0x2130 s2 /\
       written_bytes (trace w2)
       = written_bytes (trace (Sim.start [] []))
           ++ frame 0x3093 ++ frame 0x2130 /\
       startPeriodicMeasurement (decls := SimDecls.decls) SimDecls.sensor
                                0x2130 (Sim.start [] [])
       = Some ((if to_u8 s2 =? 0 then 1000 else 0), w2)).
Proof.
  split; [| split].
  - apply (proj1 (startPeriodicMeasurement_contract
                    (decls := SimDecls.decls) SimDecls.sensor 0x2400
                    (Sim.start [] []))).
    reflexivity.
  - apply (proj1 (proj2 (startPeriodicMeasurement_contract
                           (decls := SimDecls.decls)
                           SimDecls.sensor_bad_address 0x2130
                           (Sim.start [] [])))).
    + vm_compute. discriminate.
    + simpl. lia.
  - apply (proj2 (proj2 (startPeriodicMeasurement_contract
                           (decls := SimDecls.decls) SimDecls.sensor 0x2130
                           (Sim.start [] [])))).
    + vm_compute. discriminate.
    + simpl. lia.
Defined.

Example startPeriodicMeasurement_one_hertz :
  option_map (fun r => (fst r, written_bytes (trace (snd r))))
    (startPeriodicMeasurement (decls := SimDecls.decls) SimDecls.sensor
                              0x2130 (Sim.start [] []))
  = Some (1000, [0x30; 0x93; 0x21; 0x30]).
Proof. reflexivity. Qed.

Example startPeriodicMeasurement_break_nacked :
  option_map (fun r => (fst r, written_bytes (trace (snd r))))
    (startPeriodicMeasurement (decls := SimDecls.decls) SimDecls.sensor
                              0x2130 (Sim.start [2] []))
  = Some (0, [0x30; 0x93]).
Proof. reflexivity. Qed.

(* ------------------------------------------------------------------ *)
(** * Debug output *)
(* ------------------------------------------------------------------ *)

Section Console.
Context {W : Type}.

Lemma console_print (a : SerialArg) :
  console_only (W := W) (Serial_print a).
Proof.
  intros w. eexists. split; [reflexivity |]. apply no_io_log. reflexivity.
Qed.

Lemma console_println (a : SerialArg) :
  console_only (W := W) (Serial_println a).
Proof.
  intros w. eexists. split; [reflexivity |]. apply no_io_log. reflexivity.
Qed.

Lemma console_seq (m1 m2 : M W unit) :
  console_only m1 -> console_only m2 ->
  console_only (bind m1 (fun _ => m2)).
Proof.
  intros H1 H2 w.
  destruct (H1 w) as [w1 [Hr1 Hq1]].
  destruct (H2 w1) as [w2 [Hr2 Hq2]].
  exists w2. split.
  - rewrite (bind_run _ _ _ _ _ Hr1). exact Hr2.
  - eapply no_io_trans; eassumption.
Qed.

Lemma console_when (k : bool) (m : M W unit) :
  console_only m -> console_only (when k m).
Proof.
  intros Hm w. destruct k; simpl.
  - apply Hm.
  - exists w. split; [reflexivity | apply no_io_refl].
Qed.

End Console.

Create HintDb console.
#[export] Hint Resolve console_print console_println console_seq console_when
  : console.

(* ------------------------------------------------------------------ *)
(** * Reading a response *)
(* ------------------------------------------------------------------ *)

Lemma store_defined (buf : list Z) (i : nat) (v : Z) :
  (i < List.length buf)%nat ->
  exists buf', store buf i v = Some buf' /\
               List.length buf' = List.length buf.
Proof.
  intros Hi. unfold store.
  apply Nat.ltb_lt in Hi. rewrite Hi.
  eexists. split; [reflexivity |].
  apply Nat.ltb_lt in Hi.
  rewrite length_app. cbn [List.length].
  rewrite length_firstn, length_skipn. lia.
Qed.

Section Reading.
Context {W : Type} {bus : TwoWire W}.
Variable dev : cSHT_3x.

(** The read loop stays inside the buffer when the count fits; the wire
    of the world is then the only thing that changes besides the trace. *)
Lemma read_loop_defined (n : nat) :
  forall (i : nat) (buf : list Z) (w : World W),
    (i + n <= List.length buf)%nat ->
    exists buf' w',
      read_loop n i buf w = Some (buf', w') /\
      List.length buf' = List.length buf.
Proof.
  induction n as [| n IH]; intros i buf w Hfit.
  - exists buf, w. split; reflexivity.
  - cbn [read_loop]. unfold bind, wire_read.
    destruct (tw_read (wire w)) as [v b'].
    destruct (store_defined buf i (to_u8 v)) as [buf1 [Hst Hlen]]; [lia |].
    rewrite Hst.
    destruct (IH (S i) buf1 (mkWorld b' (trace w ++ [EvRead v])))
      as [buf' [w' [Hrun Hlen']]]; [lia |].
    exists buf', w'. split; [exact Hrun | congruence].
Qed.

(** On a bus that keeps its contract, [readResponse] into an array of at
    least [nBuf] bytes returns, and hands back an array of the same
    length. *)
Lemma readResponse_defined (arr : list Z) (nBuf : Z) (w : World W) :
  BusContract bus ->
  0 <= nBuf <= Z.of_nat (List.length arr) ->
  exists ok arr' w',
    readResponse dev (Some arr) nBuf w = Some ((ok, Some arr'), w') /\
    List.length arr' = List.length arr.
Proof.
  intros Hbus Hn. unfold readResponse.
  destruct ((nBuf >? 32) || (getAddress dev <? 0)) eqn:Hbad.
  - assert (Hc : console_only (W := W)
                   (when (isDebug dev)
                      (Serial_println
                         (Text "readResponse: invalid parameter"))))
      by auto with console.
    destruct (Hc w) as [w' [Hrun _]].
    rewrite (bind_run _ _ _ _ _ Hrun).
    exists false, arr, w'. split; reflexivity.
  - apply orb_false_iff in Hbad. destruct Hbad as [Hlen _].
    assert (Hle : nBuf <= 32).
    { destruct (Z.gtb_spec nBuf 32); [discriminate | lia]. }
    assert (Hu8 : to_u8 nBuf = nBuf)
      by (unfold to_u8; apply Z.mod_small; lia).
    unfold bind at 1. unfold wire_requestFrom.
    destruct (tw_requestFrom (to_u8 (getAddress dev)) (to_u8 nBuf) (wire w))
      as [r b1] eqn:Hreq.
    match goal with
    | |- context [bind (when ?k ?m) _ ?w0] =>
        assert (Hc : console_only (W := W) (when k m))
          by auto 10 with console;
        destruct (Hc w0) as [w1 [Hrun1 [Hw1 _]]];
        rewrite (bind_run _ _ _ _ _ Hrun1)
    end.
    cbn [wire] in Hw1.
    unfold bind at 1. unfold wire_available. rewrite Hw1.
    destruct (tw_available b1) as [a b2] eqn:Hav.
    assert (Ha : 0 <= a <= nBuf).
    { pose proof (Hbus (to_u8 (getAddress dev)) (to_u8 nBuf) (wire w)) as Hk.
      rewrite Hreq in Hk. cbn [snd] in Hk. rewrite Hav in Hk.
      cbn [fst] in Hk. rewrite Hu8 in Hk. apply Hk. lia. }
    assert (Hu32 : to_u32 a = a)
      by (unfold to_u32; apply Z.mod_small; lia).
    rewrite Hu32.
    destruct (read_loop_defined (Z.to_nat a) 0 arr
                (mkWorld b2 (trace w1 ++ [EvAvailable a])))
      as [arr' [w2 [Hloop Hlen']]]; [lia |].
    rewrite (bind_run _ _ _ _ _ Hloop).
    match goal with
    | |- context [bind (when ?k ?m) _ ?w0] =>
        assert (Hc' : console_only (W := W) (when k m))
          by auto 10 with console;
        destruct (Hc' w0) as [w3 [Hrun3 _]];
        rewrite (bind_run _ _ _ _ _ Hrun3)
    end.
    exists (a =? nBuf), arr', w3. split; [reflexivity | exact Hlen'].
Qed.

(** Whatever it does, [readResponse] on an array hands back an array. *)
Lemma readResponse_array (arr : list Z) (nBuf : Z) (w w' : World W)
      (ok : bool) (b : option (list Z)) :
  readResponse dev (Some arr) nBuf w = Some ((ok, b), w') ->
  exists arr', b = Some arr'.
Proof.
  unfold readResponse.
  destruct ((nBuf >? 32) || (getAddress dev <? 0)).
  - intros H. apply bind_Some in H. destruct H as [_ [w1 [_ H]]].
    inversion H. exists arr. reflexivity.
  - intros H.
    apply bind_Some in H. destruct H as [r [w1 [_ H]]].
    apply bind_Some in H. destruct H as [_ [w2 [_ H]]].
    apply bind_Some in H. destruct H as [a [w3 [_ H]]].
    apply bind_Some in H. destruct H as [arr' [w4 [_ H]]].
    apply bind_Some in H. destruct H as [_ [w5 [_ H]]].
    inversion H. exists arr'. reflexivity.
Qed.

(** The read loop leaves bytes behind: whatever the array held, the
    positions it has gone through hold values of [0, 256). *)
Lemma read_loop_bytes (n : nat) :
  forall (i : nat) (buf buf' : list Z) (w w' : World W),
    Forall is_u8 (firstn i buf) ->
    read_loop n i buf w = Some (buf', w') ->
    Forall is_u8 (firstn (i + n) buf') /\
    List.length buf' = List.length buf.
Proof.
  induction n as [| n IH]; intros i buf buf' w w' Hpre Hrun.
  - cbn in Hrun. inversion Hrun; subst buf' w'.
    rewrite Nat.add_0_r. split; [exact Hpre | reflexivity].
  - cbn [read_loop] in Hrun.
    apply bind_Some in Hrun. destruct Hrun as [v [w1 [_ Hrun]]].
    unfold store in Hrun.
    destruct (i <? List.length buf)%nat eqn:Hi; [| discriminate Hrun].
    apply Nat.ltb_lt in Hi.
    apply IH in Hrun.
    + destruct Hrun as [Hall Hlen].
      replace (i + S n)%nat with (S i + n)%nat by lia.
      split; [exact Hall |].
      rewrite Hlen, length_app. cbn [List.length].
      rewrite length_firstn, length_skipn. lia.
    + rewrite firstn_app, length_firstn.
      replace (S i - Nat.min i (List.length buf))%nat with 1%nat by lia.
      rewrite firstn_firstn.
      replace (Nat.min (S i) i) with i by lia.
      apply Forall_app. split; [exact Hpre |].
      cbn. constructor; [apply to_u8_range | constructor].
Qed.

(** A successful [readResponse] into an array of exactly [nBuf] bytes
    overwrote all of it with bytes from the bus. *)
Lemma readResponse_true_bytes (arr arr' : list Z) (nBuf : Z)
      (w w' : World W) :
  Z.of_nat (List.length arr) = nBuf ->
  readResponse dev (Some arr) nBuf w = Some ((true, Some arr'), w') ->
  Forall is_u8 arr' /\ List.length arr' = List.length arr.
Proof.
  intros Hlen. unfold readResponse.
  destruct ((nBuf >? 32) || (getAddress dev <? 0)).
  - intros H. apply bind_Some in H. destruct H as [_ [w1 [_ H]]].
    inversion H.
  - intros H.
    apply bind_Some in H. destruct H as [r [w1 [_ H]]].
    apply bind_Some in H. destruct H as [_ [w2 [_ H]]].
    apply bind_Some in H. destruct H as [a [w3 [_ H]]].
    apply bind_Some in H. destruct H as [arr1 [w4 [Hloop H]]].
    apply bind_Some in H. destruct H as [_ [w5 [_ H]]].
    inversion H as [[Hok Harr Hw]]. subst arr1.
    apply Z.eqb_eq in Hok.
    apply read_loop_bytes in Hloop; [| constructor].
    destruct Hloop as [Hall Hlen'].
    split; [| exact Hlen'].
    rewrite Hok, <- Hlen, Nat2Z.id, Nat.add_0_l, <- Hlen' in Hall.
    rewrite firstn_all in Hall. exact Hall.
Qed.

End Reading.

Lemma sim_bus_contract : BusContract Sim.SimWire.
Proof.
  intros addr n b Hn. cbn.
  unfold Sim.sim_requestFrom.
  destruct (Sim.sim_rsp b) as [| r rest]; cbn.
  - lia.
  - rewrite length_firstn. lia.
Qed.

(* ------------------------------------------------------------------ *)
(** * Decoding and validating a response *)
(* ------------------------------------------------------------------ *)

Lemma processResultsRaw_eq (dev : cSHT_3x) (buf : list Z) (t rh : Z) :
  processResultsRaw dev buf t rh
  = (m_noCrc dev || checksums_match buf,
     be16 (at_ buf 0) (at_ buf 1),
     be16 (at_ buf 3) (at_ buf 4)).
Proof.
  unfold processResultsRaw, checksums_match.
  destruct (m_noCrc dev); cbn [negb andb orb]; [reflexivity |].
  destruct (Crc.crc (firstn 2 buf) Crc.crc_init =? at_ buf 2);
    destruct (Crc.crc (firstn 2 (skipn 3 buf)) Crc.crc_init =? at_ buf 5);
    reflexivity.
Qed.

Lemma checksums_mismatch (buf : list Z) :
  Crc.crc (firstn 2 buf) Crc.crc_init <> at_ buf 2 \/
  Crc.crc (firstn 2 (skipn 3 buf)) Crc.crc_init <> at_ buf 5 ->
  checksums_match buf = false.
Proof.
  unfold checksums_match. intros [H | H]; apply Z.eqb_neq in H; rewrite H.
  - reflexivity.
  - apply andb_false_r.
Qed.

Section Status.
Context {W : Type} {bus : TwoWire W} {decls : Sht3xDecls}.
Variable dev : cSHT_3x.

Lemma getStatus_write_failed (ind : Indet) (w w1 : World W) :
  writeCommand dev Command_GetStatus w = Some (false, w1) ->
  getStatus dev ind w = Some (Status_invalid, w1).
Proof.
  intros Hw. unfold getStatus.
  rewrite (bind_run _ _ _ _ _ Hw). reflexivity.
Qed.

Lemma getStatus_after_read (ind : Indet) (w w1 w2 : World W)
      (okr : bool) (buf : list Z) :
  writeCommand dev Command_GetStatus w = Some (true, w1) ->
  readResponse dev (Some (local_buf ind 3)) 3 w1
  = Some ((okr, Some buf), w2) ->
  getStatus dev ind w = Some (status_of dev okr buf, w2).
Proof.
  intros Hw Hr. unfold getStatus.
  rewrite (bind_run _ _ _ _ _ Hw).
  cbv beta iota.
  rewrite (bind_run _ _ w1 w2 (okr, buf)).
  2:{ rewrite (bind_run _ _ _ _ _ Hr). reflexivity. }
  unfold status_of.
  destruct okr; cbn [andb]; [| reflexivity].
  destruct (m_noCrc dev); cbn [negb orb]; [reflexivity |].
  destruct (Crc.crc (firstn 2 buf) Crc.crc_init =? at_ buf 2); reflexivity.
Qed.

(** Every run of [getStatus] on a bus that keeps its contract. *)
Lemma getStatus_cases (ind : Indet) (w : World W) :
  BusContract bus ->
  (exists w1,
      writeCommand dev Command_GetStatus w = Some (false, w1) /\
      getStatus dev ind w = Some (Status_invalid, w1)) \/
  (exists w1 okr buf w2,
      writeCommand dev Command_GetStatus w = Some (true, w1) /\
      readResponse dev (Some (local_buf ind 3)) 3 w1
      = Some ((okr, Some buf), w2) /\
      getStatus dev ind w = Some (status_of dev okr buf, w2)).
Proof.
  intros Hbus.
  destruct (writeCommand_defined dev Command_GetStatus w) as [okw [w1 Hw]].
  destruct okw.
  - right.
    destruct (readResponse_defined dev (local_buf ind 3) 3 w1 Hbus)
      as [okr [buf [w2 [Hr _]]]].
    { unfold local_buf. rewrite length_map, length_seq. lia. }
    exists w1, okr, buf, w2.
    split; [exact Hw | split; [exact Hr |]].
    exact (getStatus_after_read ind w w1 w2 okr buf Hw Hr).
  - left. exists w1. split; [exact Hw |].
    exact (getStatus_write_failed ind w w1 Hw).
Qed.

End Status.

Lemma be16_value (hi lo : Z) :
  is_u8 hi -> is_u8 lo -> be16 hi lo = hi * 256 + lo.
Proof.
  intros [Hh0 Hh1] [Hl0 Hl1]. unfold be16, to_u16.
  assert (Hdisj : Z.land (Z.shiftl hi 8) lo = 0).
  { apply Z.bits_inj'. intros n Hn.
    rewrite Z.land_spec, Z.bits_0.
    destruct (Z_lt_ge_dec n 8) as [Hlt | Hge].
    - rewrite Z.shiftl_spec_low by exact Hlt. reflexivity.
    - replace (Z.testbit lo n) with false; [apply andb_false_r |].
      symmetry. apply Z.testbit_false; [exact Hn |].
      rewrite Z.div_small; [reflexivity |].
      split; [exact Hl0 |].
      apply Z.lt_le_trans with (2 ^ 8); [exact Hl1 |].
      apply Z.pow_le_mono_r; lia. }
  pose proof (Z.add_lor_land (Z.shiftl hi 8) lo) as Hadd.
  rewrite Hdisj, Z.add_0_r in Hadd. rewrite Hadd.
  rewrite Z.shiftl_mul_pow2 by lia.
  change (2 ^ 8) with 256.
  apply Z.mod_small. lia.
Qed.

Lemma at_u8 (buf : list Z) (i : nat) : Forall is_u8 buf -> is_u8 (at_ buf i).
Proof.
  intros Hall. unfold at_.
  destruct (Nat.lt_ge_cases i (List.length buf)) as [Hlt | Hge].
  - rewrite Forall_forall in Hall. apply Hall, nth_In, Hlt.
  - rewrite nth_overflow by exact Hge. unfold is_u8. lia.
Qed.

(** C5: on a bus that keeps its contract [getStatus] returns, and its
    result is a valid [Status_t] holding the big-endian word of the first
    two response bytes (first byte times 256 plus second byte) exactly
    when the GetStatus write succeeded, the 3-byte read succeeded and,
    unless the integrity check is skipped, the CRC of the first two bytes
    equals the third; in every other run the result is the invalid
    [Status_t], which differs from every valid one, the all-zero one
    included. *)
Theorem getStatus_valid_exactly_when :
  forall {W : Type} {bus : TwoWire W} {decls : Sht3xDecls}
         (dev : cSHT_3x) (ind : Indet) (w : World W),
    BusContract bus ->
    exists st w',
      getStatus dev ind w = Some (st, w') /\
      (forall bits,
          st = Status_valid bits <->
          exists w1 buf w2,
            writeCommand dev Command_GetStatus w = Some (true, w1) /\
            readResponse dev (Some (local_buf ind 3)) 3 w1
            = Some ((true, Some buf), w2) /\
            (m_noCrc dev = true \/
             Crc.crc (firstn 2 buf) Crc.crc_init = at_ buf 2) /\
            bits = be16 (at_ buf 0) (at_ buf 1) /\
            bits = at_ buf 0 * 256 + at_ buf 1) /\
      ((forall bits, st <> Status_valid bits) -> st = Status_invalid) /\
      (forall bits, Status_invalid <> Status_valid bits) /\
      Status_isValid Status_invalid = false /\
      Status_isValid (Status_valid 0) = true.
Proof.
  intros W bus decls dev ind w Hbus.
  destruct (getStatus_cases dev ind w Hbus)
    as [[w1 [Hw Hrun]] | [w1 [okr [buf [w2 [Hw [Hr Hrun]]]]]]].
  - exists Status_invalid, w1. split; [exact Hrun |].
    split; [| split; [| split; [| split]]].
    + intros bits. split.
      * intros H. discriminate H.
      * intros [w1' [buf' [w2' [Hw' _]]]]. rewrite Hw in Hw'.
        discriminate Hw'.
    + reflexivity.
    + intros bits H. discriminate H.
    + reflexivity.
    + reflexivity.
  - exists (status_of dev okr buf), w2. split; [exact Hrun |].
    split; [| split; [| split; [| split]]].
    + intros bits. unfold status_of. split.
      * intros Hst.
        destruct okr; cbn [andb] in Hst; [| discriminate Hst].
        exists w1, buf, w2. split; [exact Hw | split; [exact Hr |]].
        assert (Hbytes : Forall is_u8 buf).
        { apply (readResponse_true_bytes dev (local_buf ind 3) buf 3 w1 w2);
            [| exact Hr].
          unfold local_buf. rewrite length_map, length_seq. reflexivity. }
        assert (Hword : be16 (at_ buf 0) (at_ buf 1)
                        = at_ buf 0 * 256 + at_ buf 1)
          by (apply be16_value; apply at_u8; exact Hbytes).
        destruct (m_noCrc dev); cbn [orb] in Hst.
        -- inversion Hst.
           split; [left; reflexivity | split; [reflexivity | exact Hword]].
        -- destruct (Crc.crc (firstn 2 buf) Crc.crc_init =? at_ buf 2)
             eqn:Hcrc; [| discriminate Hst].
           inversion Hst.
           split; [| split; [reflexivity | exact Hword]].
           right. apply Z.eqb_eq, Hcrc.
      * intros [w1' [buf' [w2' [Hw' [Hr' [Hcrc [Hbits _]]]]]]].
        rewrite Hw in Hw'. inversion Hw'; subst w1'.
        rewrite Hr in Hr'. inversion Hr'; subst okr buf' w2'.
        cbn [andb].
        destruct Hcrc as [Hskip | Hcrc].
        -- rewrite Hskip. cbn [orb]. rewrite Hbits. reflexivity.
        -- apply Z.eqb_eq in Hcrc. rewrite Hcrc, orb_true_r.
           rewrite Hbits. reflexivity.
    + intros Hnot. unfold status_of in *.
      destruct (okr && _); [| reflexivity].
      exfalso. exact (Hnot _ eq_refl).
    + intros bits H. discriminate H.
    + reflexivity.
    + reflexivity.
Qed.

Lemma getStatus_valid_exactly_when_witness :
  exists st w',
    getStatus (decls := SimDecls.decls) SimDecls.sensor SimDecls.leftovers
              (Sim.start [] [[0x00; 0x00; 0x81]])
    = Some (st, w') /\
    st = Status_valid 0.
Proof.
  destruct (getStatus_valid_exactly_when
              (decls := SimDecls.decls) SimDecls.sensor SimDecls.leftovers
              (Sim.start [] [[0x00; 0x00; 0x81]]) sim_bus_contract)
    as [st [w' [Hrun [Hiff _]]]].
  exists st, w'. split; [exact Hrun |].
  apply Hiff.
  eexists. exists [0x00; 0x00; 0x81]. eexists.
  split; [lazy; reflexivity | split; [lazy; reflexivity | split]].
  - right. reflexivity.
  - split; reflexivity.
Defined.

Example getStatus_zero_status_is_valid :
  option_map fst
    (getStatus (decls := SimDecls.decls) SimDecls.sensor SimDecls.leftovers
               (Sim.start [] [[0x00; 0x00; 0x81]]))
  = Some (Status_valid 0).
Proof. reflexivity. Qed.

Example getStatus_bad_checksum_is_invalid :
  option_map fst
    (getStatus (decls := SimDecls.decls) SimDecls.sensor SimDecls.leftovers
               (Sim.start [] [[0x80; 0x10; 0x00]]))
  = Some Status_invalid.
Proof. reflexivity. Qed.

Example getStatus_short_read_is_invalid :
  option_map fst
    (getStatus (decls := SimDecls.decls) SimDecls.sensor SimDecls.leftovers
               (Sim.start [] [[0x00; 0x00]]))
  = Some Status_invalid.
Proof. reflexivity. Qed.

Example getStatus_nack_is_invalid :
  option_map fst
    (getStatus (decls := SimDecls.decls) SimDecls.sensor SimDecls.leftovers
               (Sim.start [2] [[0x00; 0x00; 0x81]]))
  = Some Status_invalid.
Proof. reflexivity. Qed.

(* ------------------------------------------------------------------ *)
(** * Single-shot measurement, stage by stage *)
(* ------------------------------------------------------------------ *)

Lemma bind_ret {W A B} (a : A) (k : A -> M W B) (w : World W) :
  bind (ret a) k w = k a w.
Proof. reflexivity. Qed.

Section SingleShot.
Context {W : Type} {bus : TwoWire W} {decls : Sht3xDecls}.
Variable dev : cSHT_3x.
Variable ind : Indet.
Variables t rh : Z.
Variable r : Repeatability.
Variable w : World W.

Let c : Command := getCommand Periodicity_Single r ClockStretching_Disabled.

Lemma Raw_encoding_error :
  c = Command_Error ->
  exists w',
    getTemperatureHumidityRaw dev ind t rh r w = Some ((false, t, rh), w') /\
    no_io w w'.
Proof.
  intros Herr. unfold getTemperatureHumidityRaw. fold c.
  rewrite Herr, Z.eqb_refl.
  destruct (isDebug dev); cbv [bind ret when Serial_print Serial_println].
  - eexists. split; [reflexivity |].
    eapply no_io_trans; apply no_io_log; reflexivity.
  - eexists. split; [reflexivity |]. apply no_io_refl.
Qed.

Lemma Raw_write_failed (w1 : World W) :
  c <> Command_Error ->
  writeCommand dev c w = Some (false, w1) ->
  exists w',
    getTemperatureHumidityRaw dev ind t rh r w = Some ((false, t, rh), w') /\
    no_io w1 w'.
Proof.
  intros Hc Hw. unfold getTemperatureHumidityRaw. fold c.
  apply Z.eqb_neq in Hc. rewrite Hc. cbv iota.
  rewrite bind_ret. cbv iota.
  assert (Hcons : console_only (W := W)
            (when (isDebug dev && negb false)
               (Serial_println
                  (Text "getTemperatureHumidityRaw: writeCommand failed"))))
    by auto with console.
  destruct (Hcons w1) as [w' [Hrun Hq]].
  rewrite (bind_run _ _ w w' false).
  2:{ rewrite (bind_run _ _ _ _ _ Hw).
      rewrite (bind_run _ _ _ _ _ Hrun). reflexivity. }
  cbv iota. rewrite bind_ret. cbv iota beta.
  exists w'. split; [reflexivity | exact Hq].
Qed.

Lemma Raw_write_ok (w1 : World W) :
  c <> Command_Error ->
  writeCommand dev c w = Some (true, w1) ->
  getTemperatureHumidityRaw dev ind t rh r w
  = bind (bind (delay 20)
            (fun _ =>
               bind (readResponse dev (Some (local_buf ind 6)) 6)
                 (fun '(ok, b) =>
                    bind (when (isDebug dev && negb ok)
                            (Serial_println
                               (Text "getTemperatureHumidityRaw: readResponse failed")))
                      (fun _ =>
                         ret (ok, match b with
                                  | Some b' => b'
                                  | None => local_buf ind 6
                                  end)))))
      (fun '(fResult, buf) =>
         if fResult : bool then
           let '(ok, t', rh') := processResultsRaw dev buf t rh in
           bind (when (isDebug dev && negb ok)
                   (Serial_println
                      (Text "getTemperatureHumidityRaw: processResultsRaw failed")))
             (fun _ => ret (ok, t', rh'))
         else ret (fResult, t, rh))
      w1.
Proof.
  intros Hc Hw. unfold getTemperatureHumidityRaw. fold c.
  apply Z.eqb_neq in Hc. rewrite Hc. cbv iota.
  rewrite bind_ret. cbv iota.
  rewrite (bind_run _ _ w w1 true).
  2:{ rewrite (bind_run _ _ _ _ _ Hw).
      cbn [negb]. rewrite andb_false_r. reflexivity. }
  reflexivity.
Qed.

Lemma Raw_read_failed (w1 w2 : World W) (b : option (list Z)) :
  c <> Command_Error ->
  writeCommand dev c w = Some (true, w1) ->
  readResponse dev (Some (local_buf ind 6)) 6 (log (EvDelay 20) w1)
  = Some ((false, b), w2) ->
  exists w',
    getTemperatureHumidityRaw dev ind t rh r w = Some ((false, t, rh), w') /\
    no_io w2 w'.
Proof.
  intros Hc Hw Hr. rewrite (Raw_write_ok w1 Hc Hw).
  assert (Hcons : console_only (W := W)
            (when (isDebug dev && negb false)
               (Serial_println
                  (Text "getTemperatureHumidityRaw: readResponse failed"))))
    by auto with console.
  destruct (Hcons w2) as [w' [Hrun Hq]].
  erewrite (bind_run _ _ w1 w' (false, _)).
  2:{ rewrite (bind_run _ _ w1 (log (EvDelay 20) w1) tt); [| reflexivity].
      rewrite (bind_run _ _ _ _ _ Hr).
      rewrite (bind_run _ _ _ _ _ Hrun). reflexivity. }
  exists w'. split; [reflexivity | exact Hq].
Qed.

Lemma Raw_after_read (w1 w2 : World W) (buf : list Z) :
  c <> Command_Error ->
  writeCommand dev c w = Some (true, w1) ->
  readResponse dev (Some (local_buf ind 6)) 6 (log (EvDelay 20) w1)
  = Some ((true, Some buf), w2) ->
  exists w',
    getTemperatureHumidityRaw dev ind t rh r w
    = Some (processResultsRaw dev buf t rh, w') /\
    no_io w2 w'.
Proof.
  intros Hc Hw Hr. rewrite (Raw_write_ok w1 Hc Hw).
  rewrite (bind_run _ _ w1 w2 (true, buf)).
  2:{ rewrite (bind_run _ _ w1 (log (EvDelay 20) w1) tt); [| reflexivity].
      rewrite (bind_run _ _ _ _ _ Hr).
      cbn [negb]. rewrite andb_false_r. reflexivity. }
  rewrite processResultsRaw_eq.
  match goal with
  | |- context [bind (when ?k ?m) _ w2] =>
      assert (Hcons : console_only (W := W) (when k m))
        by auto with console
  end.
  destruct (Hcons w2) as [w' [Hrun Hq]].
  rewrite (bind_run _ _ _ _ _ Hrun).
  exists w'. split; [reflexivity | exact Hq].
Qed.

End SingleShot.

(* ------------------------------------------------------------------ *)
(** * Single-shot measurement: the configuration error *)
(* ------------------------------------------------------------------ *)

(** C3: when the single-shot encoding of the repeatability [r] (with
    [Periodicity::Single] and [ClockStretching::Disabled]) is the [Error]
    opcode, [getTemperatureHumidityRaw] returns [false], leaves its output
    parameters as they were, and performs no bus write, no delay and no
    bus read: the bus state is unchanged, the trace gained console output
    at most, and no byte was written, so no other opcode stood in for the
    missing one. *)
Theorem getTemperatureHumidityRaw_illegal_repeatability :
  forall {W : Type} {bus : TwoWire W} {decls : Sht3xDecls}
         (dev : cSHT_3x) (ind : Indet) (t rh : Z) (r : Repeatability)
         (w : World W),
    getCommand Periodicity_Single r ClockStretching_Disabled = Command_Error ->
    exists w',
      getTemperatureHumidityRaw dev ind t rh r w = Some ((false, t, rh), w') /\
      no_io w w' /\
      io_calls (trace w') = io_calls (trace w) /\
      written_bytes (trace w') = written_bytes (trace w).
Proof.
  intros W bus decls dev ind t rh r w Herr.
  destruct (Raw_encoding_error dev ind t rh r w Herr) as [w' [Hrun Hq]].
  exists w'. split; [exact Hrun | split; [exact Hq | split]].
  - apply no_io_calls, Hq.
  - apply no_io_written, Hq.
Qed.

Lemma getTemperatureHumidityRaw_illegal_repeatability_witness :
  exists w',
    getTemperatureHumidityRaw (decls := SimDecls.decls)
                              SimDecls.sensor_debug SimDecls.zeros 7 9 3
                              (Sim.start [] [SimDecls.good_response])
    = Some ((false, 7, 9), w') /\
    no_io (Sim.start [] [SimDecls.good_response]) w' /\
    io_calls (trace w')
    = io_calls (trace (Sim.start [] [SimDecls.good_response])) /\
    written_bytes (trace w')
    = written_bytes (trace (Sim.start [] [SimDecls.good_response])).
Proof.
  apply (getTemperatureHumidityRaw_illegal_repeatability
           (decls := SimDecls.decls) SimDecls.sensor_debug SimDecls.zeros
           7 9 3).
  reflexivity.
Defined.

Section SingleShotOutcome.
Context {W : Type} {bus : TwoWire W} {decls : Sht3xDecls}.
Variable dev : cSHT_3x.
Variable ind : Indet.
Variable r : Repeatability.
Variable w : World W.

(** On a bus that keeps its contract, either some stage fails or all of
    them succeed. *)
Lemma single_shot_stages_total :
  BusContract bus ->
  single_shot_stage_fails dev ind r w \/
  exists buf, single_shot_stages_succeed dev ind r w buf.
Proof.
  intros Hbus.
  unfold single_shot_stage_fails, single_shot_stages_succeed.
  set (c := single_shot_command r). cbv zeta.
  destruct (Z.eq_dec c Command_Error) as [Herr | Hc].
  { left. left. exact Herr. }
  destruct (writeCommand_defined dev c w) as [[|] [w1 Hw]].
  2:{ left. right. left. split; [exact Hc |]. exists w1. exact Hw. }
  destruct (readResponse_defined dev (local_buf ind 6) 6
              (log (EvDelay 20) w1) Hbus) as [okr [buf [w2 [Hr _]]]].
  { unfold local_buf. rewrite length_map, length_seq. lia. }
  destruct okr.
  2:{ left. right. right. left. split; [exact Hc |].
      exists w1, (Some buf), w2. split; assumption. }
  destruct (m_noCrc dev) eqn:Hskip.
  { right. exists buf. split; [exact Hc |].
    exists w1, w2. split; [exact Hw | split; [exact Hr |]].
    left. reflexivity. }
  destruct (checksums_match buf) eqn:Hcrc.
  - right. exists buf. split; [exact Hc |].
    exists w1, w2. split; [exact Hw | split; [exact Hr |]].
    right. exact Hcrc.
  - left. right. right. right. split; [exact Hc |].
    exists w1, buf, w2.
    split; [exact Hw | split; [exact Hr | split; [reflexivity | exact Hcrc]]].
Qed.

Lemma Raw_fails (t rh : Z) :
  single_shot_stage_fails dev ind r w ->
  exists tf rhf w',
    getTemperatureHumidityRaw dev ind t rh r w = Some ((false, tf, rhf), w').
Proof.
  unfold single_shot_stage_fails, single_shot_command. cbv zeta.
  intros [Herr | [[Hc [w1 Hw]] | [[Hc [w1 [b [w2 [Hw Hr]]]]]
                                 | [Hc [w1 [buf [w2 [Hw [Hr [Hskip Hcrc]]]]]]]]]].
  - destruct (Raw_encoding_error dev ind t rh r w Herr) as [w' [Hrun _]].
    exists t, rh, w'. exact Hrun.
  - destruct (Raw_write_failed dev ind t rh r w w1 Hc Hw) as [w' [Hrun _]].
    exists t, rh, w'. exact Hrun.
  - destruct (Raw_read_failed dev ind t rh r w w1 w2 b Hc Hw Hr)
      as [w' [Hrun _]].
    exists t, rh, w'. exact Hrun.
  - destruct (Raw_after_read dev ind t rh r w w1 w2 buf Hc Hw Hr)
      as [w' [Hrun _]].
    rewrite processResultsRaw_eq, Hskip, Hcrc in Hrun.
    do 2 eexists. exists w'. exact Hrun.
Qed.

Lemma Raw_succeeds (t rh : Z) (buf : list Z) :
  single_shot_stages_succeed dev ind r w buf ->
  exists w',
    getTemperatureHumidityRaw dev ind t rh r w
    = Some ((true, be16 (at_ buf 0) (at_ buf 1),
                   be16 (at_ buf 3) (at_ buf 4)), w').
Proof.
  unfold single_shot_stages_succeed, single_shot_command. cbv zeta.
  intros [Hc [w1 [w2 [Hw [Hr Hcrc]]]]].
  destruct (Raw_after_read dev ind t rh r w w1 w2 buf Hc Hw Hr)
    as [w' [Hrun _]].
  rewrite processResultsRaw_eq in Hrun.
  assert (Hok : m_noCrc dev || checksums_match buf = true).
  { destruct Hcrc as [H | H]; rewrite H; [reflexivity | apply orb_true_r]. }
  rewrite Hok in Hrun. exists w'. exact Hrun.
Qed.

Lemma getTemperatureHumidity_fails (t rh : cfloat) :
  single_shot_stage_fails dev ind r w ->
  exists w',
    getTemperatureHumidity dev ind t rh r w = Some ((false, NAN, NAN), w').
Proof.
  intros Hfail.
  destruct (Raw_fails (ind_tfrac ind) (ind_rhfrac ind) Hfail)
    as [tf [rhf [w' Hrun]]].
  exists w'. unfold getTemperatureHumidity.
  rewrite (bind_run _ _ _ _ _ Hrun). reflexivity.
Qed.

Lemma getTemperatureHumidity_succeeds (t rh : cfloat) (buf : list Z) :
  single_shot_stages_succeed dev ind r w buf ->
  exists w',
    getTemperatureHumidity dev ind t rh r w
    = Some ((true, rawTtoCelsius (be16 (at_ buf 0) (at_ buf 1)),
                   rawRHtoPercent (be16 (at_ buf 3) (at_ buf 4))), w').
Proof.
  intros Hok.
  destruct (Raw_succeeds (ind_tfrac ind) (ind_rhfrac ind) buf Hok)
    as [w' Hrun].
  exists w'. unfold getTemperatureHumidity.
  rewrite (bind_run _ _ _ _ _ Hrun). reflexivity.
Qed.

End SingleShotOutcome.

(** C7: on a bus that keeps its contract [getTemperatureHumidity] returns,
    and: if any stage fails (encoding, command write, 6-byte read,
    validation) the result is [false] and both [t] and [rh] are the
    not-a-number sentinel; if all stages succeed the result is [true], [t]
    is [rawTtoCelsius] of the big-endian temperature fraction (bytes 0-1)
    and [rh] is [rawRHtoPercent] of the humidity fraction (bytes 3-4) of
    the response; one of the two is always the case, and a [false] result
    always comes with the two sentinels. *)
Theorem getTemperatureHumidity_contract :
  forall {W : Type} {bus : TwoWire W} {decls : Sht3xDecls}
         (dev : cSHT_3x) (ind : Indet) (t rh : cfloat) (r : Repeatability)
         (w : World W),
    BusContract bus ->
    exists ok t' rh' w',
      getTemperatureHumidity dev ind t rh r w = Some ((ok, t', rh'), w') /\
      (single_shot_stage_fails dev ind r w ->
       ok = false /\ t' = NAN /\ rh' = NAN) /\
      (forall buf,
          single_shot_stages_succeed dev ind r w buf ->
          ok = true /\
          t' = rawTtoCelsius (be16 (at_ buf 0) (at_ buf 1)) /\
          rh' = rawRHtoPercent (be16 (at_ buf 3) (at_ buf 4))) /\
      (single_shot_stage_fails dev ind r w \/
       exists buf, single_shot_stages_succeed dev ind r w buf) /\
      (ok = false -> t' = NAN /\ rh' = NAN).
Proof.
  intros W bus decls dev ind t rh r w Hbus.
  assert (Hrun : exists ok t' rh' w',
             getTemperatureHumidity dev ind t rh r w
             = Some ((ok, t', rh'), w') /\
             (ok = false -> t' = NAN /\ rh' = NAN)).
  { destruct (single_shot_stages_total dev ind r w Hbus) as [Hf | [buf Hs]].
    - destruct (getTemperatureHumidity_fails dev ind r w t rh Hf) as [w' H].
      exists false, NAN, NAN, w'. split; [exact H |]. intros _. split; reflexivity.
    - destruct (getTemperatureHumidity_succeeds dev ind r w t rh buf Hs)
        as [w' H].
      do 3 eexists. exists w'. split; [exact H |]. intros Hd. discriminate Hd. }
  destruct Hrun as [ok [t' [rh' [w' [Hrun Hnan]]]]].
  exists ok, t', rh', w'. split; [exact Hrun |].
  split; [| split; [| split]].
  - intros Hf.
    destruct (getTemperatureHumidity_fails dev ind r w t rh Hf) as [w'' H].
    rewrite Hrun in H. inversion H. repeat split; reflexivity.
  - intros buf Hs.
    destruct (getTemperatureHumidity_succeeds dev ind r w t rh buf Hs)
      as [w'' H].
    rewrite Hrun in H. inversion H. repeat split; reflexivity.
  - apply single_shot_stages_total, Hbus.
  - exact Hnan.
Qed.

Lemma getTemperatureHumidity_contract_witness :
  (exists w',
      getTemperatureHumidity (decls := SimDecls.decls) SimDecls.sensor
        SimDecls.leftovers NAN NAN Sim.High
        (Sim.start [] [SimDecls.good_response])
      = Some ((true, rawTtoCelsius_f32 0x6666, rawRHtoPercent_f32 0x4000), w')) /\
  (exists w',
      getTemperatureHumidity (decls := SimDecls.decls) SimDecls.sensor
        SimDecls.leftovers (f32_of_Z 1) (f32_of_Z 2) Sim.High
        (Sim.start [] [SimDecls.corrupted_response])
      = Some ((false, NAN, NAN), w')).
Proof.
  split.
  - destruct (getTemperatureHumidity_contract
                (decls := SimDecls.decls) SimDecls.sensor
                SimDecls.leftovers NAN NAN Sim.High
                (Sim.start [] [SimDecls.good_response]) sim_bus_contract)
      as [ok [t' [rh' [w' [Hrun [_ [Hs _]]]]]]].
    exists w'. rewrite Hrun.
    destruct (Hs SimDecls.good_response) as [Hok [Ht Hrh]].
    { split; [vm_compute; discriminate |].
      eexists. eexists.
      split; [lazy; reflexivity | split; [lazy; reflexivity |]].
      right. reflexivity. }
    rewrite Hok, Ht, Hrh. reflexivity.
  - destruct (getTemperatureHumidity_contract
                (decls := SimDecls.decls) SimDecls.sensor
                SimDecls.leftovers (f32_of_Z 1) (f32_of_Z 2) Sim.High
                (Sim.start [] [SimDecls.corrupted_response])
                sim_bus_contract)
      as [ok [t' [rh' [w' [Hrun [Hf _]]]]]].
    exists w'. rewrite Hrun.
    destruct Hf as [Hok [Ht Hrh]].
    { right. right. right. split; [vm_compute; discriminate |].
      eexists. exists SimDecls.corrupted_response. eexists.
      split; [lazy; reflexivity | split; [lazy; reflexivity |]].
      split; reflexivity. }
    rewrite Hok, Ht, Hrh. reflexivity.
Defined.

(* ------------------------------------------------------------------ *)
(** * Skipping the integrity check *)
(* ------------------------------------------------------------------ *)

(** C6: with the skip-integrity-check flag set the checksum bytes are
    never compared: [processResultsRaw] accepts every 6-byte buffer and
    yields the decoded fractions, a single-shot measurement whose write
    and read succeeded succeeds whatever the checksum bytes are, and
    [getStatus] accepts every 3-byte response it managed to read; with the
    flag clear, a buffer with a checksum byte that does not match makes
    [processResultsRaw] return [false]. *)
Theorem skip_integrity_check_bypasses_checker :
  forall {W : Type} {bus : TwoWire W} {decls : Sht3xDecls}
         (dev_skip dev_check : cSHT_3x),
    m_noCrc dev_skip = true ->
    m_noCrc dev_check = false ->
    (forall buf t rh,
        processResultsRaw dev_skip buf t rh
        = (true, be16 (at_ buf 0) (at_ buf 1),
                 be16 (at_ buf 3) (at_ buf 4))) /\
    (forall buf t rh,
        Crc.crc (firstn 2 buf) Crc.crc_init <> at_ buf 2 \/
        Crc.crc (firstn 2 (skipn 3 buf)) Crc.crc_init <> at_ buf 5 ->
        fst (fst (processResultsRaw dev_check buf t rh)) = false /\
        fst (fst (processResultsRaw dev_skip buf t rh)) = true) /\
    (forall ind t rh r (w w1 w2 : World W) buf,
        single_shot_command r <> Command_Error ->
        writeCommand dev_skip (single_shot_command r) w = Some (true, w1) ->
        readResponse dev_skip (Some (local_buf ind 6)) 6
                     (log (EvDelay 20) w1)
        = Some ((true, Some buf), w2) ->
        exists w',
          getTemperatureHumidityRaw dev_skip ind t rh r w
          = Some ((true, be16 (at_ buf 0) (at_ buf 1),
                         be16 (at_ buf 3) (at_ buf 4)), w')) /\
    (forall ind (w w1 w2 : World W) buf,
        writeCommand dev_skip Command_GetStatus w = Some (true, w1) ->
        readResponse dev_skip (Some (local_buf ind 3)) 3 w1
        = Some ((true, Some buf), w2) ->
        getStatus dev_skip ind w
        = Some (Status_valid (be16 (at_ buf 0) (at_ buf 1)), w2)).
Proof.
  intros W bus decls dev_skip dev_check Hskip Hcheck.
  split; [| split; [| split]].
  - intros buf t rh. rewrite processResultsRaw_eq, Hskip. reflexivity.
  - intros buf t rh Hbad.
    rewrite !processResultsRaw_eq, Hskip, Hcheck.
    rewrite (checksums_mismatch buf Hbad). split; reflexivity.
  - intros ind t rh r w w1 w2 buf Hc Hw Hr.
    apply Raw_succeeds. split; [exact Hc |].
    exists w1, w2. split; [exact Hw | split; [exact Hr |]].
    left. exact Hskip.
  - intros ind w w1 w2 buf Hw Hr.
    rewrite (getStatus_after_read dev_skip ind w w1 w2 true buf Hw Hr).
    unfold status_of. rewrite Hskip. reflexivity.
Qed.

Lemma skip_integrity_check_bypasses_checker_witness :
  processResultsRaw SimDecls.sensor_noCrc SimDecls.corrupted_response 0 0
  = (true, 0x6666, 0x4000) /\
  fst (fst (processResultsRaw SimDecls.sensor SimDecls.corrupted_response
                              0 0)) = false.
Proof.
  destruct (skip_integrity_check_bypasses_checker
              (W := Sim.SimBus) (decls := SimDecls.decls)
              SimDecls.sensor_noCrc SimDecls.sensor eq_refl eq_refl)
    as [Hany [Hbad _]].
  split.
  - rewrite (Hany SimDecls.corrupted_response 0 0). reflexivity.
  - apply (Hbad SimDecls.corrupted_response 0 0).
    left. vm_compute. discriminate.
Defined.

Example corrupted_checksum_fails_when_checked :
  option_map fst
    (getTemperatureHumidityRaw (decls := SimDecls.decls) SimDecls.sensor
       SimDecls.zeros 1 2 Sim.High
       (Sim.start [] [SimDecls.corrupted_response]))
  = Some (false, 0x6666, 0x4000).
Proof. reflexivity. Qed.

Example corrupted_checksum_ignored_when_skipped :
  option_map fst
    (getTemperatureHumidityRaw (decls := SimDecls.decls)
       SimDecls.sensor_noCrc SimDecls.zeros 1 2 Sim.High
       (Sim.start [] [SimDecls.corrupted_response]))
  = Some (true, 0x6666, 0x4000).
Proof. reflexivity. Qed.

(* ------------------------------------------------------------------ *)
(** * Output parameters of a rejected response *)
(* ------------------------------------------------------------------ *)

(** C10: [processResultsRaw] stores the big-endian temperature fraction
    (bytes 0-1) and humidity fraction (bytes 3-4) in its output parameters
    before it compares checksums: with the integrity check on and a
    checksum byte that does not match, it returns [false] and the output
    parameters hold the decoded, unvalidated fractions, whatever they held
    before; [getTemperatureHumidityRaw] hands the same values on to its
    caller's parameters when it fails at this stage. *)
Theorem processResultsRaw_assigns_before_check :
  forall {W : Type} {bus : TwoWire W} {decls : Sht3xDecls}
         (dev : cSHT_3x) (buf : list Z),
    m_noCrc dev = false ->
    Crc.crc (firstn 2 buf) Crc.crc_init <> at_ buf 2 \/
    Crc.crc (firstn 2 (skipn 3 buf)) Crc.crc_init <> at_ buf 5 ->
    (forall tfrac rhfrac,
        processResultsRaw dev buf tfrac rhfrac
        = (false, be16 (at_ buf 0) (at_ buf 1),
                  be16 (at_ buf 3) (at_ buf 4))) /\
    (forall ind t rh r (w w1 w2 : World W),
        single_shot_command r <> Command_Error ->
        writeCommand dev (single_shot_command r) w = Some (true, w1) ->
        readResponse dev (Some (local_buf ind 6)) 6 (log (EvDelay 20) w1)
        = Some ((true, Some buf), w2) ->
        exists w',
          getTemperatureHumidityRaw dev ind t rh r w
          = Some ((false, be16 (at_ buf 0) (at_ buf 1),
                          be16 (at_ buf 3) (at_ buf 4)), w')).
Proof.
  intros W bus decls dev buf Hcheck Hbad.
  assert (Hp : forall tfrac rhfrac,
             processResultsRaw dev buf tfrac rhfrac
             = (false, be16 (at_ buf 0) (at_ buf 1),
                       be16 (at_ buf 3) (at_ buf 4))).
  { intros tfrac rhfrac.
    rewrite processResultsRaw_eq, Hcheck, (checksums_mismatch buf Hbad).
    reflexivity. }
  split; [exact Hp |].
  intros ind t rh r w w1 w2 Hc Hw Hr.
  destruct (Raw_after_read dev ind t rh r w w1 w2 buf Hc Hw Hr)
    as [w' [Hrun _]].
  rewrite Hp in Hrun. exists w'. exact Hrun.
Qed.

Lemma processResultsRaw_assigns_before_check_witness :
  processResultsRaw SimDecls.sensor SimDecls.corrupted_response 1 2
  = (false, 0x6666, 0x4000).
Proof.
  assert (Hbad :
            Crc.crc (firstn 2 SimDecls.corrupted_response) Crc.crc_init
            <> at_ SimDecls.corrupted_response 2 \/
            Crc.crc (firstn 2 (skipn 3 SimDecls.corrupted_response))
                    Crc.crc_init
            <> at_ SimDecls.corrupted_response 5)
    by (left; vm_compute; discriminate).
  exact (proj1 (processResultsRaw_assigns_before_check
                  (W := Sim.SimBus) (decls := SimDecls.decls)
                  SimDecls.sensor SimDecls.corrupted_response
                  eq_refl Hbad) 1 2).
Defined.

(* ------------------------------------------------------------------ *)
(** * Periodic measurement: fetching *)
(* ------------------------------------------------------------------ *)

Section Fetch.
Context {W : Type} {bus : TwoWire W} {decls : Sht3xDecls}.
Variable dev : cSHT_3x.
Variable ind : Indet.
Variable w : World W.

Lemma getPeriodicMeasurementRaw_fails (tfrac rhfrac : Z) :
  fetch_stage_fails dev ind w ->
  exists tf rhf w',
    getPeriodicMeasurementRaw dev ind tfrac rhfrac w
    = Some ((false, tf, rhf), w').
Proof.
  unfold fetch_stage_fails, getPeriodicMeasurementRaw.
  intros [[w1 Hw] | [[w1 [b [w2 [Hw Hr]]]]
                    | [w1 [buf [w2 [Hw [Hr [Hskip Hcrc]]]]]]]].
  - rewrite (bind_run _ _ _ _ _ Hw). cbv iota.
    rewrite bind_ret. exists tfrac, rhfrac, w1. reflexivity.
  - rewrite (bind_run _ _ _ _ _ Hw). cbv iota.
    erewrite (bind_run _ _ w1 w2 (false, _)).
    2:{ rewrite (bind_run _ _ _ _ _ Hr). reflexivity. }
    exists tfrac, rhfrac, w2. reflexivity.
  - rewrite (bind_run _ _ _ _ _ Hw). cbv iota.
    rewrite (bind_run _ _ w1 w2 (true, buf)).
    2:{ rewrite (bind_run _ _ _ _ _ Hr). reflexivity. }
    rewrite processResultsRaw_eq, Hskip, Hcrc.
    do 2 eexists. exists w2. reflexivity.
Qed.

(** What the code does when fetching fails: the result is [false] and the
    caller's [t] and [rh] are returned as they came in. *)
Lemma getPeriodicMeasurement_fails (t rh : cfloat) :
  fetch_stage_fails dev ind w ->
  exists w',
    getPeriodicMeasurement dev ind t rh w = Some ((false, t, rh), w').
Proof.
  intros Hfail.
  destruct (getPeriodicMeasurementRaw_fails (ind_tfrac ind) (ind_rhfrac ind)
              Hfail) as [tf [rhf [w' Hrun]]].
  exists w'. unfold getPeriodicMeasurement.
  rewrite (bind_run _ _ _ _ _ Hrun). reflexivity.
Qed.

(** Any run that returns [false] left the outputs alone. *)
Lemma getPeriodicMeasurement_false_keeps_outputs
      (t rh t' rh' : cfloat) (w' : World W) :
  getPeriodicMeasurement dev ind t rh w = Some ((false, t', rh'), w') ->
  t' = t /\ rh' = rh.
Proof.
  unfold getPeriodicMeasurement. intros H.
  apply bind_Some in H. destruct H as [[[f tf] rhf] [w1 [_ H]]].
  destruct f; cbn in H; inversion H; split; reflexivity.
Qed.

End Fetch.

(** C2 (the code departs from the stated contract): a Fetch command that
    the sensor does not acknowledge.  Both calls return [false]; the
    single-shot call sets its outputs to the not-a-number sentinel, while
    [getPeriodicMeasurement] returns early and leaves [t] and [rh] at the
    values the caller passed in (here 1 and 2). *)
Theorem getPeriodicMeasurement_failure_leaves_outputs :
  fetch_stage_fails (decls := SimDecls.decls) SimDecls.sensor SimDecls.zeros
                    (Sim.start [2] []) /\
  option_map fst
    (getPeriodicMeasurement (decls := SimDecls.decls) SimDecls.sensor
       SimDecls.zeros (f32_of_Z 1) (f32_of_Z 2) (Sim.start [2] []))
  = Some (false, f32_of_Z 1, f32_of_Z 2) /\
  f32_of_Z 1 <> NAN /\ f32_of_Z 2 <> NAN /\
  option_map fst
    (getTemperatureHumidity (decls := SimDecls.decls) SimDecls.sensor
       SimDecls.zeros (f32_of_Z 1) (f32_of_Z 2) Sim.High (Sim.start [2] []))
  = Some (false, NAN, NAN).
Proof.
  split; [| split; [| split; [| split]]].
  - left. eexists. lazy. reflexivity.
  - reflexivity.
  - discriminate.
  - discriminate.
  - reflexivity.
Qed.

Example getPeriodicMeasurement_corrupted_leaves_outputs :
  option_map fst
    (getPeriodicMeasurement (decls := SimDecls.decls) SimDecls.sensor
       SimDecls.zeros (f32_of_Z 1) (f32_of_Z 2)
       (Sim.start [] [SimDecls.corrupted_response]))
  = Some (false, f32_of_Z 1, f32_of_Z 2).
Proof. reflexivity. Qed.

Example getPeriodicMeasurement_short_read_leaves_outputs :
  option_map fst
    (getPeriodicMeasurement (decls := SimDecls.decls) SimDecls.sensor
       SimDecls.zeros (f32_of_Z 1) (f32_of_Z 2) (Sim.start [] [[0x66; 0x66; 0x93]]))
  = Some (false, f32_of_Z 1, f32_of_Z 2).
Proof. reflexivity. Qed.

Example getPeriodicMeasurement_good :
  option_map fst
    (getPeriodicMeasurement (decls := SimDecls.decls) SimDecls.sensor
       SimDecls.zeros NAN NAN (Sim.start [] [SimDecls.good_response]))
  = Some (true, rawTtoCelsius_f32 0x6666, rawRHtoPercent_f32 0x4000).
Proof. reflexivity. Qed.

(* ------------------------------------------------------------------ *)
(** * Conversion layer *)
(* ------------------------------------------------------------------ *)

Lemma inject_lt (a b : Z) : a < b -> (a # 1 < b # 1)%Q.
Proof. intros H. unfold Qlt. cbn [Qnum Qden]. lia. Qed.

Lemma rawTtoCelsius_Q_lt (a b : Z) :
  a < b -> (rawTtoCelsius_Q a < rawTtoCelsius_Q b)%Q.
Proof.
  intros Hab. unfold rawTtoCelsius_Q, Qdiv.
  apply Qplus_lt_r.
  apply Qmult_lt_compat_r; [reflexivity |].
  apply Qmult_lt_l; [reflexivity |].
  apply inject_lt, Hab.
Qed.

Lemma rawRHtoPercent_Q_lt (a b : Z) :
  a < b -> (rawRHtoPercent_Q a < rawRHtoPercent_Q b)%Q.
Proof.
  intros Hab. unfold rawRHtoPercent_Q, Qdiv.
  apply Qmult_lt_compat_r; [reflexivity |].
  apply Qmult_lt_l; [reflexivity |].
  apply inject_lt, Hab.
Qed.

Lemma rawTtoCelsius_Q_le (a b : Z) :
  a <= b -> (rawTtoCelsius_Q a <= rawTtoCelsius_Q b)%Q.
Proof.
  intros Hab. destruct (Z.eq_dec a b) as [-> | Hne].
  - apply Qle_refl.
  - apply Qlt_le_weak, rawTtoCelsius_Q_lt. lia.
Qed.

Lemma rawRHtoPercent_Q_le (a b : Z) :
  a <= b -> (rawRHtoPercent_Q a <= rawRHtoPercent_Q b)%Q.
Proof.
  intros Hab. destruct (Z.eq_dec a b) as [-> | Hne].
  - apply Qle_refl.
  - apply Qlt_le_weak, rawRHtoPercent_Q_lt. lia.
Qed.

Lemma Qltb_lt (x y : Q) : Qltb x y = true -> (x < y)%Q.
Proof. unfold Qltb, Qlt. apply Z.ltb_lt. Qed.

Lemma Qclose_spec (eps x y : Q) :
  Qclose eps x y = true -> (x - y < eps)%Q /\ (y - x < eps)%Q.
Proof.
  unfold Qclose. intros H. apply andb_true_iff in H.
  destruct H as [H1 H2]. split; apply Qltb_lt; assumption.
Qed.

Lemma pair_le_lt_le (u l f v : Q * Q) :
  pair_le u l ->
  (fst l < fst f)%Q /\ (snd l < snd f)%Q ->
  pair_le f v ->
  (fst u < fst v)%Q /\ (snd u < snd v)%Q.
Proof.
  intros [-> | [Hu1 Hu2]] [Hl1 Hl2] [<- | [Hv1 Hv2]].
  - split; assumption.
  - split; eapply Qlt_trans; eassumption.
  - split; eapply Qlt_trans; eassumption.
  - split.
    + apply Qlt_trans with (fst l); [assumption |].
      apply Qlt_trans with (fst f); assumption.
    + apply Qlt_trans with (snd l); [assumption |].
      apply Qlt_trans with (snd f); assumption.
Qed.

(** What a successful [increasing_range] establishes. *)
Lemma increasing_range_spec (pt : Z -> option (Q * Q)) (k : nat) :
  forall lo first last,
    increasing_range pt k lo = Some (first, last) ->
    (forall a, lo <= a < lo + 2 ^ Z.of_nat k ->
               exists v, pt a = Some v /\ pair_le first v /\ pair_le v last) /\
    (forall a b va vb,
        lo <= a -> a < b -> b < lo + 2 ^ Z.of_nat k ->
        pt a = Some va -> pt b = Some vb ->
        (fst va < fst vb)%Q /\ (snd va < snd vb)%Q).
Proof.
  induction k as [| k IH]; intros lo first last Hrun.
  - cbn in Hrun. destruct (pt lo) as [v |] eqn:Hpt; [| discriminate Hrun].
    inversion Hrun; subst first last. split.
    + intros a Ha. cbn in Ha. replace a with lo by lia.
      exists v. split; [exact Hpt | split; left; reflexivity].
    + intros a b va vb Ha Hab Hb. cbn in Hb. lia.
  - cbn [increasing_range] in Hrun.
    destruct (increasing_range pt k lo) as [[f1 l1] |] eqn:Hleft;
      [| discriminate Hrun].
    destruct (increasing_range pt k (lo + 2 ^ Z.of_nat k))
      as [[f2 l2] |] eqn:Hright; [| discriminate Hrun].
    destruct (Qltb (fst l1) (fst f2) && Qltb (snd l1) (snd f2)) eqn:Hmid;
      [| discriminate Hrun].
    inversion Hrun; subst first last. clear Hrun.
    apply andb_true_iff in Hmid. destruct Hmid as [Hm1 Hm2].
    apply Qltb_lt in Hm1. apply Qltb_lt in Hm2.
    destruct (IH lo f1 l1 Hleft) as [HLdef HLinc].
    destruct (IH (lo + 2 ^ Z.of_nat k) f2 l2 Hright) as [HRdef HRinc].
    assert (Hpow : 2 ^ Z.of_nat (S k) = 2 * 2 ^ Z.of_nat k)
      by (rewrite Nat2Z.inj_succ, Z.pow_succ_r; lia).
    assert (Hpos : 0 < 2 ^ Z.of_nat k) by (apply Z.pow_pos_nonneg; lia).
    rewrite Hpow. split.
    + intros a Ha.
      destruct (Z_lt_ge_dec a (lo + 2 ^ Z.of_nat k)) as [Hlt | Hge].
      * destruct (HLdef a) as [v [Hv [Hfv Hvl]]]; [lia |].
        exists v. split; [exact Hv | split; [exact Hfv |]].
        destruct (HRdef (lo + 2 ^ Z.of_nat k)) as [v2 [_ [Hf2 Hv2]]]; [lia |].
        assert (Hf2l : pair_le f2 l2).
        { destruct Hf2 as [-> | Hf2]; [exact Hv2 |].
          destruct Hv2 as [<- | Hv2]; [right; exact Hf2 |].
          right. destruct Hf2, Hv2.
          split; eapply Qlt_trans; eassumption. }
        right. exact (pair_le_lt_le v l1 f2 l2 Hvl (conj Hm1 Hm2) Hf2l).
      * destruct (HRdef a) as [v [Hv [Hfv Hvl]]]; [lia |].
        exists v. split; [exact Hv | split; [| exact Hvl]].
        destruct (HLdef lo) as [v1 [_ [Hf1 Hv1]]]; [lia |].
        assert (Hf1l : pair_le f1 l1).
        { destruct Hf1 as [-> | Hf1]; [exact Hv1 |].
          destruct Hv1 as [<- | Hv1]; [right; exact Hf1 |].
          right. destruct Hf1, Hv1.
          split; eapply Qlt_trans; eassumption. }
        right. exact (pair_le_lt_le f1 l1 f2 v Hf1l (conj Hm1 Hm2) Hfv).
    + intros a b va vb Ha Hab Hb Hva Hvb.
      destruct (Z_lt_ge_dec b (lo + 2 ^ Z.of_nat k)) as [Hbl | Hbr].
      * apply (HLinc a b va vb); assumption || lia.
      * destruct (Z_lt_ge_dec a (lo + 2 ^ Z.of_nat k)) as [Hal | Har].
        -- destruct (HLdef a) as [va' [Hva' [_ Hal1]]]; [lia |].
           destruct (HRdef b) as [vb' [Hvb' [Hf2b _]]]; [lia |].
           rewrite Hva in Hva'. inversion Hva'; subst va'.
           rewrite Hvb in Hvb'. inversion Hvb'; subst vb'.
           exact (pair_le_lt_le va l1 f2 vb Hal1 (conj Hm1 Hm2) Hf2b).
        -- apply (HRinc a b va vb); assumption || lia.
Qed.

Lemma conversions_increasing_range :
  exists first last,
    increasing_range conversions_at 16 0 = Some (first, last).
Proof. do 2 eexists. vm_compute. reflexivity. Qed.

Lemma conversions_at_defined (frac : Z) :
  is_u16 frac ->
  conversions_at frac
  = Some (f32_value (rawTtoCelsius_f32 frac),
          f32_value (rawRHtoPercent_f32 frac)) /\
  f32_is_finite (rawTtoCelsius_f32 frac) = true /\
  f32_is_finite (rawRHtoPercent_f32 frac) = true /\
  Qclose (1 # 131072) (f32_value (rawTtoCelsius_f32 frac))
         (rawTtoCelsius_Q frac) = true /\
  Qclose (1 # 262144) (f32_value (rawRHtoPercent_f32 frac))
         (rawRHtoPercent_Q frac) = true.
Proof.
  intros Hfrac.
  destruct conversions_increasing_range as [first [last Hrun]].
  destruct (increasing_range_spec conversions_at 16 0 first last Hrun)
    as [Hdef _].
  destruct (Hdef frac Hfrac) as [v [Hv _]].
  unfold conversions_at in *. cbv zeta in *.
  destruct (f32_is_finite (rawTtoCelsius_f32 frac)); [| discriminate Hv].
  destruct (f32_is_finite (rawRHtoPercent_f32 frac)); [| discriminate Hv].
  destruct (Qclose (1 # 131072) _ _); [| discriminate Hv].
  destruct (Qclose (1 # 262144) _ _); [| discriminate Hv].
  repeat split; reflexivity.
Qed.

(** C8: the conversions are functions of the raw fraction alone.  As
    exact rationals they are [-45 + 175 * frac / 65535] and
    [100 * frac / 65535]: -45 and 130 degrees, 0 and 100 percent at the
    two ends of the 16-bit range, between those bounds on it, and strictly
    increasing.  Evaluated in [float] arithmetic they give exactly -45,
    130, 0 and 100 at the ends, and for every 16-bit fraction a finite
    number within 2^-17 (temperature) and 2^-18 (humidity) of the exact
    value; they too are strictly increasing on the 16-bit range. *)
Theorem raw_conversions_linear_and_increasing :
  (forall frac,
      rawTtoCelsius_Q frac
      == - (45 # 1) + (175 # 1) * (frac # 1) / (65535 # 1) /\
      rawRHtoPercent_Q frac == (100 # 1) * (frac # 1) / (65535 # 1))%Q /\
  ((rawTtoCelsius_Q 0 == - (45 # 1))%Q /\
   (rawTtoCelsius_Q 65535 == 130 # 1)%Q /\
   (rawRHtoPercent_Q 0 == 0)%Q /\
   (rawRHtoPercent_Q 65535 == 100 # 1)%Q) /\
  (forall a b,
      a < b ->
      (rawTtoCelsius_Q a < rawTtoCelsius_Q b)%Q /\
      (rawRHtoPercent_Q a < rawRHtoPercent_Q b)%Q) /\
  (forall frac,
      is_u16 frac ->
      (- (45 # 1) <= rawTtoCelsius_Q frac <= 130 # 1)%Q /\
      (0 <= rawRHtoPercent_Q frac <= 100 # 1)%Q) /\
  (rawTtoCelsius_f32 0 = f32_of_Z (-45) /\
   rawTtoCelsius_f32 65535 = f32_of_Z 130 /\
   rawRHtoPercent_f32 0 = f32_of_Z 0 /\
   rawRHtoPercent_f32 65535 = f32_of_Z 100) /\
  (forall frac,
      is_u16 frac ->
      f32_is_finite (rawTtoCelsius_f32 frac) = true /\
      f32_is_finite (rawRHtoPercent_f32 frac) = true /\
      (f32_value (rawTtoCelsius_f32 frac) - rawTtoCelsius_Q frac
       < 1 # 131072)%Q /\
      (rawTtoCelsius_Q frac - f32_value (rawTtoCelsius_f32 frac)
       < 1 # 131072)%Q /\
      (f32_value (rawRHtoPercent_f32 frac) - rawRHtoPercent_Q frac
       < 1 # 262144)%Q /\
      (rawRHtoPercent_Q frac - f32_value (rawRHtoPercent_f32 frac)
       < 1 # 262144)%Q) /\
  (forall a b,
      0 <= a -> a < b -> b <= 65535 ->
      (f32_value (rawTtoCelsius_f32 a) < f32_value (rawTtoCelsius_f32 b))%Q /\
      (f32_value (rawRHtoPercent_f32 a)
       < f32_value (rawRHtoPercent_f32 b))%Q).
Proof.
  split; [| split; [| split; [| split; [| split; [| split]]]]].
  - intros frac. split; reflexivity.
  - split; [| split; [| split]]; reflexivity.
  - intros a b Hab.
    split; [apply rawTtoCelsius_Q_lt | apply rawRHtoPercent_Q_lt]; exact Hab.
  - intros frac [Hlo Hhi]. split; split.
    + apply Qle_trans with (rawTtoCelsius_Q 0);
        [vm_compute; discriminate | apply rawTtoCelsius_Q_le; exact Hlo].
    + apply Qle_trans with (rawTtoCelsius_Q 65535);
        [apply rawTtoCelsius_Q_le; lia | vm_compute; discriminate].
    + apply Qle_trans with (rawRHtoPercent_Q 0);
        [vm_compute; discriminate | apply rawRHtoPercent_Q_le; exact Hlo].
    + apply Qle_trans with (rawRHtoPercent_Q 65535);
        [apply rawRHtoPercent_Q_le; lia | vm_compute; discriminate].
  - split; [| split; [| split]]; vm_compute; reflexivity.
  - intros frac Hfrac.
    destruct (conversions_at_defined frac Hfrac)
      as [_ [Hft [Hfrh [Ht Hrh]]]].
    apply Qclose_spec in Ht. apply Qclose_spec in Hrh.
    destruct Ht as [Ht1 Ht2]. destruct Hrh as [Hrh1 Hrh2].
    repeat (split; [assumption |]). assumption.
  - intros a b Ha Hab Hb.
    destruct conversions_increasing_range as [first [last Hrun]].
    destruct (increasing_range_spec conversions_at 16 0 first last Hrun)
      as [_ Hinc].
    assert (Hua : is_u16 a) by (unfold is_u16; lia).
    assert (Hub : is_u16 b) by (unfold is_u16; lia).
    destruct (conversions_at_defined a Hua) as [Hva _].
    destruct (conversions_at_defined b Hub) as [Hvb _].
    assert (Hb' : b < 0 + 2 ^ Z.of_nat 16) by (cbn; lia).
    exact (Hinc a b _ _ Ha Hab Hb' Hva Hvb).
Qed.

Lemma raw_conversions_linear_and_increasing_witness :
  (rawTtoCelsius_Q 0x6666 < rawTtoCelsius_Q 0x6667)%Q /\
  (rawRHtoPercent_Q 0x4000 < rawRHtoPercent_Q 0x4001)%Q /\
  (- (45 # 1) <= rawTtoCelsius_Q 0x6666 <= 130 # 1)%Q /\
  (f32_value (rawTtoCelsius_f32 0x6666)
   < f32_value (rawTtoCelsius_f32 0x6667))%Q /\
  f32_is_finite (rawRHtoPercent_f32 0x4000) = true.
Proof.
  pose proof raw_conversions_linear_and_increasing
    as [_ [_ [Hmono [Hrange [_ [Hclose Hmono32]]]]]].
  split; [| split; [| split; [| split]]].
  - apply (Hmono 0x6666 0x6667). lia.
  - apply (Hmono 0x4000 0x4001). lia.
  - apply (Hrange 0x6666). unfold is_u16. lia.
  - apply (Hmono32 0x6666 0x6667); lia.
  - apply (Hclose 0x4000). unfold is_u16. lia.
Defined.

Example end_to_end_conversion :
  (rawTtoCelsius_Q 0x6666 == 25 # 1)%Q /\
  (rawRHtoPercent_Q 0x4000 == 327680 # 13107)%Q.
Proof. split; reflexivity. Qed.

(* ------------------------------------------------------------------ *)
(** * More on the integrity checker *)
(* ------------------------------------------------------------------ *)

(** X1: the checksum can be computed in pieces: the checksum of a
    concatenation, from any running value, is the checksum of the second
    part continued from the checksum of the first. *)
Theorem crc_chains (a b : list Z) (c : Z) :
  Crc.crc (a ++ b) c = Crc.crc b (Crc.crc a c).
Proof.
  revert c. induction a as [| x a IH]; intros c; simpl.
  - reflexivity.
  - apply IH.
Qed.

Lemma forall_bytes (P : Z -> bool) :
  forallb P all_bytes = true -> forall b, is_u8 b -> P b = true.
Proof.
  intros Hall b Hb. rewrite forallb_forall in Hall.
  apply Hall, all_bytes_In, Hb.
Qed.

Lemma crc_byte_self (c : Z) : is_u8 c -> Crc.crc_byte c c = 0.
Proof.
  intros Hc. apply Z.eqb_eq. revert c Hc.
  apply (forall_bytes (fun c => Crc.crc_byte c c =? 0)).
  vm_compute. reflexivity.
Qed.

(** X2: a byte sequence followed by its own checksum has checksum 0, from
    every 8-bit running value. *)
Theorem crc_residue_zero (buf : list Z) (c : Z) :
  is_u8 c ->
  Crc.crc (buf ++ [Crc.crc buf c]) c = 0.
Proof.
  intros Hc. rewrite crc_chains. simpl.
  apply crc_byte_self, crc_range, Hc.
Qed.

Lemma crc_residue_zero_witness :
  Crc.crc ([0xBE; 0xEF] ++ [Crc.crc [0xBE; 0xEF] 0xFF]) 0xFF = 0.
Proof.
  apply (crc_residue_zero [0xBE; 0xEF] 0xFF). unfold is_u8. lia.
Defined.

(** One step of the checksum depends on the running value and the byte
    through their XOR only, and is one-to-one in it. *)
Lemma crc_byte_xor (c b : Z) :
  is_u8 c -> is_u8 b ->
  is_u8 (Z.lxor c b) /\ Crc.crc_byte c b = Crc.crc_byte 0 (Z.lxor c b).
Proof.
  intros Hc Hb.
  assert (H : (0 <=? Z.lxor c b) && (Z.lxor c b <? 256)
              && (Crc.crc_byte c b =? Crc.crc_byte 0 (Z.lxor c b)) = true).
  { revert c b Hc Hb.
    apply (forall_byte_pairs
             (fun c b => (0 <=? Z.lxor c b) && (Z.lxor c b <? 256)
                         && (Crc.crc_byte c b
                             =? Crc.crc_byte 0 (Z.lxor c b)))).
    vm_compute. reflexivity. }
  apply andb_true_iff in H. destruct H as [H H3].
  apply andb_true_iff in H. destruct H as [H1 H2].
  apply Z.leb_le in H1. apply Z.ltb_lt in H2. apply Z.eqb_eq in H3.
  split; [split; assumption | exact H3].
Qed.

Lemma crc_byte_zero_injective (x y : Z) :
  is_u8 x -> is_u8 y ->
  Crc.crc_byte 0 x = Crc.crc_byte 0 y -> x = y.
Proof.
  intros Hx Hy Heq.
  assert (H : (x =? y) || negb (Crc.crc_byte 0 x =? Crc.crc_byte 0 y) = true).
  { revert x y Hx Hy Heq. intros x y Hx Hy _. revert x y Hx Hy.
    apply (forall_byte_pairs
             (fun x y => (x =? y)
                         || negb (Crc.crc_byte 0 x =? Crc.crc_byte 0 y))).
    vm_compute. reflexivity. }
  apply orb_true_iff in H. destruct H as [H | H].
  - apply Z.eqb_eq, H.
  - apply Z.eqb_eq in Heq. rewrite Heq in H. discriminate H.
Qed.

Lemma lxor_cancel_l (c x y : Z) : Z.lxor c x = Z.lxor c y -> x = y.
Proof.
  intros H.
  rewrite <- (Z.lxor_0_l x), <- (Z.lxor_0_l y), <- (Z.lxor_nilpotent c).
  rewrite !Z.lxor_assoc, H. reflexivity.
Qed.

Lemma lxor_cancel_r (b x y : Z) : Z.lxor x b = Z.lxor y b -> x = y.
Proof.
  rewrite (Z.lxor_comm x b), (Z.lxor_comm y b). apply lxor_cancel_l.
Qed.

Lemma crc_byte_injective_byte (c b b' : Z) :
  is_u8 c -> is_u8 b -> is_u8 b' ->
  Crc.crc_byte c b = Crc.crc_byte c b' -> b = b'.
Proof.
  intros Hc Hb Hb' Heq.
  destruct (crc_byte_xor c b Hc Hb) as [Hx Hbx].
  destruct (crc_byte_xor c b' Hc Hb') as [Hx' Hbx'].
  rewrite Hbx, Hbx' in Heq.
  apply (lxor_cancel_l c), crc_byte_zero_injective; assumption.
Qed.

Lemma crc_byte_injective_state (c c' b : Z) :
  is_u8 c -> is_u8 c' -> is_u8 b ->
  Crc.crc_byte c b = Crc.crc_byte c' b -> c = c'.
Proof.
  intros Hc Hc' Hb Heq.
  destruct (crc_byte_xor c b Hc Hb) as [Hx Hbx].
  destruct (crc_byte_xor c' b Hc' Hb) as [Hx' Hbx'].
  rewrite Hbx, Hbx' in Heq.
  apply (lxor_cancel_r b), crc_byte_zero_injective; assumption.
Qed.

Lemma crc_pair_first_byte (c b1 b1' b2 : Z) :
  is_u8 c -> is_u8 b1 -> is_u8 b1' -> is_u8 b2 ->
  b1 <> b1' ->
  Crc.crc [b1; b2] c <> Crc.crc [b1'; b2] c.
Proof.
  intros Hc H1 H1' H2 Hne Heq. simpl in Heq.
  assert (Hst : Crc.crc_byte c b1 = Crc.crc_byte c b1').
  { apply (crc_byte_injective_state _ _ b2);
      [apply crc_byte_range | apply crc_byte_range | exact H2 | exact Heq]. }
  apply Hne.
  exact (crc_byte_injective_byte c b1 b1' Hc H1 H1' Hst).
Qed.

Lemma crc_pair_second_byte (c b1 b2 b2' : Z) :
  is_u8 b2 -> is_u8 b2' ->
  b2 <> b2' ->
  Crc.crc [b1; b2] c <> Crc.crc [b1; b2'] c.
Proof.
  intros H2 H2' Hne Heq. simpl in Heq.
  apply Hne.
  apply (crc_byte_injective_byte (Crc.crc_byte c b1) b2 b2');
    [apply crc_byte_range | exact H2 | exact H2' | exact Heq].
Qed.

(** X3: within a two-byte group, a change confined to one of the two
    bytes always changes the checksum, from every 8-bit running value. *)
Theorem crc_detects_single_byte_change (c b1 b2 b1' b2' : Z) :
  is_u8 c -> is_u8 b1 -> is_u8 b2 -> is_u8 b1' -> is_u8 b2' ->
  (b1 <> b1' /\ b2 = b2') \/ (b1 = b1' /\ b2 <> b2') ->
  Crc.crc [b1; b2] c <> Crc.crc [b1'; b2'] c.
Proof.
  intros Hc H1 H2 H1' H2' [[Hne <-] | [<- Hne]].
  - apply crc_pair_first_byte; assumption.
  - apply crc_pair_second_byte; assumption.
Qed.

Lemma crc_detects_single_byte_change_witness :
  Crc.crc [0x66; 0x66] 0xFF <> Crc.crc [0x66; 0x67] 0xFF.
Proof.
  apply (crc_detects_single_byte_change 0xFF 0x66 0x66 0x66 0x67);
    unfold is_u8; lia.
Defined.

(* ------------------------------------------------------------------ *)
(** * Well-formed and corrupted measurement responses *)
(* ------------------------------------------------------------------ *)

Lemma checksums_match_six (a b k c d l : Z) :
  checksums_match [a; b; k; c; d; l]
  = (Crc.crc [a; b] Crc.crc_init =? k) && (Crc.crc [c; d] Crc.crc_init =? l).
Proof. reflexivity. Qed.

(** X4: decoding inverts the sensor's framing: a response made of two
    data bytes, their checksum, two more data bytes and their checksum is
    accepted by [processResultsRaw], whether or not the integrity check is
    skipped, and the outputs are the two big-endian 16-bit values. *)
Theorem processResultsRaw_accepts_frame
        (dev : cSHT_3x) (t_hi t_lo rh_hi rh_lo t rh : Z) :
  is_u8 t_hi -> is_u8 t_lo -> is_u8 rh_hi -> is_u8 rh_lo ->
  processResultsRaw dev (measurement_frame t_hi t_lo rh_hi rh_lo) t rh
  = (true, t_hi * 256 + t_lo, rh_hi * 256 + rh_lo).
Proof.
  intros H1 H2 H3 H4.
  rewrite processResultsRaw_eq. unfold measurement_frame.
  rewrite checksums_match_six, !Z.eqb_refl, orb_true_r.
  cbn [at_ nth].
  rewrite (be16_value t_hi t_lo H1 H2), (be16_value rh_hi rh_lo H3 H4).
  reflexivity.
Qed.

Lemma processResultsRaw_accepts_frame_witness :
  processResultsRaw SimDecls.sensor (measurement_frame 0x66 0x66 0x40 0x00)
                    0 0
  = (true, 0x66 * 256 + 0x66, 0x40 * 256 + 0x00).
Proof.
  apply (processResultsRaw_accepts_frame SimDecls.sensor 0x66 0x66 0x40 0x00);
    unfold is_u8; lia.
Defined.

(** X5: with the integrity check on, a response that passes the check no
    longer passes it once any single one of its six bytes (data or
    checksum) is replaced by a different byte value. *)
Theorem processResultsRaw_rejects_single_byte_corruption
        (dev : cSHT_3x) (buf : list Z) (i : nat) (v t rh : Z) :
  m_noCrc dev = false ->
  List.length buf = 6%nat ->
  Forall is_u8 buf ->
  fst (fst (processResultsRaw dev buf t rh)) = true ->
  (i < 6)%nat ->
  is_u8 v ->
  v <> at_ buf i ->
  fst (fst (processResultsRaw dev (corrupt buf i v) t rh)) = false.
Proof.
  intros Hcheck Hlen Hbytes Hok Hi Hv Hne.
  rewrite processResultsRaw_eq, Hcheck in *. cbn [fst orb] in *.
  destruct buf as [| a [| b [| k [| c [| d [| l [| x rest]]]]]]];
    try discriminate Hlen.
  rewrite checksums_match_six in Hok.
  apply andb_true_iff in Hok. destruct Hok as [Hk Hl].
  apply Z.eqb_eq in Hk. apply Z.eqb_eq in Hl.
  assert (Hff : is_u8 Crc.crc_init) by (unfold is_u8, Crc.crc_init; lia).
  inversion Hbytes as [| ? ? Ha Hb1]; subst.
  inversion Hb1 as [| ? ? Hb Hb2]; subst.
  inversion Hb2 as [| ? ? Hk' Hb3]; subst.
  inversion Hb3 as [| ? ? Hc Hb4]; subst.
  inversion Hb4 as [| ? ? Hd Hb5]; subst.
  clear Hbytes Hb1 Hb2 Hb3 Hb4 Hb5 Hk'.
  destruct i as [| [| [| [| [| [| i]]]]]]; try lia;
    unfold corrupt; cbn [firstn skipn app at_ nth] in *;
    rewrite checksums_match_six.
  - replace (Crc.crc [v; b] Crc.crc_init =? Crc.crc [a; b] Crc.crc_init)
      with false; [reflexivity |].
    symmetry. apply Z.eqb_neq.
    apply crc_pair_first_byte; auto.
  - replace (Crc.crc [a; v] Crc.crc_init =? Crc.crc [a; b] Crc.crc_init)
      with false; [reflexivity |].
    symmetry. apply Z.eqb_neq.
    apply crc_pair_second_byte; auto.
  - replace (Crc.crc [a; b] Crc.crc_init =? v) with false; [reflexivity |].
    symmetry. apply Z.eqb_neq. intros H. apply Hne. symmetry. exact H.
  - replace (Crc.crc [v; d] Crc.crc_init =? Crc.crc [c; d] Crc.crc_init)
      with false; [apply andb_false_r |].
    symmetry. apply Z.eqb_neq.
    apply crc_pair_first_byte; auto.
  - replace (Crc.crc [c; v] Crc.crc_init =? Crc.crc [c; d] Crc.crc_init)
      with false; [apply andb_false_r |].
    symmetry. apply Z.eqb_neq.
    apply crc_pair_second_byte; auto.
  - replace (Crc.crc [c; d] Crc.crc_init =? v) with false;
      [apply andb_false_r |].
    symmetry. apply Z.eqb_neq. intros H. apply Hne. symmetry. exact H.
Qed.

Lemma processResultsRaw_rejects_single_byte_corruption_witness :
  fst (fst (processResultsRaw SimDecls.sensor
              (corrupt SimDecls.good_response 4 0x01) 0 0)) = false.
Proof.
  apply (processResultsRaw_rejects_single_byte_corruption
           SimDecls.sensor SimDecls.good_response 4 0x01 0 0).
  - reflexivity.
  - reflexivity.
  - repeat constructor; unfold is_u8; lia.
  - reflexivity.
  - lia.
  - unfold is_u8. lia.
  - vm_compute. discriminate.
Defined.

(* ------------------------------------------------------------------ *)
(** * One command, one transaction *)
(* ------------------------------------------------------------------ *)

Lemma frame_decodes (c : Command) :
  be16 (to_u8 (Z.shiftr (to_u16 c) 8)) (to_u8 (Z.land (to_u16 c) 0xFF))
  = to_u16 c.
Proof.
  assert (Hx : 0 <= to_u16 c < 65536)
    by (unfold to_u16; apply Z.mod_pos_bound; lia).
  set (x := to_u16 c) in *.
  assert (Hhi : to_u8 (Z.shiftr x 8) = x / 256).
  { rewrite Z.shiftr_div_pow2 by lia. change (2 ^ 8) with 256.
    unfold to_u8. apply Z.mod_small.
    split; [apply Z.div_pos; lia | apply Z.div_lt_upper_bound; lia]. }
  assert (Hlo : to_u8 (Z.land x 0xFF) = x mod 256).
  { change 0xFF with (Z.ones 8). rewrite Z.land_ones by lia.
    change (2 ^ 8) with 256. unfold to_u8. apply Z.mod_mod. lia. }
  rewrite Hhi, Hlo.
  rewrite be16_value.
  - rewrite Z.mul_comm. symmetry. apply Z.div_mod. lia.
  - unfold is_u8.
    split; [apply Z.div_pos; lia | apply Z.div_lt_upper_bound; lia].
  - unfold is_u8. apply Z.mod_pos_bound. lia.
Qed.

(** X6: [writeCommand] to a non-negative address makes exactly one
    transaction: begin, the high byte of the opcode, the low byte, end.
    It returns [true] exactly when the status of [endTransmission] (as an
    8-bit value) is 0, and does not try again when it is not.  The two
    bytes, read back big-endian, are the 16-bit opcode. *)
Theorem writeCommand_one_transaction :
  forall {W : Type} {bus : TwoWire W} (dev : cSHT_3x) (c : Command)
         (w : World W),
    0 <= getAddress dev ->
    exists r w',
      writeCommand dev c w = Some (to_u8 r =? 0, w') /\
      io_calls (trace w') = io_calls (trace w) ++ write_events dev c r /\
      written_bytes (trace w') = written_bytes (trace w) ++ frame c /\
      be16 (at_ (frame c) 0) (at_ (frame c) 1) = to_u16 c.
Proof.
  intros W bus dev c w Haddr.
  destruct (tw_endTransmission
              (tw_write (to_u8 (Z.land (to_u16 c) 0xFF))
                 (tw_write (to_u8 (Z.shiftr (to_u16 c) 8))
                    (tw_beginTransmission (getAddress dev) (wire w)))))
    as [r b'] eqn:Hend.
  destruct (writeCommand_run dev c w r b' Haddr Hend)
    as [w' [Hrun [_ [Hio Hwr]]]].
  exists r, w'. split; [exact Hrun | split; [exact Hio | split; [exact Hwr |]]].
  apply frame_decodes.
Qed.

Lemma writeCommand_one_transaction_witness :
  exists r w',
    writeCommand SimDecls.sensor 0x2C06 (Sim.start [2] [])
    = Some (to_u8 r =? 0, w') /\
    io_calls (trace w')
    = io_calls (trace (Sim.start [2] []))
        ++ write_events SimDecls.sensor 0x2C06 r /\
    written_bytes (trace w')
    = written_bytes (trace (Sim.start [2] [])) ++ frame 0x2C06 /\
    be16 (at_ (frame 0x2C06) 0) (at_ (frame 0x2C06) 1) = to_u16 0x2C06.
Proof.
  apply (writeCommand_one_transaction SimDecls.sensor 0x2C06
                                      (Sim.start [2] [])).
  simpl. lia.
Defined.

(* ------------------------------------------------------------------ *)
(** * Reading a response, in full *)
(* ------------------------------------------------------------------ *)

Lemma io_calls_reads (vs : list Z) : io_calls (map EvRead vs) = map EvRead vs.
Proof.
  induction vs as [| v vs IH]; cbn; [reflexivity |].
  f_equal. exact IH.
Qed.

Section ReadingInFull.
Context {W : Type} {bus : TwoWire W}.
Variable dev : cSHT_3x.

Lemma reads_length (n : nat) :
  forall b : W, List.length (fst (reads n b)) = n.
Proof.
  induction n as [| n IH]; intros b; cbn [reads].
  - reflexivity.
  - destruct (tw_read b) as [v b1].
    specialize (IH b1). destruct (reads n b1) as [vs b2].
    cbn in *. f_equal. exact IH.
Qed.

(** The read loop inside the array: the bytes read are stored in order
    from index [i] on, the rest of the array is kept. *)
Lemma read_loop_closed (n : nat) :
  forall (i : nat) (buf : list Z) (w : World W),
    (i + n <= List.length buf)%nat ->
    read_loop n i buf w
    = Some (firstn i buf ++ map to_u8 (fst (reads n (wire w)))
                         ++ skipn (i + n) buf,
            mkWorld (snd (reads n (wire w)))
                    (trace w ++ map EvRead (fst (reads n (wire w))))).
Proof.
  induction n as [| n IH]; intros i buf w Hfit.
  - cbn [read_loop reads fst snd map]. unfold ret.
    rewrite Nat.add_0_r, app_nil_l, firstn_skipn, app_nil_r.
    destruct w; reflexivity.
  - cbn [read_loop reads]. unfold bind, wire_read.
    destruct (tw_read (wire w)) as [v b1].
    unfold store.
    assert (Hi : (i <? List.length buf)%nat = true)
      by (apply Nat.ltb_lt; lia).
    rewrite Hi.
    rewrite IH.
    2:{ rewrite length_app. cbn [List.length].
        rewrite length_firstn, length_skipn. lia. }
    cbn [wire trace].
    destruct (reads n b1) as [vs b2]. cbn [fst snd map].
    f_equal. f_equal.
    + rewrite firstn_app, length_firstn.
      replace (S i - Nat.min i (List.length buf))%nat with 1%nat by lia.
      rewrite firstn_firstn.
      replace (Nat.min (S i) i) with i by lia.
      cbn [firstn].
      rewrite skipn_app, length_firstn.
      replace (S i + n - Nat.min i (List.length buf))%nat with (S n) by lia.
      rewrite (skipn_all2 (firstn i buf))
        by (rewrite length_firstn; lia).
      rewrite app_nil_l, skipn_cons, skipn_skipn.
      replace (n + S i)%nat with (i + S n)%nat by lia.
      rewrite <- !app_assoc. reflexivity.
    + rewrite <- app_assoc. reflexivity.
Qed.

(** The read loop past the end of the array. *)
Lemma read_loop_overrun (n : nat) :
  forall (i : nat) (buf : list Z) (w : World W),
    (i <= List.length buf)%nat ->
    (List.length buf < i + n)%nat ->
    read_loop n i buf w = None.
Proof.
  induction n as [| n IH]; intros i buf w Hi Hover.
  - lia.
  - cbn [read_loop]. unfold bind, wire_read.
    destruct (tw_read (wire w)) as [v b1].
    unfold store.
    destruct (i <? List.length buf)%nat eqn:Hlt.
    + apply Nat.ltb_lt in Hlt.
      apply IH.
      * rewrite length_app. cbn [List.length].
        rewrite length_firstn, length_skipn. lia.
      * rewrite length_app. cbn [List.length].
        rewrite length_firstn, length_skipn. lia.
    + reflexivity.
Qed.

(** [readResponse] with parameters that pass its check, up to the read
    loop. *)
Lemma readResponse_run (arr : list Z) (nBuf : Z) (w : World W)
      (got a : Z) (b1 b2 : W) :
  0 <= nBuf <= 32 ->
  0 <= getAddress dev ->
  tw_requestFrom (to_u8 (getAddress dev)) nBuf (wire w) = (got, b1) ->
  tw_available b1 = (a, b2) ->
  exists w3,
    wire w3 = b2 /\
    io_calls (trace w3)
    = io_calls (trace w)
        ++ [EvRequestFrom (to_u8 (getAddress dev)) nBuf got; EvAvailable a] /\
    match read_loop (Z.to_nat (to_u32 a)) 0 arr w3 with
    | Some (arr', w4) =>
        exists w',
          readResponse dev (Some arr) nBuf w
          = Some ((to_u32 a =? nBuf, Some arr'), w') /\
          no_io w4 w'
    | None => readResponse dev (Some arr) nBuf w = None
    end.
Proof.
  intros Hn Haddr Hreq Hav.
  remember (readResponse dev (Some arr) nBuf w) as R eqn:HR.
  unfold readResponse in HR.
  assert (Hok : (nBuf >? 32) || (getAddress dev <? 0) = false).
  { apply orb_false_iff. split.
    - destruct (Z.gtb_spec nBuf 32); [lia | reflexivity].
    - apply Z.ltb_ge. exact Haddr. }
  rewrite Hok in HR.
  assert (Hu8 : to_u8 nBuf = nBuf) by (unfold to_u8; apply Z.mod_small; lia).
  rewrite Hu8 in HR.
  unfold bind at 1 in HR. unfold wire_requestFrom in HR. rewrite Hreq in HR.
  match type of HR with
  | context [bind (when ?k ?m) _ ?w0] =>
      assert (Hc : console_only (W := W) (when k m))
        by auto 10 with console;
      destruct (Hc w0) as [w1 [Hrun1 Hq1]]
  end.
  rewrite (bind_run _ _ _ _ _ Hrun1) in HR.
  unfold bind at 1 in HR. unfold wire_available in HR.
  destruct Hq1 as [Hw1 [out1 [Ht1 Hs1]]]. cbn [wire trace] in Hw1, Ht1.
  rewrite Hw1, Hav in HR. cbv beta iota in HR.
  set (w3 := mkWorld b2 (trace w1 ++ [EvAvailable a])) in *.
  exists w3. split; [reflexivity |]. split.
  { unfold w3. cbn [trace]. rewrite Ht1.
    rewrite !io_calls_app, (io_calls_serial out1 Hs1). cbn.
    rewrite app_nil_r, <- app_assoc. reflexivity. }
  destruct (read_loop (Z.to_nat (to_u32 a)) 0 arr w3)
    as [[arr' w4] |] eqn:Hloop.
  - rewrite (bind_run _ _ _ _ _ Hloop) in HR.
    match type of HR with
    | context [bind (when ?k ?m) _ w4] =>
        assert (Hc' : console_only (W := W) (when k m))
          by auto 10 with console;
        destruct (Hc' w4) as [w5 [Hrun5 Hq5]]
    end.
    rewrite (bind_run _ _ _ _ _ Hrun5) in HR.
    exists w5. split; [exact HR | exact Hq5].
  - rewrite (bind_undefined _ _ _ Hloop) in HR. exact HR.
Qed.

End ReadingInFull.

(** X7: [readResponse] with a buffer, a length of at most 32 and a
    non-negative address issues one [requestFrom] for [nBuf] bytes and one
    [available]; it then reads as many bytes as [available] reported and
    stores them in order from the start of the array, leaving the rest of
    the array as it was.  Its result is [true] exactly when the count
    reported by [available] equals [nBuf]; the count returned by
    [requestFrom] plays no part in it. *)
Theorem readResponse_in_full :
  forall {W : Type} {bus : TwoWire W} (dev : cSHT_3x) (arr : list Z)
         (nBuf : Z) (w : World W) (got a : Z) (b1 b2 : W),
    0 <= nBuf <= 32 ->
    0 <= getAddress dev ->
    tw_requestFrom (to_u8 (getAddress dev)) nBuf (wire w) = (got, b1) ->
    tw_available b1 = (a, b2) ->
    (Z.to_nat (to_u32 a) <= List.length arr)%nat ->
    exists w',
      readResponse dev (Some arr) nBuf w
      = Some ((to_u32 a =? nBuf,
               Some (map to_u8 (fst (reads (Z.to_nat (to_u32 a)) b2))
                       ++ skipn (Z.to_nat (to_u32 a)) arr)), w') /\
      wire w' = snd (reads (Z.to_nat (to_u32 a)) b2) /\
      io_calls (trace w')
      = io_calls (trace w)
          ++ [EvRequestFrom (to_u8 (getAddress dev)) nBuf got; EvAvailable a]
          ++ map EvRead (fst (reads (Z.to_nat (to_u32 a)) b2)).
Proof.
  intros W bus dev arr nBuf w got a b1 b2 Hn Haddr Hreq Hav Hfit.
  destruct (readResponse_run dev arr nBuf w got a b1 b2 Hn Haddr Hreq Hav)
    as [w3 [Hw3 [Hio3 Hrun]]].
  rewrite read_loop_closed in Hrun by exact Hfit.
  destruct Hrun as [w' [Hrun Hq]].
  exists w'. rewrite Hw3 in *. cbn [firstn app] in Hrun.
  split; [exact Hrun |]. split.
  - destruct Hq as [Hw' _]. rewrite Hw'. reflexivity.
  - rewrite (no_io_calls _ _ Hq). cbn [trace].
    rewrite io_calls_app, io_calls_reads, Hio3, <- app_assoc.
    reflexivity.
Qed.

Lemma readResponse_in_full_witness :
  exists w',
    readResponse SimDecls.sensor (Some [7; 8; 9]) 3
                 (Sim.start [] [[0x80; 0x10]])
    = Some ((false, Some [0x80; 0x10; 9]), w') /\
    io_calls (trace w')
    = [EvRequestFrom 0x44 3 2; EvAvailable 2; EvRead 0x80; EvRead 0x10].
Proof.
  destruct (readResponse_in_full SimDecls.sensor [7; 8; 9] 3
              (Sim.start [] [[0x80; 0x10]]) 2 2
              (Sim.mkSim [] [] [0x80; 0x10]) (Sim.mkSim [] [] [0x80; 0x10]))
    as [w' [Hrun [_ Hio]]].
  - lia.
  - simpl. lia.
  - reflexivity.
  - reflexivity.
  - simpl. lia.
  - exists w'. split; [exact Hrun | exact Hio].
Defined.

(** X8: [readResponse] copies as many bytes as [available] reports
    without comparing that count with the size of the array: when the
    count exceeds the array, the copy runs past its end, which is a store
    with no defined behaviour and not a [false] result. *)
Theorem readResponse_overruns_short_array :
  forall {W : Type} {bus : TwoWire W} (dev : cSHT_3x) (arr : list Z)
         (nBuf : Z) (w : World W) (got a : Z) (b1 b2 : W),
    0 <= nBuf <= 32 ->
    0 <= getAddress dev ->
    tw_requestFrom (to_u8 (getAddress dev)) nBuf (wire w) = (got, b1) ->
    tw_available b1 = (a, b2) ->
    (List.length arr < Z.to_nat (to_u32 a))%nat ->
    readResponse dev (Some arr) nBuf w = None.
Proof.
  intros W bus dev arr nBuf w got a b1 b2 Hn Haddr Hreq Hav Hover.
  destruct (readResponse_run dev arr nBuf w got a b1 b2 Hn Haddr Hreq Hav)
    as [w3 [_ [_ Hrun]]].
  rewrite read_loop_overrun in Hrun by lia.
  exact Hrun.
Qed.

Lemma readResponse_overruns_short_array_witness :
  readResponse SimDecls.sensor (Some [0; 0; 0]) 3
               (mkWorld (Greedy.mkGreedy [1; 2; 3; 4]) [])
  = None.
Proof.
  apply (readResponse_overruns_short_array
           SimDecls.sensor [0; 0; 0] 3
           (mkWorld (Greedy.mkGreedy [1; 2; 3; 4]) [])
           3 4 (Greedy.mkGreedy [1; 2; 3; 4]) (Greedy.mkGreedy [1; 2; 3; 4])).
  - lia.
  - simpl. lia.
  - reflexivity.
  - reflexivity.
  - simpl. lia.
Defined.

(* ------------------------------------------------------------------ *)
(** * Locals without an initialiser *)
(* ------------------------------------------------------------------ *)

Section Uninitialised.
Context {W : Type} {bus : TwoWire W} {decls : Sht3xDecls}.
Variable dev : cSHT_3x.

(** Reading into two arrays of [nBuf] bytes: same flag, same world, and
    on success the same contents. *)
Lemma readResponse_agree (arr1 arr2 : list Z) (nBuf : Z) (w : World W) :
  Z.of_nat (List.length arr1) = nBuf ->
  Z.of_nat (List.length arr2) = nBuf ->
  agree_if_true (readResponse dev (Some arr1) nBuf w)
                (readResponse dev (Some arr2) nBuf w).
Proof.
  intros Hl1 Hl2. unfold readResponse, agree_if_true.
  destruct ((nBuf >? 32) || (getAddress dev <? 0)).
  - unfold bind.
    destruct (when _ _ w) as [[[] w1] |]; cbn; [| exact I].
    split; [reflexivity | split; [reflexivity | discriminate]].
  - unfold bind.
    destruct (wire_requestFrom _ _ w) as [[r w1] |]; [| exact I].
    destruct (when _ _ w1) as [[[] w2] |]; [| exact I].
    destruct (wire_available w2) as [[a w3] |]; [| exact I].
    destruct (Nat.le_gt_cases (Z.to_nat (to_u32 a)) (List.length arr1))
      as [Hfit | Hover].
    + rewrite !read_loop_closed by lia.
      destruct (when _ _ _) as [[[] w5] |]; [| exact I].
      cbn. split; [reflexivity | split; [reflexivity |]].
      intros Hok. apply Z.eqb_eq in Hok.
      rewrite !skipn_all2 by lia. reflexivity.
    + rewrite !read_loop_overrun by lia. exact I.
Qed.

End Uninitialised.

Lemma local_buf_length (ind : Indet) (n : nat) :
  List.length (local_buf ind n) = n.
Proof. unfold local_buf. rewrite length_map, length_seq. reflexivity. Qed.

Lemma bind_assoc {W A B C} (m : M W A) (k1 : A -> M W B) (k2 : B -> M W C)
      (w : World W) :
  bind (bind m k1) k2 w = bind m (fun a => bind (k1 a) k2) w.
Proof. unfold bind. destruct (m w) as [[a w'] |]; reflexivity. Qed.

Section UninitialisedCallers.
Context {W : Type} {bus : TwoWire W} {decls : Sht3xDecls}.
Variable dev : cSHT_3x.
Variables ind1 ind2 : Indet.

Lemma getStatus_agree (w : World W) :
  getStatus dev ind1 w = getStatus dev ind2 w.
Proof.
  unfold getStatus.
  destruct (writeCommand dev Command_GetStatus w) as [[okw w1] |] eqn:Hw.
  2:{ rewrite !(bind_undefined _ _ _ Hw). reflexivity. }
  rewrite !(bind_run _ _ _ _ _ Hw).
  destruct okw.
  2:{ rewrite !bind_ret. reflexivity. }
  rewrite !bind_assoc.
  pose proof (readResponse_agree dev (local_buf ind1 3) (local_buf ind2 3)
                3 w1) as Hagree.
  rewrite !local_buf_length in Hagree.
  specialize (Hagree eq_refl eq_refl). unfold agree_if_true in Hagree.
  destruct (readResponse dev (Some (local_buf ind1 3)) 3 w1)
    as [[[ok1 b1] w2] |] eqn:Hr1;
    destruct (readResponse dev (Some (local_buf ind2 3)) 3 w1)
      as [[[ok2 b2] w2'] |] eqn:Hr2; try contradiction.
  2:{ rewrite (bind_undefined _ _ _ Hr1), (bind_undefined _ _ _ Hr2).
      reflexivity. }
  destruct Hagree as [<- [<- Hb]].
  rewrite (bind_run _ _ _ _ _ Hr1), (bind_run _ _ _ _ _ Hr2).
  cbv beta iota. rewrite !bind_ret.
  destruct ok1.
  - rewrite (Hb eq_refl).
    destruct (readResponse_array dev _ _ _ _ _ _ Hr2) as [arr' ->].
    reflexivity.
  - reflexivity.
Qed.


(** Runs the next computation that both sides share. *)
Ltac run_shared :=
  repeat first [rewrite bind_assoc | rewrite bind_ret | progress cbv beta iota];
  match goal with
  | |- context [bind ?m _ ?w] =>
      lazymatch m with
      | readResponse _ _ _ => fail
      | _ => idtac
      end;
      let H := fresh "Hrun" in
      destruct (m w) as [[? ?] |] eqn:H;
      [ rewrite !(bind_run _ _ _ _ _ H)
      | rewrite !(bind_undefined _ _ _ H) ]
  end.

(** Runs the read into the two local arrays of [n] bytes. *)
Ltac run_reads n :=
  repeat first [rewrite bind_assoc | rewrite bind_ret | progress cbv beta iota];
  match goal with
  | |- context [bind (readResponse ?d (Some (local_buf ?i1 n)) ?nb) _ ?w] =>
      match goal with
      | |- context [bind (readResponse d (Some (local_buf ?i2 n)) nb) _ w] =>
          tryif constr_eq i1 i2 then fail else
            let Hagree := fresh "Hagree" in
            let Hr1 := fresh "Hr1" in
            let Hr2 := fresh "Hr2" in
            pose proof (readResponse_agree d (local_buf i1 n) (local_buf i2 n)
                          nb w) as Hagree;
            rewrite !local_buf_length in Hagree;
            specialize (Hagree eq_refl eq_refl);
            unfold agree_if_true in Hagree;
            destruct (readResponse d (Some (local_buf i1 n)) nb w)
              as [[[? ?] ?] |] eqn:Hr1;
            destruct (readResponse d (Some (local_buf i2 n)) nb w)
              as [[[? ?] ?] |] eqn:Hr2;
            try contradiction;
            [ destruct Hagree as [<- [<- Hagree]];
              rewrite (bind_run _ _ _ _ _ Hr1), (bind_run _ _ _ _ _ Hr2)
            | rewrite (bind_undefined _ _ _ Hr1), (bind_undefined _ _ _ Hr2) ]
      end
  end.

(** Both sides have returned. *)
Ltac returned :=
  repeat first [rewrite bind_ret | progress cbv beta iota];
  cbv [ret]; cbv beta iota;
  split; [reflexivity | split; [reflexivity |]].

Lemma Raw_agree (t1 rh1 t2 rh2 : Z) (r : Repeatability) (w : World W) :
  match getTemperatureHumidityRaw dev ind1 t1 rh1 r w,
        getTemperatureHumidityRaw dev ind2 t2 rh2 r w with
  | Some ((ok1, tf1, rf1), w1), Some ((ok2, tf2, rf2), w2) =>
      ok1 = ok2 /\ w1 = w2 /\
      ((tf1 = tf2 /\ rf1 = rf2) \/
       (ok1 = false /\ tf1 = t1 /\ rf1 = rh1 /\ tf2 = t2 /\ rf2 = rh2))
  | None, None => True
  | _, _ => False
  end.
Proof.
  unfold getTemperatureHumidityRaw.
  destruct (getCommand Periodicity_Single r ClockStretching_Disabled
            =? Command_Error).
  - run_shared; [| exact I].
    returned. right. repeat split; reflexivity.
  - run_shared; [| exact I].
    run_shared; [| exact I].
    destruct b.
    2:{ returned. right. repeat split; reflexivity. }
    run_shared; [| exact I].
    run_reads 6%nat; [| exact I].
    run_shared; [| exact I].
    repeat first [rewrite bind_ret | progress cbv beta iota].
    destruct b.
    + rewrite (Hagree eq_refl).
      destruct (readResponse_array _ _ _ _ _ _ _ Hr2) as [arr' ->].
      rewrite !processResultsRaw_eq.
      run_shared; [| exact I].
      returned. left. split; reflexivity.
    + returned. right. repeat split; reflexivity.
Qed.

Lemma Fetch_agree (t1 rh1 t2 rh2 : Z) (w : World W) :
  match getPeriodicMeasurementRaw dev ind1 t1 rh1 w,
        getPeriodicMeasurementRaw dev ind2 t2 rh2 w with
  | Some ((ok1, tf1, rf1), w1), Some ((ok2, tf2, rf2), w2) =>
      ok1 = ok2 /\ w1 = w2 /\
      ((tf1 = tf2 /\ rf1 = rf2) \/
       (ok1 = false /\ tf1 = t1 /\ rf1 = rh1 /\ tf2 = t2 /\ rf2 = rh2))
  | None, None => True
  | _, _ => False
  end.
Proof.
  unfold getPeriodicMeasurementRaw.
  run_shared; [| exact I].
  destruct b.
  2:{ returned. right. repeat split; reflexivity. }
  run_reads 6%nat; [| exact I].
  repeat first [rewrite bind_ret | progress cbv beta iota].
  destruct b.
  - rewrite (Hagree eq_refl).
    destruct (readResponse_array _ _ _ _ _ _ _ Hr2) as [arr' ->].
    rewrite !processResultsRaw_eq.
    returned. left. split; reflexivity.
  - returned. right. repeat split; reflexivity.
Qed.

End UninitialisedCallers.

(** X9: the arrays and fractions that the driver declares without an
    initialiser never show in a result: whatever they hold on entry,
    [getStatus], the two single-shot calls and the two periodic calls
    return the same values and leave the same world. *)
Theorem uninitialised_locals_never_show :
  forall {W : Type} {bus : TwoWire W} {decls : Sht3xDecls}
         (dev : cSHT_3x) (ind1 ind2 : Indet) (w : World W),
    getStatus dev ind1 w = getStatus dev ind2 w /\
    (forall t rh r,
        getTemperatureHumidityRaw dev ind1 t rh r w
        = getTemperatureHumidityRaw dev ind2 t rh r w) /\
    (forall t rh r,
        getTemperatureHumidity dev ind1 t rh r w
        = getTemperatureHumidity dev ind2 t rh r w) /\
    (forall tfrac rhfrac,
        getPeriodicMeasurementRaw dev ind1 tfrac rhfrac w
        = getPeriodicMeasurementRaw dev ind2 tfrac rhfrac w) /\
    (forall t rh,
        getPeriodicMeasurement dev ind1 t rh w
        = getPeriodicMeasurement dev ind2 t rh w).
Proof.
  intros W bus decls dev ind1 ind2 w.
  split; [apply getStatus_agree |].
  split; [| split; [| split]].
  - intros t rh r.
    pose proof (Raw_agree dev ind1 ind2 t rh t rh r w) as H.
    destruct (getTemperatureHumidityRaw dev ind1 t rh r w)
      as [[[[ok1 tf1] rf1] w1] |];
      destruct (getTemperatureHumidityRaw dev ind2 t rh r w)
        as [[[[ok2 tf2] rf2] w2] |]; try contradiction; [| reflexivity].
    destruct H as [<- [<- [[<- <-] | [_ [-> [-> [-> ->]]]]]]]; reflexivity.
  - intros t rh r. unfold getTemperatureHumidity.
    pose proof (Raw_agree dev ind1 ind2 (ind_tfrac ind1) (ind_rhfrac ind1)
                  (ind_tfrac ind2) (ind_rhfrac ind2) r w) as H.
    unfold bind.
    destruct (getTemperatureHumidityRaw dev ind1 _ _ r w)
      as [[[[ok1 tf1] rf1] w1] |];
      destruct (getTemperatureHumidityRaw dev ind2 _ _ r w)
        as [[[[ok2 tf2] rf2] w2] |]; try contradiction; [| reflexivity].
    destruct H as [<- [<- [[<- <-] | [-> _]]]]; reflexivity.
  - intros t rh.
    pose proof (Fetch_agree dev ind1 ind2 t rh t rh w) as H.
    destruct (getPeriodicMeasurementRaw dev ind1 t rh w)
      as [[[[ok1 tf1] rf1] w1] |];
      destruct (getPeriodicMeasurementRaw dev ind2 t rh w)
        as [[[[ok2 tf2] rf2] w2] |]; try contradiction; [| reflexivity].
    destruct H as [<- [<- [[<- <-] | [_ [-> [-> [-> ->]]]]]]]; reflexivity.
  - intros t rh. unfold getPeriodicMeasurement.
    pose proof (Fetch_agree dev ind1 ind2 (ind_tfrac ind1) (ind_rhfrac ind1)
                  (ind_tfrac ind2) (ind_rhfrac ind2) w) as H.
    unfold bind.
    destruct (getPeriodicMeasurementRaw dev ind1 _ _ w)
      as [[[[ok1 tf1] rf1] w1] |];
      destruct (getPeriodicMeasurementRaw dev ind2 _ _ w)
        as [[[[ok2 tf2] rf2] w2] |]; try contradiction; [| reflexivity].
    destruct H as [<- [<- [[<- <-] | [-> _]]]]; reflexivity.
Qed.

(* ------------------------------------------------------------------ *)
(** * The debug flag *)
(* ------------------------------------------------------------------ *)

Section Alike.
Context {W : Type} {bus : TwoWire W}.

Lemma same_io_refl (w : World W) : same_io w w.
Proof. split; reflexivity. Qed.

Lemma same_io_no_io (w1 w1' w2 w2' : World W) :
  same_io w1 w2 -> no_io w1 w1' -> no_io w2 w2' -> same_io w1' w2'.
Proof.
  intros [Hw Ht] Hq1 Hq2. split.
  - destruct Hq1 as [-> _]. destruct Hq2 as [-> _]. exact Hw.
  - rewrite (no_io_calls _ _ Hq1), (no_io_calls _ _ Hq2). exact Ht.
Qed.

Lemma alike_ret {A} (a : A) : alike (W := W) (ret a) (ret a).
Proof. intros w w' Hs. cbn. split; [reflexivity | exact Hs]. Qed.

Lemma alike_undefined {A} : alike (W := W) (A := A) undefined undefined.
Proof. intros w w' Hs. exact I. Qed.

Lemma alike_bind {A B} (m m' : M W A) (k k' : A -> M W B) :
  alike m m' -> (forall a, alike (k a) (k' a)) ->
  alike (bind m k) (bind m' k').
Proof.
  intros Hm Hk w w' Hs. unfold bind.
  specialize (Hm w w' Hs).
  destruct (m w) as [[a w1] |]; destruct (m' w') as [[a' w1'] |];
    try contradiction; [| exact I].
  destruct Hm as [<- Hs1]. apply Hk, Hs1.
Qed.

Lemma alike_console (m m' : M W unit) :
  console_only m -> console_only m' -> alike m m'.
Proof.
  intros Hm Hm' w w' Hs.
  destruct (Hm w) as [w1 [-> Hq1]]. destruct (Hm' w') as [w1' [-> Hq1']].
  split; [reflexivity |].
  exact (same_io_no_io w w1 w' w1' Hs Hq1 Hq1').
Qed.

(** A call to the environment that is no console output. *)
Lemma alike_call {A} (f : W -> A * W) (ev : A -> Event) :
  (forall a, is_serial (ev a) = false) ->
  alike (fun w => let (r, b') := f (wire w) in
                  Some (r, mkWorld b' (trace w ++ [ev r])))
        (fun w => let (r, b') := f (wire w) in
                  Some (r, mkWorld b' (trace w ++ [ev r]))).
Proof.
  intros Hev w w' [Hw Ht]. rewrite Hw.
  destruct (f (wire w')) as [r b']. split; [reflexivity |].
  split; [reflexivity |]. cbn [trace].
  rewrite !io_calls_app, Ht. reflexivity.
Qed.

Lemma alike_beginTransmission (addr : Z) :
  alike (wire_beginTransmission addr) (wire_beginTransmission addr).
Proof.
  exact (alike_call (fun b => (tt, tw_beginTransmission addr b))
                    (fun _ => EvBeginTransmission addr) (fun _ => eq_refl)).
Qed.

Lemma alike_write (b : Z) : alike (wire_write b) (wire_write b).
Proof.
  exact (alike_call (fun x => (tt, tw_write b x))
                    (fun _ => EvWrite b) (fun _ => eq_refl)).
Qed.

Lemma alike_endTransmission :
  alike wire_endTransmission wire_endTransmission.
Proof.
  exact (alike_call tw_endTransmission EvEndTransmission (fun _ => eq_refl)).
Qed.

Lemma alike_requestFrom (addr n : Z) :
  alike (wire_requestFrom addr n) (wire_requestFrom addr n).
Proof.
  exact (alike_call (tw_requestFrom addr n) (EvRequestFrom addr n)
                    (fun _ => eq_refl)).
Qed.

Lemma alike_available : alike wire_available wire_available.
Proof.
  exact (alike_call tw_available EvAvailable (fun _ => eq_refl)).
Qed.

Lemma alike_read : alike wire_read wire_read.
Proof. exact (alike_call tw_read EvRead (fun _ => eq_refl)). Qed.

Lemma alike_wire_begin : alike wire_begin wire_begin.
Proof.
  exact (alike_call (fun b => (tt, tw_begin b))
                    (fun _ => EvWireBegin) (fun _ => eq_refl)).
Qed.

Lemma alike_delay (ms : Z) : alike (W := W) (delay ms) (delay ms).
Proof.
  exact (alike_call (fun b => (tt, b)) (fun _ => EvDelay ms)
                    (fun _ => eq_refl)).
Qed.

Lemma alike_read_loop (n : nat) :
  forall i buf, alike (read_loop n i buf) (read_loop n i buf).
Proof.
  induction n as [| n IH]; intros i buf; cbn [read_loop].
  - apply alike_ret.
  - apply alike_bind; [apply alike_read |].
    intros v. destruct (store buf i (to_u8 v)).
    + apply IH.
    + apply alike_undefined.
Qed.

End Alike.

Create HintDb alike.
#[export] Hint Resolve alike_ret alike_undefined alike_beginTransmission
  alike_write alike_endTransmission alike_requestFrom alike_available
  alike_read alike_wire_begin alike_delay alike_read_loop : alike.

(** One step of a proof that two computations are alike. *)
Ltac alike_step :=
  match goal with
  | |- alike (bind _ _) (bind _ _) => apply alike_bind; [| intros ?]
  | |- alike (when _ _) (when _ _) =>
      apply alike_console; auto 10 with console
  | |- alike (if ?c then _ else _) (if ?c then _ else _) => destruct c
  | |- alike (let (_, _) := ?x in _) (let (_, _) := ?x in _) => destruct x
  | |- alike (match ?x with Some _ => _ | None => _ end)
             (match ?x with Some _ => _ | None => _ end) => destruct x
  | |- alike _ _ => solve [auto with alike]
  end.

Section DebugFlag.
Context {W : Type} {bus : TwoWire W} {decls : Sht3xDecls}.
Variable dev : cSHT_3x.
Variables d1 d2 : bool.

Lemma alike_writeCommand (c : Command) :
  alike (writeCommand (with_debug dev d1) c)
        (writeCommand (with_debug dev d2) c).
Proof.
  unfold writeCommand.
  cbn [getAddress isDebug m_address m_debug m_noCrc with_debug].
  repeat alike_step.
Qed.

Lemma alike_readResponse (buf : option (list Z)) (nBuf : Z) :
  alike (readResponse (with_debug dev d1) buf nBuf)
        (readResponse (with_debug dev d2) buf nBuf).
Proof.
  unfold readResponse.
  cbn [getAddress isDebug m_address m_debug m_noCrc with_debug].
  destruct buf as [arr |]; repeat alike_step.
Qed.

Lemma processResultsRaw_with_debug (d : bool) (buf : list Z) (t rh : Z) :
  processResultsRaw (with_debug dev d) buf t rh
  = processResultsRaw dev buf t rh.
Proof. reflexivity. Qed.

End DebugFlag.

#[export] Hint Resolve alike_writeCommand alike_readResponse : alike.

(** X10: the debug flag is observational only.  Two handles that differ
    in nothing but the debug flag, started in worlds with the same bus
    state and the same bus calls and delays so far, are both undefined or
    return the same value and again leave the same bus state and the same
    bus calls and delays: this holds for every operation of the driver. *)
Theorem debug_flag_is_observational :
  forall {W : Type} {bus : TwoWire W} {decls : Sht3xDecls}
         (dev : cSHT_3x) (d1 d2 : bool),
    (forall c,
        alike (writeCommand (with_debug dev d1) c)
              (writeCommand (with_debug dev d2) c)) /\
    (forall buf nBuf,
        alike (readResponse (with_debug dev d1) buf nBuf)
              (readResponse (with_debug dev d2) buf nBuf)) /\
    alike (reset (with_debug dev d1)) (reset (with_debug dev d2)) /\
    alike (begin (with_debug dev d1)) (begin (with_debug dev d2)) /\
    alike (end_ (with_debug dev d1)) (end_ (with_debug dev d2)) /\
    (forall ind,
        alike (getStatus (with_debug dev d1) ind)
              (getStatus (with_debug dev d2) ind)) /\
    (forall ind t rh r,
        alike (getTemperatureHumidityRaw (with_debug dev d1) ind t rh r)
              (getTemperatureHumidityRaw (with_debug dev d2) ind t rh r)) /\
    (forall ind t rh r,
        alike (getTemperatureHumidity (with_debug dev d1) ind t rh r)
              (getTemperatureHumidity (with_debug dev d2) ind t rh r)) /\
    (forall c,
        alike (startPeriodicMeasurement (with_debug dev d1) c)
              (startPeriodicMeasurement (with_debug dev d2) c)) /\
    (forall ind tfrac rhfrac,
        alike (getPeriodicMeasurementRaw (with_debug dev d1) ind tfrac rhfrac)
              (getPeriodicMeasurementRaw (with_debug dev d2) ind tfrac rhfrac))
    /\
    (forall ind t rh,
        alike (getPeriodicMeasurement (with_debug dev d1) ind t rh)
              (getPeriodicMeasurement (with_debug dev d2) ind t rh)).
Proof.
  intros W bus decls dev d1 d2.
  assert (Hreset : alike (reset (with_debug dev d1))
                         (reset (with_debug dev d2))).
  { unfold reset. repeat alike_step. }
  assert (Hraw : forall ind t rh r,
             alike (getTemperatureHumidityRaw (with_debug dev d1) ind t rh r)
                   (getTemperatureHumidityRaw (with_debug dev d2) ind t rh r)).
  { intros ind t rh r. unfold getTemperatureHumidityRaw.
    cbn [getAddress isDebug m_address m_debug m_noCrc with_debug].
    repeat first
      [ alike_step
      | progress (rewrite !processResultsRaw_eq;
                  cbn [m_noCrc with_debug]; cbv beta iota) ]. }
  assert (Hfetch : forall ind tfrac rhfrac,
             alike (getPeriodicMeasurementRaw (with_debug dev d1) ind
                                              tfrac rhfrac)
                   (getPeriodicMeasurementRaw (with_debug dev d2) ind
                                              tfrac rhfrac)).
  { intros ind tfrac rhfrac. unfold getPeriodicMeasurementRaw.
    repeat first
      [ alike_step
      | progress (rewrite !processResultsRaw_eq;
                  cbn [m_noCrc with_debug]; cbv beta iota) ]. }
  repeat split.
  - apply alike_writeCommand.
  - apply alike_readResponse.
  - exact Hreset.
  - unfold begin. apply alike_bind; [apply alike_wire_begin |].
    intros _. exact Hreset.
  - unfold end_. apply alike_bind; [exact Hreset |].
    intros _. apply alike_ret.
  - intros ind. unfold getStatus.
    cbn [getAddress isDebug m_address m_debug m_noCrc with_debug].
    repeat alike_step.
  - exact Hraw.
  - intros ind t rh r. unfold getTemperatureHumidity.
    apply alike_bind; [apply Hraw |].
    intros [[ok tf] rf]. repeat alike_step.
  - intros c. unfold startPeriodicMeasurement. repeat alike_step.
  - exact Hfetch.
  - intros ind t rh. unfold getPeriodicMeasurement.
    apply alike_bind; [apply Hfetch |].
    intros [[ok tf] rf]. repeat alike_step.
Qed.

(* ------------------------------------------------------------------ *)
(** * What a successful read puts on the bus *)
(* ------------------------------------------------------------------ *)

Section Sequences.
Context {W : Type} {bus : TwoWire W} {decls : Sht3xDecls}.
Variable dev : cSHT_3x.

(** A successful [readResponse] into an array of [nBuf] bytes. *)
Lemma readResponse_true_trace (arr buf : list Z) (nBuf : Z)
      (w w2 : World W) :
  0 <= getAddress dev ->
  0 <= nBuf <= 32 ->
  Z.of_nat (List.length arr) = nBuf ->
  readResponse dev (Some arr) nBuf w = Some ((true, Some buf), w2) ->
  exists got a vs,
    to_u32 a = nBuf /\
    Z.of_nat (List.length vs) = nBuf /\
    buf = map to_u8 vs /\
    io_calls (trace w2)
    = io_calls (trace w)
        ++ [EvRequestFrom (to_u8 (getAddress dev)) nBuf got; EvAvailable a]
        ++ map EvRead vs.
Proof.
  intros Haddr Hn Hlen Hr.
  destruct (tw_requestFrom (to_u8 (getAddress dev)) nBuf (wire w))
    as [got b1] eqn:Hreq.
  destruct (tw_available b1) as [a b2] eqn:Hav.
  destruct (readResponse_run dev arr nBuf w got a b1 b2 Hn Haddr Hreq Hav)
    as [w3 [Hw3 [Hio3 Hrun]]].
  destruct (read_loop (Z.to_nat (to_u32 a)) 0 arr w3)
    as [[arr' w4] |] eqn:Hloop.
  2:{ rewrite Hrun in Hr. discriminate Hr. }
  destruct Hrun as [w' [Hrun Hq]].
  rewrite Hrun in Hr. injection Hr as Hflag Harr Hw'.
  subst arr' w'. apply Z.eqb_eq in Hflag.
  rewrite read_loop_closed in Hloop by lia.
  injection Hloop as Hbuf Hw4.
  exists got, a, (fst (reads (Z.to_nat (to_u32 a)) (wire w3))).
  split; [exact Hflag |]. split; [| split].
  - rewrite reads_length. lia.
  - rewrite <- Hbuf, skipn_all2 by lia. apply app_nil_r.
  - rewrite (no_io_calls _ _ Hq), <- Hw4. cbn [trace].
    rewrite io_calls_app, io_calls_reads, Hio3, <- app_assoc.
    reflexivity.
Qed.

(** X11: a successful single-shot measurement puts on the bus, in this
    order and nothing else: the command frame, a 20 ms delay, one request
    for 6 bytes, one [available], and 6 reads; the raw outputs are the
    big-endian words of the first two and of the fourth and fifth byte
    read. *)
Theorem single_shot_sequence :
  forall (ind : Indet) (t rh : Z) (r : Repeatability) (w : World W)
         (buf : list Z),
    single_shot_stages_succeed dev ind r w buf ->
    exists status got a vs w',
      getTemperatureHumidityRaw dev ind t rh r w
      = Some ((true, be16 (at_ buf 0) (at_ buf 1),
                     be16 (at_ buf 3) (at_ buf 4)), w') /\
      buf = map to_u8 vs /\
      List.length vs = 6%nat /\
      to_u8 status = 0 /\
      to_u32 a = 6 /\
      io_calls (trace w')
      = io_calls (trace w)
          ++ write_events dev (single_shot_command r) status
          ++ [EvDelay 20;
              EvRequestFrom (to_u8 (getAddress dev)) 6 got;
              EvAvailable a]
          ++ map EvRead vs.
Proof.
  intros ind t rh r w buf Hok.
  destruct (Raw_succeeds dev ind r w t rh buf Hok) as [w' Hraw].
  pose proof Hok as [Hc [w1 [w2 [Hw [Hr Hcrc]]]]].
  destruct (writeCommand_true dev _ _ _ Hw)
    as [Haddr [_ [status [b' [Hend [Hst Hw1]]]]]].
  destruct (readResponse_true_trace (local_buf ind 6) buf 6
              (log (EvDelay 20) w1) w2 Haddr)
    as [got [a [vs [Ha [Hlen [Hbuf Hio]]]]]];
    [lia | rewrite local_buf_length; reflexivity | exact Hr |].
  destruct (Raw_after_read dev ind t rh r w w1 w2 buf Hc Hw Hr)
    as [w'' [Hraw' Hq]].
  rewrite Hraw in Hraw'. injection Hraw' as _ Hw''. subst w''.
  exists status, got, a, vs, w'.
  split; [exact Hraw |]. split; [exact Hbuf |].
  split; [lia |]. split; [exact Hst |]. split; [exact Ha |].
  rewrite (no_io_calls _ _ Hq), Hio. cbn [log trace].
  rewrite Hw1. cbn [trace].
  rewrite !io_calls_app. cbn. rewrite <- !app_assoc. reflexivity.
Qed.

Lemma Fetch_succeeds (ind : Indet) (tfrac rhfrac : Z) (w : World W)
      (buf : list Z) :
  fetch_stages_succeed dev ind w buf ->
  exists w',
    getPeriodicMeasurementRaw dev ind tfrac rhfrac w
    = Some ((true, be16 (at_ buf 0) (at_ buf 1),
                   be16 (at_ buf 3) (at_ buf 4)), w').
Proof.
  intros [w1 [w2 [Hw [Hr Hcrc]]]]. exists w2.
  unfold getPeriodicMeasurementRaw.
  rewrite (bind_run _ _ _ _ _ Hw). cbv iota.
  rewrite (bind_run _ _ w1 w2 (true, buf)).
  2:{ rewrite (bind_run _ _ _ _ _ Hr). reflexivity. }
  rewrite processResultsRaw_eq.
  assert (Hacc : m_noCrc dev || checksums_match buf = true).
  { destruct Hcrc as [H | H]; rewrite H; [reflexivity | apply orb_true_r]. }
  rewrite Hacc. reflexivity.
Qed.

(** X12: a successful fetch of a periodic measurement puts on the bus, in
    this order and nothing else: the Fetch frame, one request for 6 bytes
    (with no delay before it), one [available], and 6 reads. *)
Theorem fetch_sequence :
  forall (ind : Indet) (tfrac rhfrac : Z) (w : World W) (buf : list Z),
    fetch_stages_succeed dev ind w buf ->
    exists status got a vs w',
      getPeriodicMeasurementRaw dev ind tfrac rhfrac w
      = Some ((true, be16 (at_ buf 0) (at_ buf 1),
                     be16 (at_ buf 3) (at_ buf 4)), w') /\
      buf = map to_u8 vs /\
      List.length vs = 6%nat /\
      to_u8 status = 0 /\
      to_u32 a = 6 /\
      io_calls (trace w')
      = io_calls (trace w)
          ++ write_events dev Command_Fetch status
          ++ [EvRequestFrom (to_u8 (getAddress dev)) 6 got; EvAvailable a]
          ++ map EvRead vs.
Proof.
  intros ind tfrac rhfrac w buf [w1 [w2 [Hw [Hr Hcrc]]]].
  destruct (writeCommand_true dev _ _ _ Hw)
    as [Haddr [_ [status [b' [Hend [Hst Hw1]]]]]].
  destruct (readResponse_true_trace (local_buf ind 6) buf 6 w1 w2 Haddr)
    as [got [a [vs [Ha [Hlen [Hbuf Hio]]]]]];
    [lia | rewrite local_buf_length; reflexivity | exact Hr |].
  exists status, got, a, vs, w2.
  split; [| split; [exact Hbuf | split; [lia | split; [exact Hst |
          split; [exact Ha |]]]]].
  - unfold getPeriodicMeasurementRaw.
    rewrite (bind_run _ _ _ _ _ Hw). cbv iota.
    rewrite (bind_run _ _ w1 w2 (true, buf)).
    2:{ rewrite (bind_run _ _ _ _ _ Hr). reflexivity. }
    rewrite processResultsRaw_eq.
    assert (Hacc : m_noCrc dev || checksums_match buf = true).
    { destruct Hcrc as [H | H]; rewrite H; [reflexivity | apply orb_true_r]. }
    rewrite Hacc. reflexivity.
  - rewrite Hio, Hw1. cbn [trace].
    rewrite !io_calls_app. cbn. rewrite <- !app_assoc. reflexivity.
Qed.

End Sequences.

Lemma single_shot_sequence_witness :
  exists status got a vs w',
    getTemperatureHumidityRaw (decls := SimDecls.decls) SimDecls.sensor
      SimDecls.leftovers 0 0 Sim.High
      (Sim.start [] [SimDecls.good_response])
    = Some ((true, be16 (at_ SimDecls.good_response 0)
                        (at_ SimDecls.good_response 1),
                   be16 (at_ SimDecls.good_response 3)
                        (at_ SimDecls.good_response 4)), w') /\
    SimDecls.good_response = map to_u8 vs /\
    List.length vs = 6%nat /\
    to_u8 status = 0 /\
    to_u32 a = 6 /\
    io_calls (trace w')
    = io_calls (trace (Sim.start [] [SimDecls.good_response]))
        ++ write_events SimDecls.sensor
             (single_shot_command (decls := SimDecls.decls) Sim.High) status
        ++ [EvDelay 20;
            EvRequestFrom (to_u8 (getAddress SimDecls.sensor)) 6 got;
            EvAvailable a]
        ++ map EvRead vs.
Proof.
  apply (single_shot_sequence (decls := SimDecls.decls) SimDecls.sensor
           SimDecls.leftovers 0 0 Sim.High
           (Sim.start [] [SimDecls.good_response]) SimDecls.good_response).
  split; [vm_compute; discriminate |].
  eexists. eexists.
  split; [lazy; reflexivity | split; [lazy; reflexivity |]].
  right. reflexivity.
Defined.

Lemma fetch_sequence_witness :
  exists status got a vs w',
    getPeriodicMeasurementRaw (decls := SimDecls.decls) SimDecls.sensor
      SimDecls.leftovers 0 0 (Sim.start [] [SimDecls.good_response])
    = Some ((true, be16 (at_ SimDecls.good_response 0)
                        (at_ SimDecls.good_response 1),
                   be16 (at_ SimDecls.good_response 3)
                        (at_ SimDecls.good_response 4)), w') /\
    SimDecls.good_response = map to_u8 vs /\
    List.length vs = 6%nat /\
    to_u8 status = 0 /\
    to_u32 a = 6 /\
    io_calls (trace w')
    = io_calls (trace (Sim.start [] [SimDecls.good_response]))
        ++ write_events SimDecls.sensor
             (Command_Fetch (Sht3xDecls := SimDecls.decls)) status
        ++ [EvRequestFrom (to_u8 (getAddress SimDecls.sensor)) 6 got;
            EvAvailable a]
        ++ map EvRead vs.
Proof.
  apply (fetch_sequence (decls := SimDecls.decls) SimDecls.sensor
           SimDecls.leftovers 0 0
           (Sim.start [] [SimDecls.good_response]) SimDecls.good_response).
  eexists. eexists.
  split; [lazy; reflexivity | split; [lazy; reflexivity |]].
  right. reflexivity.
Defined.

(* ------------------------------------------------------------------ *)
(** * Failures before a response *)
(* ------------------------------------------------------------------ *)

Section EarlyFailures.
Context {W : Type} {bus : TwoWire W} {decls : Sht3xDecls}.
Variable dev : cSHT_3x.

Lemma Fetch_write_failed (ind : Indet) (tfrac rhfrac : Z) (w w1 : World W) :
  writeCommand dev Command_Fetch w = Some (false, w1) ->
  getPeriodicMeasurementRaw dev ind tfrac rhfrac w
  = Some ((false, tfrac, rhfrac), w1).
Proof.
  intros Hw. unfold getPeriodicMeasurementRaw.
  rewrite (bind_run _ _ _ _ _ Hw). reflexivity.
Qed.

Lemma Fetch_read_failed (ind : Indet) (tfrac rhfrac : Z) (w w1 w2 : World W)
      (b : option (list Z)) :
  writeCommand dev Command_Fetch w = Some (true, w1) ->
  readResponse dev (Some (local_buf ind 6)) 6 w1 = Some ((false, b), w2) ->
  getPeriodicMeasurementRaw dev ind tfrac rhfrac w
  = Some ((false, tfrac, rhfrac), w2).
Proof.
  intros Hw Hr. unfold getPeriodicMeasurementRaw.
  rewrite (bind_run _ _ _ _ _ Hw). cbv iota.
  erewrite (bind_run _ _ w1 w2 (false, _)).
  2:{ rewrite (bind_run _ _ _ _ _ Hr). reflexivity. }
  reflexivity.
Qed.

End EarlyFailures.

(** X13: a command write that fails ends the operation: [getStatus], the
    single-shot measurement, the periodic fetch, [reset] and
    [startPeriodicMeasurement] (at its Break command) report failure with
    the bus state of the failed write and no further bus call or delay; no
    read is requested, no delay is made, no second command is written. *)
Theorem failed_write_ends_operation :
  forall {W : Type} {bus : TwoWire W} {decls : Sht3xDecls}
         (dev : cSHT_3x) (ind : Indet) (w w1 : World W),
    (writeCommand dev Command_GetStatus w = Some (false, w1) ->
     getStatus dev ind w = Some (Status_invalid, w1)) /\
    (forall t rh r,
        single_shot_command r <> Command_Error ->
        writeCommand dev (single_shot_command r) w = Some (false, w1) ->
        exists w',
          getTemperatureHumidityRaw dev ind t rh r w
          = Some ((false, t, rh), w') /\
          wire w' = wire w1 /\
          io_calls (trace w') = io_calls (trace w1)) /\
    (forall tfrac rhfrac,
        writeCommand dev Command_Fetch w = Some (false, w1) ->
        getPeriodicMeasurementRaw dev ind tfrac rhfrac w
        = Some ((false, tfrac, rhfrac), w1)) /\
    (writeCommand dev Command_SoftReset w = Some (false, w1) ->
     reset dev w = Some (false, w1)) /\
    (forall c,
        to_u32 (PeriodicityToMillis (getPeriodicity c)) <> 0 ->
        writeCommand dev Command_Break w = Some (false, w1) ->
        startPeriodicMeasurement dev c w = Some (0, w1)).
Proof.
  intros W bus decls dev ind w w1.
  split; [| split; [| split; [| split]]].
  - intros Hw. exact (getStatus_write_failed dev ind w w1 Hw).
  - intros t rh r Hc Hw.
    destruct (Raw_write_failed dev ind t rh r w w1 Hc Hw) as [w' [Hrun Hq]].
    exists w'. split; [exact Hrun |].
    split; [exact (proj1 Hq) | exact (no_io_calls _ _ Hq)].
  - intros tfrac rhfrac Hw.
    exact (Fetch_write_failed dev ind tfrac rhfrac w w1 Hw).
  - intros Hw. unfold reset. rewrite (bind_run _ _ _ _ _ Hw). reflexivity.
  - intros c Hms Hw. unfold startPeriodicMeasurement.
    apply Z.eqb_neq in Hms. rewrite Hms.
    rewrite (bind_run _ _ _ _ _ Hw). reflexivity.
Qed.

Lemma failed_write_ends_operation_witness :
  getStatus (decls := SimDecls.decls) SimDecls.sensor SimDecls.zeros
            (Sim.start [2] [[0; 0; 0x81]])
  = Some (Status_invalid,
          mkWorld (Sim.mkSim [] [[0; 0; 0x81]] [])
                  (write_events SimDecls.sensor 0xF32D 2)).
Proof.
  apply (proj1 (failed_write_ends_operation
                  (decls := SimDecls.decls) SimDecls.sensor SimDecls.zeros
                  (Sim.start [2] [[0; 0; 0x81]])
                  (mkWorld (Sim.mkSim [] [[0; 0; 0x81]] [])
                           (write_events SimDecls.sensor 0xF32D 2)))).
  reflexivity.
Defined.

(** X14: the single-shot measurement and the periodic fetch assign their
    output parameters only after a complete response was read: when the
    encoding, the command write or the read fails, they return [false]
    and the outputs hold what the caller passed in. *)
Theorem raw_outputs_kept_without_response :
  forall {W : Type} {bus : TwoWire W} {decls : Sht3xDecls}
         (dev : cSHT_3x) (ind : Indet) (t rh : Z) (w : World W),
    (forall r,
        single_shot_command r = Command_Error \/
        (single_shot_command r <> Command_Error /\
         exists w1,
           writeCommand dev (single_shot_command r) w = Some (false, w1)) \/
        (single_shot_command r <> Command_Error /\
         exists w1 b w2,
           writeCommand dev (single_shot_command r) w = Some (true, w1) /\
           readResponse dev (Some (local_buf ind 6)) 6 (log (EvDelay 20) w1)
           = Some ((false, b), w2)) ->
        exists w',
          getTemperatureHumidityRaw dev ind t rh r w
          = Some ((false, t, rh), w')) /\
    ((exists w1, writeCommand dev Command_Fetch w = Some (false, w1)) \/
     (exists w1 b w2,
         writeCommand dev Command_Fetch w = Some (true, w1) /\
         readResponse dev (Some (local_buf ind 6)) 6 w1
         = Some ((false, b), w2)) ->
     exists w',
       getPeriodicMeasurementRaw dev ind t rh w = Some ((false, t, rh), w')).
Proof.
  intros W bus decls dev ind t rh w. split.
  - intros r [Herr | [[Hc [w1 Hw]] | [Hc [w1 [b [w2 [Hw Hr]]]]]]].
    + destruct (Raw_encoding_error dev ind t rh r w Herr) as [w' [H _]].
      exists w'. exact H.
    + destruct (Raw_write_failed dev ind t rh r w w1 Hc Hw) as [w' [H _]].
      exists w'. exact H.
    + destruct (Raw_read_failed dev ind t rh r w w1 w2 b Hc Hw Hr)
        as [w' [H _]].
      exists w'. exact H.
  - intros [[w1 Hw] | [w1 [b [w2 [Hw Hr]]]]].
    + exists w1. exact (Fetch_write_failed dev ind t rh w w1 Hw).
    + exists w2. exact (Fetch_read_failed dev ind t rh w w1 w2 b Hw Hr).
Qed.

Lemma raw_outputs_kept_without_response_witness :
  exists w',
    getTemperatureHumidityRaw (decls := SimDecls.decls) SimDecls.sensor
      SimDecls.leftovers 11 22 Sim.High (Sim.start [] [[0x66; 0x66; 0x93]])
    = Some ((false, 11, 22), w').
Proof.
  apply (proj1 (raw_outputs_kept_without_response
                  (decls := SimDecls.decls) SimDecls.sensor
                  SimDecls.leftovers 11 22
                  (Sim.start [] [[0x66; 0x66; 0x93]])) Sim.High).
  right. right. split; [vm_compute; discriminate |].
  eexists. eexists. eexists.
  split; [lazy; reflexivity | lazy; reflexivity].
Defined.

(* ------------------------------------------------------------------ *)
(** * The heater flag *)
(* ------------------------------------------------------------------ *)

Section HeaterFlag.
Context {W : Type} {bus : TwoWire W} {decls : Sht3xDecls}.
Variable isHeaterOn : Status_t -> bool.
Variable dev : cSHT_3x.

Lemma getStatus_fails (ind : Indet) (w : World W) :
  status_stage_fails dev ind w ->
  exists w', getStatus dev ind w = Some (Status_invalid, w').
Proof.
  intros [[w1 Hw] | [[w1 [b [w2 [Hw Hr]]]]
                    | [w1 [buf [w2 [Hw [Hr [Hcheck Hcrc]]]]]]]].
  - exists w1. exact (getStatus_write_failed dev ind w w1 Hw).
  - destruct (readResponse_array dev _ _ _ _ _ _ Hr) as [arr ->].
    exists w2.
    rewrite (getStatus_after_read dev ind w w1 w2 false arr Hw Hr).
    reflexivity.
  - exists w2.
    rewrite (getStatus_after_read dev ind w w1 w2 true buf Hw Hr).
    unfold status_of. rewrite Hcheck.
    apply Z.eqb_neq in Hcrc. rewrite Hcrc. reflexivity.
Qed.

End HeaterFlag.

(** X15: [getHeater] returns [false] whenever reading the status fails
    (the GetStatus write, the 3-byte read or the checksum comparison),
    without asking [isHeaterOn]; when the status is read it returns what
    [isHeaterOn] says of the valid status word.  A [false] result alone
    therefore does not tell a heater that is off from a failed read. *)
Theorem getHeater_contract :
  forall {W : Type} {bus : TwoWire W} {decls : Sht3xDecls}
         (isHeaterOn : Status_t -> bool) (dev : cSHT_3x) (ind : Indet)
         (w : World W),
    (status_stage_fails dev ind w ->
     exists w', getHeater isHeaterOn dev ind w = Some (false, w')) /\
    (forall w1 buf w2,
        writeCommand dev Command_GetStatus w = Some (true, w1) ->
        readResponse dev (Some (local_buf ind 3)) 3 w1
        = Some ((true, Some buf), w2) ->
        m_noCrc dev = true \/
        Crc.crc (firstn 2 buf) Crc.crc_init = at_ buf 2 ->
        getHeater isHeaterOn dev ind w
        = Some (isHeaterOn (Status_valid (be16 (at_ buf 0) (at_ buf 1))),
                w2)).
Proof.
  intros W bus decls isHeaterOn dev ind w. split.
  - intros Hfail.
    destruct (getStatus_fails dev ind w Hfail) as [w' Hst].
    exists w'. unfold getHeater.
    rewrite (bind_run _ _ _ _ _ Hst). reflexivity.
  - intros w1 buf w2 Hw Hr Hcrc. unfold getHeater.
    rewrite (bind_run _ _ _ _ _
               (getStatus_after_read dev ind w w1 w2 true buf Hw Hr)).
    unfold status_of. cbn [andb].
    assert (Hacc : m_noCrc dev
                   || (Crc.crc (firstn 2 buf) Crc.crc_init =? at_ buf 2)
                   = true).
    { destruct Hcrc as [H | H].
      - rewrite H. reflexivity.
      - apply Z.eqb_eq in H. rewrite H. apply orb_true_r. }
    rewrite Hacc. cbn [Status_isValid andb].
    destruct (isHeaterOn _); reflexivity.
Qed.

Lemma getHeater_contract_witness :
  exists w',
    getHeater (decls := SimDecls.decls) (fun _ => true) SimDecls.sensor
              SimDecls.zeros (Sim.start [] [[0x20; 0x00; 0x00]])
    = Some (false, w').
Proof.
  apply (proj1 (getHeater_contract
                  (decls := SimDecls.decls) (fun _ => true) SimDecls.sensor
                  SimDecls.zeros (Sim.start [] [[0x20; 0x00; 0x00]]))).
  right. right. eexists. exists [0x20; 0x00; 0x00]. eexists.
  split; [lazy; reflexivity | split; [lazy; reflexivity |]].
  split; [reflexivity | vm_compute; discriminate].
Defined.

(* ------------------------------------------------------------------ *)
(** * Reset, begin and end *)
(* ------------------------------------------------------------------ *)

Section ResetBeginEnd.
Context {W : Type} {bus : TwoWire W} {decls : Sht3xDecls}.
Variable dev : cSHT_3x.

(** [reset] to a non-negative address, in full. *)
Lemma reset_run (w : World W) :
  0 <= getAddress dev ->
  exists status w',
    reset dev w = Some (to_u8 status =? 0, w') /\
    io_calls (trace w')
    = io_calls (trace w)
        ++ write_events dev Command_SoftReset status
        ++ (if to_u8 status =? 0 then [EvDelay 10] else []).
Proof.
  intros Haddr.
  destruct (tw_endTransmission
              (tw_write (to_u8 (Z.land (to_u16 Command_SoftReset) 0xFF))
                 (tw_write (to_u8 (Z.shiftr (to_u16 Command_SoftReset) 8))
                    (tw_beginTransmission (getAddress dev) (wire w)))))
    as [status b'] eqn:Hend.
  destruct (writeCommand_run dev Command_SoftReset w status b' Haddr Hend)
    as [w1 [Hrun [_ [Hio _]]]].
  unfold reset. rewrite (bind_run _ _ _ _ _ Hrun).
  destruct (to_u8 status =? 0) eqn:Hs.
  - exists status, (log (EvDelay 10) w1). rewrite Hs.
    split; [reflexivity |].
    cbn [log trace]. rewrite io_calls_app, Hio, <- app_assoc. reflexivity.
  - exists status, w1. rewrite Hs. split; [reflexivity |].
    rewrite Hio, app_nil_r. reflexivity.
Qed.

End ResetBeginEnd.

(** X16: with a non-negative address, [reset] sends the SoftReset frame
    in one transaction, returns [true] exactly when it was acknowledged
    and waits 10 ms only then; [begin] starts the bus first and then does
    the same; [end] leaves the world [reset] leaves.  With a negative
    address [begin] still starts the bus, then returns [false] without a
    transaction. *)
Theorem reset_begin_end :
  forall {W : Type} {bus : TwoWire W} {decls : Sht3xDecls}
         (dev : cSHT_3x) (w : World W),
    (0 <= getAddress dev ->
     (exists status w',
         reset dev w = Some (to_u8 status =? 0, w') /\
         io_calls (trace w')
         = io_calls (trace w)
             ++ write_events dev Command_SoftReset status
             ++ (if to_u8 status =? 0 then [EvDelay 10] else [])) /\
     (exists status w',
         begin dev w = Some (to_u8 status =? 0, w') /\
         io_calls (trace w')
         = io_calls (trace w)
             ++ [EvWireBegin]
             ++ write_events dev Command_SoftReset status
             ++ (if to_u8 status =? 0 then [EvDelay 10] else []))) /\
    (getAddress dev < 0 ->
     exists w',
       begin dev w = Some (false, w') /\
       wire w' = tw_begin (wire w) /\
       io_calls (trace w') = io_calls (trace w) ++ [EvWireBegin]) /\
    end_ dev w = option_map (fun r => (tt, snd r)) (reset dev w).
Proof.
  intros W bus decls dev w.
  split; [| split].
  - intros Haddr. split; [exact (reset_run dev w Haddr) |].
    destruct (reset_run dev
                (mkWorld (tw_begin (wire w)) (trace w ++ [EvWireBegin]))
                Haddr) as [status [w' [Hrun Hio]]].
    exists status, w'. split.
    + unfold begin, bind, wire_begin. exact Hrun.
    + rewrite Hio. cbn [trace]. rewrite io_calls_app, <- !app_assoc.
      reflexivity.
  - intros Haddr.
    destruct (writeCommand_bad_address dev Command_SoftReset
                (mkWorld (tw_begin (wire w)) (trace w ++ [EvWireBegin]))
                Haddr) as [w' [Hrun Hq]].
    exists w'. split; [| split].
    + unfold begin, bind, wire_begin, reset.
      fold (bind (writeCommand dev Command_SoftReset)
              (fun ok : bool =>
                 if ok then bind (delay 10) (fun _ => ret true)
                 else ret false)
              (mkWorld (tw_begin (wire w)) (trace w ++ [EvWireBegin]))).
      rewrite (bind_run _ _ _ _ _ Hrun). reflexivity.
    + exact (proj1 Hq).
    + rewrite (no_io_calls _ _ Hq). cbn [trace].
      rewrite io_calls_app. reflexivity.
  - unfold end_, bind.
    destruct (reset dev w) as [[ok w'] |]; reflexivity.
Qed.

Lemma reset_begin_end_witness :
  exists w',
    begin (decls := SimDecls.decls) SimDecls.sensor_bad_address
          (Sim.start [] [])
    = Some (false, w') /\
    wire w' = tw_begin (wire (Sim.start [] [])) /\
    io_calls (trace w') = io_calls (trace (Sim.start [] [])) ++ [EvWireBegin].
Proof.
  apply (proj1 (proj2 (reset_begin_end
                         (decls := SimDecls.decls)
                         SimDecls.sensor_bad_address (Sim.start [] [])))).
  simpl. lia.
Defined.

(* ------------------------------------------------------------------ *)
(** * Periodic measurement: the contract the code keeps *)
(* ------------------------------------------------------------------ *)

Section FetchOutcome.
Context {W : Type} {bus : TwoWire W} {decls : Sht3xDecls}.
Variable dev : cSHT_3x.
Variable ind : Indet.
Variable w : World W.

Lemma fetch_stages_total :
  BusContract bus ->
  fetch_stage_fails dev ind w \/
  exists buf, fetch_stages_succeed dev ind w buf.
Proof.
  intros Hbus. unfold fetch_stage_fails, fetch_stages_succeed.
  destruct (writeCommand_defined dev Command_Fetch w) as [[|] [w1 Hw]].
  2:{ left. left. exists w1. exact Hw. }
  destruct (readResponse_defined dev (local_buf ind 6) 6 w1 Hbus)
    as [okr [buf [w2 [Hr _]]]].
  { rewrite local_buf_length. lia. }
  destruct okr.
  2:{ left. right. left. exists w1, (Some buf), w2. split; assumption. }
  destruct (m_noCrc dev) eqn:Hskip.
  { right. exists buf, w1, w2.
    split; [exact Hw | split; [exact Hr |]]. left. reflexivity. }
  destruct (checksums_match buf) eqn:Hcrc.
  - right. exists buf, w1, w2.
    split; [exact Hw | split; [exact Hr |]]. right. exact Hcrc.
  - left. right. right. exists w1, buf, w2.
    split; [exact Hw | split; [exact Hr | split; [reflexivity | exact Hcrc]]].
Qed.

Lemma getPeriodicMeasurement_succeeds (t rh : cfloat) (buf : list Z) :
  fetch_stages_succeed dev ind w buf ->
  exists w',
    getPeriodicMeasurement dev ind t rh w
    = Some ((true, rawTtoCelsius (be16 (at_ buf 0) (at_ buf 1)),
                   rawRHtoPercent (be16 (at_ buf 3) (at_ buf 4))), w').
Proof.
  intros Hok.
  destruct (Fetch_succeeds dev ind (ind_tfrac ind) (ind_rhfrac ind) w buf Hok)
    as [w' Hrun].
  exists w'. unfold getPeriodicMeasurement.
  rewrite (bind_run _ _ _ _ _ Hrun). reflexivity.
Qed.

End FetchOutcome.

(** X17: what [getPeriodicMeasurement] does on every bus that keeps its
    contract: it returns; if a stage fails (Fetch write, 6-byte read,
    validation) the result is [false] and [t] and [rh] hold what the
    caller passed in; if all stages succeed the result is [true], [t] is
    [rawTtoCelsius] and [rh] is [rawRHtoPercent] of the big-endian
    fractions of the response; one of the two is always the case. *)
Theorem getPeriodicMeasurement_contract :
  forall {W : Type} {bus : TwoWire W} {decls : Sht3xDecls}
         (dev : cSHT_3x) (ind : Indet) (t rh : cfloat) (w : World W),
    BusContract bus ->
    exists ok t' rh' w',
      getPeriodicMeasurement dev ind t rh w = Some ((ok, t', rh'), w') /\
      (fetch_stage_fails dev ind w -> ok = false /\ t' = t /\ rh' = rh) /\
      (forall buf,
          fetch_stages_succeed dev ind w buf ->
          ok = true /\
          t' = rawTtoCelsius (be16 (at_ buf 0) (at_ buf 1)) /\
          rh' = rawRHtoPercent (be16 (at_ buf 3) (at_ buf 4))) /\
      (fetch_stage_fails dev ind w \/
       exists buf, fetch_stages_succeed dev ind w buf).
Proof.
  intros W bus decls dev ind t rh w Hbus.
  assert (Hrun : exists ok t' rh' w',
             getPeriodicMeasurement dev ind t rh w
             = Some ((ok, t', rh'), w')).
  { destruct (fetch_stages_total dev ind w Hbus) as [Hf | [buf Hs]].
    - destruct (getPeriodicMeasurement_fails dev ind w t rh Hf) as [w' H].
      exists false, t, rh, w'. exact H.
    - destruct (getPeriodicMeasurement_succeeds dev ind w t rh buf Hs)
        as [w' H].
      do 3 eexists. exists w'. exact H. }
  destruct Hrun as [ok [t' [rh' [w' Hrun]]]].
  exists ok, t', rh', w'. split; [exact Hrun |].
  split; [| split].
  - intros Hf.
    destruct (getPeriodicMeasurement_fails dev ind w t rh Hf) as [w'' H].
    rewrite Hrun in H. injection H as -> -> -> _.
    repeat split; reflexivity.
  - intros buf Hs.
    destruct (getPeriodicMeasurement_succeeds dev ind w t rh buf Hs)
      as [w'' H].
    rewrite Hrun in H. injection H as -> -> -> _.
    repeat split; reflexivity.
  - apply fetch_stages_total, Hbus.
Qed.

Lemma getPeriodicMeasurement_contract_witness :
  exists ok t' rh' w',
    getPeriodicMeasurement (decls := SimDecls.decls) SimDecls.sensor
      SimDecls.leftovers (f32_of_Z 1) (f32_of_Z 2)
      (Sim.start [] [SimDecls.corrupted_response])
    = Some ((ok, t', rh'), w') /\
    ok = false /\ t' = f32_of_Z 1 /\ rh' = f32_of_Z 2.
Proof.
  destruct (getPeriodicMeasurement_contract
              (decls := SimDecls.decls) SimDecls.sensor SimDecls.leftovers
              (f32_of_Z 1) (f32_of_Z 2)
              (Sim.start [] [SimDecls.corrupted_response]) sim_bus_contract)
    as [ok [t' [rh' [w' [Hrun [Hf _]]]]]].
  exists ok, t', rh', w'. split; [exact Hrun |].
  apply Hf. right. right.
  eexists. exists SimDecls.corrupted_response. eexists.
  split; [lazy; reflexivity | split; [lazy; reflexivity |]].
  split; reflexivity.
Defined.

(* ------------------------------------------------------------------ *)
(** * Periodic measurement: what reaches the bus when arming *)
(* ------------------------------------------------------------------ *)

(** X18: with a non-negative address and a non-zero interval,
    [startPeriodicMeasurement] makes one transaction for Break; if Break
    is not acknowledged the result is 0 and the start command is never
    written; if it is, one more transaction carries the start command,
    and the result is the interval exactly when that one is acknowledged
    too.  Nothing else reaches the bus. *)
Theorem startPeriodicMeasurement_bus_traffic :
  forall {W : Type} {bus : TwoWire W} {decls : Sht3xDecls}
         (dev : cSHT_3x) (c : Command) (w : World W),
    0 <= getAddress dev ->
    to_u32 (PeriodicityToMillis (getPeriodicity c)) <> 0 ->
    exists s1 w1,
      writeCommand dev Command_Break w = Some (to_u8 s1 =? 0, w1) /\
      (to_u8 s1 <> 0 ->
       startPeriodicMeasurement dev c w = Some (0, w1) /\
       io_calls (trace w1)
       = io_calls (trace w) ++ write_events dev Command_Break s1 /\
       written_bytes (trace w1)
       = written_bytes (trace w) ++ frame Command_Break) /\
      (to_u8 s1 = 0 ->
       exists s2 w2,
         startPeriodicMeasurement dev c w
         = Some ((if to_u8 s2 =? 0
                  then to_u32 (PeriodicityToMillis (getPeriodicity c))
                  else 0), w2) /\
         io_calls (trace w2)
         = io_calls (trace w) ++ write_events dev Command_Break s1
                              ++ write_events dev c s2 /\
         written_bytes (trace w2)
         = written_bytes (trace w) ++ frame Command_Break ++ frame c).
Proof.
  intros W bus decls dev c w Haddr Hms.
  destruct (tw_endTransmission
              (tw_write (to_u8 (Z.land (to_u16 Command_Break) 0xFF))
                 (tw_write (to_u8 (Z.shiftr (to_u16 Command_Break) 8))
                    (tw_beginTransmission (getAddress dev) (wire w)))))
    as [s1 b1] eqn:Hend1.
  destruct (writeCommand_run dev Command_Break w s1 b1 Haddr Hend1)
    as [w1 [Hrun1 [_ [Hio1 Hwr1]]]].
  exists s1, w1. split; [exact Hrun1 |].
  unfold startPeriodicMeasurement.
  apply Z.eqb_neq in Hms. rewrite Hms.
  rewrite (bind_run _ _ _ _ _ Hrun1).
  split.
  - intros Hs1. apply Z.eqb_neq in Hs1. rewrite Hs1. cbn [negb].
    split; [reflexivity | split; [exact Hio1 | exact Hwr1]].
  - intros Hs1. apply Z.eqb_eq in Hs1. rewrite Hs1. cbn [negb].
    destruct (tw_endTransmission
                (tw_write (to_u8 (Z.land (to_u16 c) 0xFF))
                   (tw_write (to_u8 (Z.shiftr (to_u16 c) 8))
                      (tw_beginTransmission (getAddress dev) (wire w1)))))
      as [s2 b2] eqn:Hend2.
    destruct (writeCommand_run dev c w1 s2 b2 Haddr Hend2)
      as [w2 [Hrun2 [_ [Hio2 Hwr2]]]].
    exists s2, w2. rewrite (bind_run _ _ _ _ _ Hrun2).
    split; [destruct (to_u8 s2 =? 0); reflexivity |].
    split.
    + rewrite Hio2, Hio1, <- app_assoc. reflexivity.
    + rewrite Hwr2, Hwr1, <- app_assoc. reflexivity.
Qed.

Lemma startPeriodicMeasurement_bus_traffic_witness :
  exists s1 w1,
    writeCommand SimDecls.sensor 0x3093 (Sim.start [2] [])
    = Some (to_u8 s1 =? 0, w1) /\
    (to_u8 s1 <> 0 ->
     startPeriodicMeasurement (decls := SimDecls.decls) SimDecls.sensor
                              0x2130 (Sim.start [2] [])
     = Some (0, w1)).
Proof.
  destruct (startPeriodicMeasurement_bus_traffic
              (decls := SimDecls.decls) SimDecls.sensor 0x2130
              (Sim.start [2] []))
    as [s1 [w1 [Hrun [Hnack _]]]].
  - simpl. lia.
  - vm_compute. discriminate.
  - exists s1, w1. split; [exact Hrun |].
    intros Hs1. exact (proj1 (Hnack Hs1)).
Defined.

(* ------------------------------------------------------------------ *)
(** * No store outside a buffer *)
(* ------------------------------------------------------------------ *)

(** X19: on a bus that keeps its contract no operation of the driver
    stores outside one of its buffers: every call has a defined result,
    whatever the bus answers, whatever the handle's configuration. *)
Theorem operations_defined_on_contract_bus :
  forall {W : Type} {bus : TwoWire W} {decls : Sht3xDecls}
         (dev : cSHT_3x) (ind : Indet) (w : World W),
    BusContract bus ->
    (exists r, reset dev w = Some r) /\
    (exists r, begin dev w = Some r) /\
    (exists r, end_ dev w = Some r) /\
    (exists r, getStatus dev ind w = Some r) /\
    (forall t rh r,
        exists res, getTemperatureHumidityRaw dev ind t rh r w = Some res) /\
    (forall t rh r,
        exists res, getTemperatureHumidity dev ind t rh r w = Some res) /\
    (forall c, exists res, startPeriodicMeasurement dev c w = Some res) /\
    (forall tfrac rhfrac,
        exists res,
          getPeriodicMeasurementRaw dev ind tfrac rhfrac w = Some res) /\
    (forall t rh,
        exists res, getPeriodicMeasurement dev ind t rh w = Some res).
Proof.
  intros W bus decls dev ind w Hbus.
  assert (Hreset : forall w0 : World W, exists r, reset dev w0 = Some r).
  { intros w0. unfold reset.
    destruct (writeCommand_defined dev Command_SoftReset w0)
      as [[|] [w1 Hw]]; rewrite (bind_run _ _ _ _ _ Hw);
      eexists; reflexivity. }
  split; [apply Hreset |].
  split.
  { unfold begin, bind, wire_begin. apply Hreset. }
  split.
  { unfold end_, bind. destruct (Hreset w) as [[ok w'] ->].
    eexists. reflexivity. }
  split.
  { destruct (getStatus_cases dev ind w Hbus)
      as [[w1 [_ H]] | [w1 [okr [buf [w2 [_ [_ H]]]]]]];
      eexists; exact H. }
  split.
  { intros t rh r.
    destruct (single_shot_stages_total dev ind r w Hbus) as [Hf | [buf Hs]].
    - destruct (Raw_fails dev ind r w t rh Hf) as [tf [rhf [w' H]]].
      eexists. exact H.
    - destruct (Raw_succeeds dev ind r w t rh buf Hs) as [w' H].
      eexists. exact H. }
  split.
  { intros t rh r.
    destruct (single_shot_stages_total dev ind r w Hbus) as [Hf | [buf Hs]].
    - destruct (getTemperatureHumidity_fails dev ind r w t rh Hf) as [w' H].
      eexists. exact H.
    - destruct (getTemperatureHumidity_succeeds dev ind r w t rh buf Hs)
        as [w' H].
      eexists. exact H. }
  split.
  { intros c. unfold startPeriodicMeasurement.
    destruct (to_u32 (PeriodicityToMillis (getPeriodicity c)) =? 0);
      [eexists; reflexivity |].
    destruct (writeCommand_defined dev Command_Break w) as [[|] [w1 Hw]];
      rewrite (bind_run _ _ _ _ _ Hw); cbn [negb];
      [| eexists; reflexivity].
    destruct (writeCommand_defined dev c w1) as [[|] [w2 Hw2]];
      rewrite (bind_run _ _ _ _ _ Hw2); eexists; reflexivity. }
  split.
  { intros tfrac rhfrac.
    destruct (fetch_stages_total dev ind w Hbus) as [Hf | [buf Hs]].
    - destruct (getPeriodicMeasurementRaw_fails dev ind w tfrac rhfrac Hf)
        as [tf [rhf [w' H]]].
      eexists. exact H.
    - destruct (Fetch_succeeds dev ind tfrac rhfrac w buf Hs) as [w' H].
      eexists. exact H. }
  intros t rh.
  destruct (fetch_stages_total dev ind w Hbus) as [Hf | [buf Hs]].
  - destruct (getPeriodicMeasurement_fails dev ind w t rh Hf) as [w' H].
    eexists. exact H.
  - destruct (getPeriodicMeasurement_succeeds dev ind w t rh buf Hs)
      as [w' H].
    eexists. exact H.
Qed.

Lemma operations_defined_on_contract_bus_witness :
  exists r,
    getStatus (decls := SimDecls.decls) SimDecls.sensor SimDecls.zeros
              (Sim.start [] [[1; 2; 3; 4; 5]])
    = Some r.
Proof.
  exact (proj1 (proj2 (proj2 (proj2
           (operations_defined_on_contract_bus
              (decls := SimDecls.decls) SimDecls.sensor SimDecls.zeros
              (Sim.start [] [[1; 2; 3; 4; 5]]) sim_bus_contract))))).
Defined.

(* ------------------------------------------------------------------ *)
(** * The console with the debug flag off *)
(* ------------------------------------------------------------------ *)

Section Silent.
Context {W : Type} {bus : TwoWire W}.

Lemma silent_ret {A} (a : A) : silent (W := W) (ret a).
Proof. intros w. reflexivity. Qed.

Lemma silent_undefined {A} : silent (W := W) (A := A) undefined.
Proof. intros w. exact I. Qed.

Lemma silent_bind {A B} (m : M W A) (k : A -> M W B) :
  silent m -> (forall a, silent (k a)) -> silent (bind m k).
Proof.
  intros Hm Hk w. unfold bind. specialize (Hm w).
  destruct (m w) as [[a w1] |]; [| exact I].
  specialize (Hk a w1).
  destruct (k a w1) as [[b w2] |]; [| exact I].
  rewrite Hk. exact Hm.
Qed.

(** A call to the environment that is no console output. *)
Lemma silent_call {A} (f : W -> A * W) (ev : A -> Event) :
  (forall a, is_serial (ev a) = false) ->
  silent (fun w => let (r, b') := f (wire w) in
                   Some (r, mkWorld b' (trace w ++ [ev r]))).
Proof.
  intros Hev w. destruct (f (wire w)) as [r b']. cbn [trace].
  unfold console_output. rewrite filter_app. cbn [filter].
  rewrite Hev. apply app_nil_r.
Qed.

Lemma silent_beginTransmission (addr : Z) :
  silent (wire_beginTransmission addr).
Proof.
  exact (silent_call (fun b => (tt, tw_beginTransmission addr b))
                     (fun _ => EvBeginTransmission addr) (fun _ => eq_refl)).
Qed.

Lemma silent_write (b : Z) : silent (wire_write b).
Proof.
  exact (silent_call (fun x => (tt, tw_write b x))
                     (fun _ => EvWrite b) (fun _ => eq_refl)).
Qed.

Lemma silent_endTransmission : silent wire_endTransmission.
Proof.
  exact (silent_call tw_endTransmission EvEndTransmission (fun _ => eq_refl)).
Qed.

Lemma silent_requestFrom (addr n : Z) : silent (wire_requestFrom addr n).
Proof.
  exact (silent_call (tw_requestFrom addr n) (EvRequestFrom addr n)
                     (fun _ => eq_refl)).
Qed.

Lemma silent_available : silent wire_available.
Proof. exact (silent_call tw_available EvAvailable (fun _ => eq_refl)). Qed.

Lemma silent_read : silent wire_read.
Proof. exact (silent_call tw_read EvRead (fun _ => eq_refl)). Qed.

Lemma silent_wire_begin : silent wire_begin.
Proof.
  exact (silent_call (fun b => (tt, tw_begin b))
                     (fun _ => EvWireBegin) (fun _ => eq_refl)).
Qed.

Lemma silent_delay (ms : Z) : silent (W := W) (delay ms).
Proof.
  exact (silent_call (fun b => (tt, b)) (fun _ => EvDelay ms)
                     (fun _ => eq_refl)).
Qed.

(** A guarded statement whose guard is false. *)
Lemma silent_when (c : bool) (body : M W unit) :
  c = false -> silent (when c body).
Proof. intros ->. apply silent_ret. Qed.

Lemma silent_read_loop (n : nat) :
  forall i buf, silent (read_loop n i buf).
Proof.
  induction n as [| n IH]; intros i buf; cbn [read_loop].
  - apply silent_ret.
  - apply silent_bind; [apply silent_read |].
    intros v. destruct (store buf i (to_u8 v)).
    + apply IH.
    + apply silent_undefined.
Qed.

End Silent.

Create HintDb silent.
#[export] Hint Resolve silent_ret silent_undefined silent_beginTransmission
  silent_write silent_endTransmission silent_requestFrom silent_available
  silent_read silent_wire_begin silent_delay silent_read_loop : silent.

(** One step of a proof that a computation prints nothing. *)
Ltac silent_step :=
  match goal with
  | |- silent (bind _ _) => apply silent_bind; [| intros ?]
  | |- silent (when _ _) =>
      apply silent_when;
      first [ reflexivity | apply andb_false_r ]
  | |- silent (if ?c then _ else _) => destruct c
  | |- silent (let (_, _) := ?x in _) => destruct x
  | |- silent (match ?x with Some _ => _ | None => _ end) => destruct x
  | |- silent _ => solve [auto with silent]
  end.

Section DebugOff.
Context {W : Type} {bus : TwoWire W} {decls : Sht3xDecls}.
Variable dev : cSHT_3x.
Hypothesis debug_off : isDebug dev = false.

Lemma silent_writeCommand (c : Command) : silent (writeCommand dev c).
Proof.
  unfold writeCommand. rewrite debug_off. repeat silent_step.
Qed.

Lemma silent_readResponse (buf : option (list Z)) (nBuf : Z) :
  silent (readResponse dev buf nBuf).
Proof.
  unfold readResponse. rewrite debug_off.
  destruct buf as [arr |]; repeat silent_step.
Qed.

End DebugOff.

#[export] Hint Resolve silent_writeCommand silent_readResponse : silent.

(** X20: with the debug flag off the driver never writes to the console:
    after any operation that has a result, the console output is what it
    was before the call.  Every [Serial] call of the file stands behind a
    test of [isDebug]. *)
Theorem debug_off_is_silent :
  forall {W : Type} {bus : TwoWire W} {decls : Sht3xDecls}
         (isHeaterOn : Status_t -> bool) (dev : cSHT_3x),
    isDebug dev = false ->
    (forall c, silent (writeCommand dev c)) /\
    (forall buf nBuf, silent (readResponse dev buf nBuf)) /\
    silent (reset dev) /\
    silent (begin dev) /\
    silent (end_ dev) /\
    (forall ind, silent (getStatus dev ind)) /\
    (forall ind, silent (getHeater isHeaterOn dev ind)) /\
    (forall ind t rh r, silent (getTemperatureHumidityRaw dev ind t rh r)) /\
    (forall ind t rh r, silent (getTemperatureHumidity dev ind t rh r)) /\
    (forall c, silent (startPeriodicMeasurement dev c)) /\
    (forall ind tfrac rhfrac,
        silent (getPeriodicMeasurementRaw dev ind tfrac rhfrac)) /\
    (forall ind t rh, silent (getPeriodicMeasurement dev ind t rh)).
Proof.
  intros W bus decls isHeaterOn dev Hoff.
  assert (Hwrite : forall c, silent (writeCommand dev c))
    by (intros c; apply silent_writeCommand, Hoff).
  assert (Hread : forall buf nBuf, silent (readResponse dev buf nBuf))
    by (intros buf nBuf; apply silent_readResponse, Hoff).
  assert (Hreset : silent (reset dev)).
  { unfold reset. repeat silent_step. }
  assert (Hstatus : forall ind, silent (getStatus dev ind)).
  { intros ind. unfold getStatus. repeat silent_step. }
  assert (Hraw : forall ind t rh r,
             silent (getTemperatureHumidityRaw dev ind t rh r)).
  { intros ind t rh r. unfold getTemperatureHumidityRaw. rewrite Hoff.
    repeat first
      [ silent_step
      | progress (rewrite !processResultsRaw_eq; cbv beta iota) ]. }
  assert (Hfetch : forall ind tfrac rhfrac,
             silent (getPeriodicMeasurementRaw dev ind tfrac rhfrac)).
  { intros ind tfrac rhfrac. unfold getPeriodicMeasurementRaw.
    repeat silent_step. }
  repeat split.
  - exact Hwrite.
  - exact Hread.
  - exact Hreset.
  - unfold begin. apply silent_bind; [apply silent_wire_begin |].
    intros _. exact Hreset.
  - unfold end_. apply silent_bind; [exact Hreset |].
    intros _. apply silent_ret.
  - exact Hstatus.
  - intros ind. unfold getHeater. apply silent_bind; [apply Hstatus |].
    intros s. repeat silent_step.
  - exact Hraw.
  - intros ind t rh r. unfold getTemperatureHumidity.
    apply silent_bind; [apply Hraw |].
    intros [[ok tf] rf]. repeat silent_step.
  - intros c. unfold startPeriodicMeasurement. repeat silent_step.
  - exact Hfetch.
  - intros ind t rh. unfold getPeriodicMeasurement.
    apply silent_bind; [apply Hfetch |].
    intros [[ok tf] rf]. repeat silent_step.
Qed.

Lemma debug_off_is_silent_witness :
  match getTemperatureHumidityRaw (decls := SimDecls.decls) SimDecls.sensor
          SimDecls.leftovers 0 0 Sim.High (Sim.start [] [[1; 2; 3]])
  with
  | Some (_, w') =>
      console_output (trace w')
      = console_output (trace (Sim.start [] [[1; 2; 3]]))
  | None => True
  end.
Proof.
  exact (proj1 (proj2 (proj2 (proj2 (proj2 (proj2 (proj2 (proj2
           (debug_off_is_silent (decls := SimDecls.decls)
              (fun _ => false) SimDecls.sensor eq_refl))))))))
           SimDecls.leftovers 0 0 Sim.High (Sim.start [] [[1; 2; 3]])).
Defined.

(** The same short read with the debug flag on does reach the console. *)
Example debug_on_short_read_prints :
  exists r w',
    getTemperatureHumidityRaw (decls := SimDecls.decls) SimDecls.sensor_debug
      SimDecls.leftovers 0 0 Sim.High (Sim.start [] [[1; 2; 3]])
    = Some (r, w') /\
    console_output (trace w') <> [].
Proof.
  eexists. eexists. split; [vm_compute; reflexivity | discriminate].
Qed.
